(** * Don't Look Back: the runtime state coordination core

    A shallow embedding of the paranoia estimator and event scheduler
    ([facility_system.js]), the world streamer ([environment.js], class
    [FacilityGenerator]), the zone logic of the game loop ([main.js]) and
    the collision and zone-tracking blocks of the player ([player.js]),
    followed by the properties established about them.

    Modelling conventions.
    - A JavaScript number is an exact rational or [NaN] (type [num]).
      Rounding and the infinities of IEEE 754 doubles are outside the
      model.  Quantities that no modelled statement can make [NaN] (random
      draws, positions, the drift fields, clock time) are plain [Q].
    - Objects live in one [World] record; a method is a function
      [World -> World] whose body follows the statements of the source.
    - [Math.random] reads an oracle stream stored in the world.
    - Three.js objects are represented by identifiers; only the fields the
      game logic reads or writes are kept (no geometry, material colours,
      camera roll angle, audio).
    - The console and the message overlay are output streams. *)

From Stdlib Require Import QArith Qround Qabs Lqa Lia ZArith List Bool String.
Import ListNotations.
Open Scope Q_scope.

(** ** JavaScript numbers *)

Module JS.

Inductive num : Type :=
| Fin (q : Q)
| NaN.

(** A parameter that the caller may have left out. *)
Inductive value : Type :=
| Undefined
| Number (n : num).

Definition ToNumber (v : value) : num :=
  match v with
  | Undefined => NaN
  | Number n => n
  end.

Definition lift2 (f : Q -> Q -> Q) (a b : num) : num :=
  match a, b with
  | Fin x, Fin y => Fin (f x y)
  | _, _ => NaN
  end.

Definition add := lift2 Qplus.
Definition sub := lift2 Qminus.
Definition mul := lift2 Qmult.

(** Division; every divisor in the program is a non-zero constant. *)
Definition div := lift2 Qdiv.

Definition Qltb (x y : Q) : bool := negb (Qle_bool y x).

(** Comparisons with [NaN] are false. *)
Definition cmp (f : Q -> Q -> bool) (a b : num) : bool :=
  match a, b with
  | Fin x, Fin y => f x y
  | _, _ => false
  end.

Definition lt := cmp Qltb.
Definition gt := cmp (fun x y => Qltb y x).
Definition ge := cmp (fun x y => Qle_bool y x).

Definition Qmax (x y : Q) : Q := if Qle_bool x y then y else x.
Definition Qmin (x y : Q) : Q := if Qle_bool x y then x else y.

Definition max := lift2 Qmax.
Definition min := lift2 Qmin.

Definition isNaN (v : value) : bool :=
  match ToNumber v with
  | NaN => true
  | Fin _ => false
  end.

(** [Math.floor]; [None] stands for [NaN]. *)
Definition floor (a : num) : option Z :=
  match a with
  | Fin x => Some (Qfloor x)
  | NaN => None
  end.

(** [THREE.MathUtils.clamp(value, min, max)] is
    [Math.max(min, Math.min(max, value))]. *)
Definition clamp (v lo hi : Q) : Q := Qmax lo (Qmin hi v).

(** [THREE.MathUtils.lerp(x, y, t)] is [(1 - t) * x + t * y]. *)
Definition lerp (x y t : num) : num :=
  add (mul (sub (Fin 1) t) x) (mul t y).

(** The fractional part, used to keep oracle draws in [0, 1). *)
Definition frac (q : Q) : Q := q - inject_Z (Qfloor q).

End JS.

Import JS.

Declare Scope js_scope.
Delimit Scope js_scope with js.
Infix "+" := add : js_scope.
Infix "-" := sub : js_scope.
Infix "*" := mul : js_scope.
Infix "/" := div : js_scope.
Infix "<?" := lt : js_scope.
Infix ">?" := gt (at level 70) : js_scope.
Infix ">=?" := ge (at level 70) : js_scope.

Infix "<?" := Qltb : Q_scope.
Infix "<=?" := Qle_bool : Q_scope.

Coercion Fin : Q >-> num.

(** ** Data model *)

Definition ObjId := nat.

(** [this.drift] of the generator. *)
Record Drift := mkDrift {
  loopCount : nat;
  heightOffset : Q;
  lightDimming : Q;
  pillarOffset : Q
}.

(** A corridor [THREE.Group] held in [this.chunks]. *)
Record Chunk := mkChunk {
  cid : ObjId;
  cz : Q;                    (* position.z, the chunk centre *)
  cchildren : list ObjId
}.

(** The emissive box linked to a point light through [userData.mesh]. *)
Record Mesh := mkMesh {
  mid : ObjId;
  mvisible : bool;
  emissiveIntensity : num
}.

(** A [THREE.PointLight] held in [this.lights]. *)
Record Light := mkLight {
  lid : ObjId;
  lparent : option ObjId;    (* the group the light was added to *)
  intensity : num;
  lvisible : bool;
  originalIntensity : Q;     (* userData.originalIntensity *)
  lmesh : option Mesh        (* userData.mesh *)
}.

(** An entry of [this.pillarPositions]. *)
Record Pillar := mkPillar { px : Q; pz : Q }.

Record Mirage := mkMirage {
  mirVisible : bool;
  mirOpacity : Q;
  mirX : Q;
  mirZ : Q;
  mirScaleX : Q
}.

(** [FacilityGenerator]. *)
Record Generator := mkGenerator {
  scene : list ObjId;        (* children of the scene *)
  fog : bool;
  chunks : list Chunk;
  lights : list Light;
  interactables : list ObjId;
  pillarPositions : list Pillar;
  zOffset : Q;
  forceBlackout : bool;
  drift : Drift;
  mirageMesh : Mirage;
  introRoom : option ObjId;
  isEndgame : bool;
  stopGeneration : bool;
  blackHole : option Q;      (* position.z of the void attractor *)
  endgameTargetZ : option Q;
  corridorEndZ : option Q;
  distantSun : option ObjId;
  nextId : ObjId             (* allocator for new objects *)
}.

Definition chunkSize : Q := 20.
Definition renderDistance : Q := 80.

(** [this.cameraInversion] and [this.blackout]. *)
Record CameraInversion := mkCameraInversion {
  ciActive : bool;
  ciTimer : num;
  ciDuration : num;
  ciDirection : option Z
}.

Record Blackout := mkBlackout {
  boActive : bool;
  boTimer : num;
  boDuration : Q
}.

(** [FacilitySystem].  [paranoia] is the property of that name, which the
    constructor does not create. *)
Record System := mkSystem {
  paranoiaLevel : num;
  paranoia : option num;
  lastMessageTime : Q;
  cameraInversion : CameraInversion;
  blackout : Blackout;
  survivalTime : num;
  recentMessages : list string;
  maxParanoiaTimer : option num;
  _lastLogTime : option Z;
  endgameTriggered : bool;
  neuroText : string;
  neuroClass : string
}.

Definition maxParanoia : Q := 100.
Definition baseMessageCooldown : Q := 15.

(** [player.metrics], as far as the system reads it. *)
Record Metrics := mkMetrics {
  isLookingBack : bool;
  isStationary : bool;
  stationaryTime : Q;
  continuousForwardTime : Q;
  zoneHistory : list Z
}.

Record Player := mkPlayer {
  posZ : Q;                  (* controls.getObject().position.z *)
  metrics : Metrics
}.

Inductive Zone := INTRO | CORRIDOR.

Inductive LogEntry :=
| SysPsychosisHold (t : num)
| SysPsychosisBreak
| EnvEnteringEndgame
| EnvAssetsSpawned (edgeZ voidZ : Q)
| MainZoneCorridor
| MainEasterEgg.

(** An entry appended to the message overlay by [logMessage]. *)
Record Entry := mkEntry {
  entryText : string;
  entryBold : bool;
  entryRed : bool
}.

Record World := mkWorld {
  sys : System;
  env : Generator;           (* [system.environment] and [client.generator] *)
  player : Player;
  currentZone : Zone;
  jumpscareActive : bool;
  console : list LogEntry;   (* newest first *)
  overlay : list Entry;      (* newest first; the head is what is shown *)
  rnd : nat -> Q;            (* oracle behind Math.random *)
  rndPos : nat
}.

(** ** Field updates *)

Definition set_loopCount v (x : Drift) : Drift :=
  mkDrift v (heightOffset x) (lightDimming x) (pillarOffset x).

Definition set_heightOffset v (x : Drift) : Drift :=
  mkDrift (loopCount x) v (lightDimming x) (pillarOffset x).

Definition set_lightDimming v (x : Drift) : Drift :=
  mkDrift (loopCount x) (heightOffset x) v (pillarOffset x).

Definition set_pillarOffset v (x : Drift) : Drift :=
  mkDrift (loopCount x) (heightOffset x) (lightDimming x) v.

Definition set_mid v (x : Mesh) : Mesh :=
  mkMesh v (mvisible x) (emissiveIntensity x).

Definition set_mvisible v (x : Mesh) : Mesh :=
  mkMesh (mid x) v (emissiveIntensity x).

Definition set_emissiveIntensity v (x : Mesh) : Mesh :=
  mkMesh (mid x) (mvisible x) v.

Definition set_lid v (x : Light) : Light :=
  mkLight v (lparent x) (intensity x) (lvisible x) (originalIntensity x) (lmesh x).

Definition set_lparent v (x : Light) : Light :=
  mkLight (lid x) v (intensity x) (lvisible x) (originalIntensity x) (lmesh x).

Definition set_intensity v (x : Light) : Light :=
  mkLight (lid x) (lparent x) v (lvisible x) (originalIntensity x) (lmesh x).

Definition set_lvisible v (x : Light) : Light :=
  mkLight (lid x) (lparent x) (intensity x) v (originalIntensity x) (lmesh x).

Definition set_originalIntensity v (x : Light) : Light :=
  mkLight (lid x) (lparent x) (intensity x) (lvisible x) v (lmesh x).

Definition set_lmesh v (x : Light) : Light :=
  mkLight (lid x) (lparent x) (intensity x) (lvisible x) (originalIntensity x) v.

Definition set_mirVisible v (x : Mirage) : Mirage :=
  mkMirage v (mirOpacity x) (mirX x) (mirZ x) (mirScaleX x).

Definition set_mirOpacity v (x : Mirage) : Mirage :=
  mkMirage (mirVisible x) v (mirX x) (mirZ x) (mirScaleX x).

Definition set_mirX v (x : Mirage) : Mirage :=
  mkMirage (mirVisible x) (mirOpacity x) v (mirZ x) (mirScaleX x).

Definition set_mirZ v (x : Mirage) : Mirage :=
  mkMirage (mirVisible x) (mirOpacity x) (mirX x) v (mirScaleX x).

Definition set_mirScaleX v (x : Mirage) : Mirage :=
  mkMirage (mirVisible x) (mirOpacity x) (mirX x) (mirZ x) v.

Definition set_scene v (x : Generator) : Generator :=
  mkGenerator v (fog x) (chunks x) (lights x) (interactables x) (pillarPositions x) (zOffset x) (forceBlackout x) (drift x) (mirageMesh x) (introRoom x) (isEndgame x) (stopGeneration x) (blackHole x) (endgameTargetZ x) (corridorEndZ x) (distantSun x) (nextId x).

Definition set_fog v (x : Generator) : Generator :=
  mkGenerator (scene x) v (chunks x) (lights x) (interactables x) (pillarPositions x) (zOffset x) (forceBlackout x) (drift x) (mirageMesh x) (introRoom x) (isEndgame x) (stopGeneration x) (blackHole x) (endgameTargetZ x) (corridorEndZ x) (distantSun x) (nextId x).

Definition set_chunks v (x : Generator) : Generator :=
  mkGenerator (scene x) (fog x) v (lights x) (interactables x) (pillarPositions x) (zOffset x) (forceBlackout x) (drift x) (mirageMesh x) (introRoom x) (isEndgame x) (stopGeneration x) (blackHole x) (endgameTargetZ x) (corridorEndZ x) (distantSun x) (nextId x).

Definition set_lights v (x : Generator) : Generator :=
  mkGenerator (scene x) (fog x) (chunks x) v (interactables x) (pillarPositions x) (zOffset x) (forceBlackout x) (drift x) (mirageMesh x) (introRoom x) (isEndgame x) (stopGeneration x) (blackHole x) (endgameTargetZ x) (corridorEndZ x) (distantSun x) (nextId x).

Definition set_interactables v (x : Generator) : Generator :=
  mkGenerator (scene x) (fog x) (chunks x) (lights x) v (pillarPositions x) (zOffset x) (forceBlackout x) (drift x) (mirageMesh x) (introRoom x) (isEndgame x) (stopGeneration x) (blackHole x) (endgameTargetZ x) (corridorEndZ x) (distantSun x) (nextId x).

Definition set_pillarPositions v (x : Generator) : Generator :=
  mkGenerator (scene x) (fog x) (chunks x) (lights x) (interactables x) v (zOffset x) (forceBlackout x) (drift x) (mirageMesh x) (introRoom x) (isEndgame x) (stopGeneration x) (blackHole x) (endgameTargetZ x) (corridorEndZ x) (distantSun x) (nextId x).

Definition set_zOffset v (x : Generator) : Generator :=
  mkGenerator (scene x) (fog x) (chunks x) (lights x) (interactables x) (pillarPositions x) v (forceBlackout x) (drift x) (mirageMesh x) (introRoom x) (isEndgame x) (stopGeneration x) (blackHole x) (endgameTargetZ x) (corridorEndZ x) (distantSun x) (nextId x).

Definition set_forceBlackout v (x : Generator) : Generator :=
  mkGenerator (scene x) (fog x) (chunks x) (lights x) (interactables x) (pillarPositions x) (zOffset x) v (drift x) (mirageMesh x) (introRoom x) (isEndgame x) (stopGeneration x) (blackHole x) (endgameTargetZ x) (corridorEndZ x) (distantSun x) (nextId x).

Definition set_drift v (x : Generator) : Generator :=
  mkGenerator (scene x) (fog x) (chunks x) (lights x) (interactables x) (pillarPositions x) (zOffset x) (forceBlackout x) v (mirageMesh x) (introRoom x) (isEndgame x) (stopGeneration x) (blackHole x) (endgameTargetZ x) (corridorEndZ x) (distantSun x) (nextId x).

Definition set_mirageMesh v (x : Generator) : Generator :=
  mkGenerator (scene x) (fog x) (chunks x) (lights x) (interactables x) (pillarPositions x) (zOffset x) (forceBlackout x) (drift x) v (introRoom x) (isEndgame x) (stopGeneration x) (blackHole x) (endgameTargetZ x) (corridorEndZ x) (distantSun x) (nextId x).

Definition set_introRoom v (x : Generator) : Generator :=
  mkGenerator (scene x) (fog x) (chunks x) (lights x) (interactables x) (pillarPositions x) (zOffset x) (forceBlackout x) (drift x) (mirageMesh x) v (isEndgame x) (stopGeneration x) (blackHole x) (endgameTargetZ x) (corridorEndZ x) (distantSun x) (nextId x).

Definition set_isEndgame v (x : Generator) : Generator :=
  mkGenerator (scene x) (fog x) (chunks x) (lights x) (interactables x) (pillarPositions x) (zOffset x) (forceBlackout x) (drift x) (mirageMesh x) (introRoom x) v (stopGeneration x) (blackHole x) (endgameTargetZ x) (corridorEndZ x) (distantSun x) (nextId x).

Definition set_stopGeneration v (x : Generator) : Generator :=
  mkGenerator (scene x) (fog x) (chunks x) (lights x) (interactables x) (pillarPositions x) (zOffset x) (forceBlackout x) (drift x) (mirageMesh x) (introRoom x) (isEndgame x) v (blackHole x) (endgameTargetZ x) (corridorEndZ x) (distantSun x) (nextId x).

Definition set_blackHole v (x : Generator) : Generator :=
  mkGenerator (scene x) (fog x) (chunks x) (lights x) (interactables x) (pillarPositions x) (zOffset x) (forceBlackout x) (drift x) (mirageMesh x) (introRoom x) (isEndgame x) (stopGeneration x) v (endgameTargetZ x) (corridorEndZ x) (distantSun x) (nextId x).

Definition set_endgameTargetZ v (x : Generator) : Generator :=
  mkGenerator (scene x) (fog x) (chunks x) (lights x) (interactables x) (pillarPositions x) (zOffset x) (forceBlackout x) (drift x) (mirageMesh x) (introRoom x) (isEndgame x) (stopGeneration x) (blackHole x) v (corridorEndZ x) (distantSun x) (nextId x).

Definition set_corridorEndZ v (x : Generator) : Generator :=
  mkGenerator (scene x) (fog x) (chunks x) (lights x) (interactables x) (pillarPositions x) (zOffset x) (forceBlackout x) (drift x) (mirageMesh x) (introRoom x) (isEndgame x) (stopGeneration x) (blackHole x) (endgameTargetZ x) v (distantSun x) (nextId x).

Definition set_distantSun v (x : Generator) : Generator :=
  mkGenerator (scene x) (fog x) (chunks x) (lights x) (interactables x) (pillarPositions x) (zOffset x) (forceBlackout x) (drift x) (mirageMesh x) (introRoom x) (isEndgame x) (stopGeneration x) (blackHole x) (endgameTargetZ x) (corridorEndZ x) v (nextId x).

Definition set_nextId v (x : Generator) : Generator :=
  mkGenerator (scene x) (fog x) (chunks x) (lights x) (interactables x) (pillarPositions x) (zOffset x) (forceBlackout x) (drift x) (mirageMesh x) (introRoom x) (isEndgame x) (stopGeneration x) (blackHole x) (endgameTargetZ x) (corridorEndZ x) (distantSun x) v.

Definition set_ciActive v (x : CameraInversion) : CameraInversion :=
  mkCameraInversion v (ciTimer x) (ciDuration x) (ciDirection x).

Definition set_ciTimer v (x : CameraInversion) : CameraInversion :=
  mkCameraInversion (ciActive x) v (ciDuration x) (ciDirection x).

Definition set_ciDuration v (x : CameraInversion) : CameraInversion :=
  mkCameraInversion (ciActive x) (ciTimer x) v (ciDirection x).

Definition set_ciDirection v (x : CameraInversion) : CameraInversion :=
  mkCameraInversion (ciActive x) (ciTimer x) (ciDuration x) v.

Definition set_boActive v (x : Blackout) : Blackout :=
  mkBlackout v (boTimer x) (boDuration x).

Definition set_boTimer v (x : Blackout) : Blackout :=
  mkBlackout (boActive x) v (boDuration x).

Definition set_boDuration v (x : Blackout) : Blackout :=
  mkBlackout (boActive x) (boTimer x) v.

Definition set_paranoiaLevel v (x : System) : System :=
  mkSystem v (paranoia x) (lastMessageTime x) (cameraInversion x) (blackout x) (survivalTime x) (recentMessages x) (maxParanoiaTimer x) (_lastLogTime x) (endgameTriggered x) (neuroText x) (neuroClass x).

Definition set_paranoia v (x : System) : System :=
  mkSystem (paranoiaLevel x) v (lastMessageTime x) (cameraInversion x) (blackout x) (survivalTime x) (recentMessages x) (maxParanoiaTimer x) (_lastLogTime x) (endgameTriggered x) (neuroText x) (neuroClass x).

Definition set_lastMessageTime v (x : System) : System :=
  mkSystem (paranoiaLevel x) (paranoia x) v (cameraInversion x) (blackout x) (survivalTime x) (recentMessages x) (maxParanoiaTimer x) (_lastLogTime x) (endgameTriggered x) (neuroText x) (neuroClass x).

Definition set_cameraInversion v (x : System) : System :=
  mkSystem (paranoiaLevel x) (paranoia x) (lastMessageTime x) v (blackout x) (survivalTime x) (recentMessages x) (maxParanoiaTimer x) (_lastLogTime x) (endgameTriggered x) (neuroText x) (neuroClass x).

Definition set_blackout v (x : System) : System :=
  mkSystem (paranoiaLevel x) (paranoia x) (lastMessageTime x) (cameraInversion x) v (survivalTime x) (recentMessages x) (maxParanoiaTimer x) (_lastLogTime x) (endgameTriggered x) (neuroText x) (neuroClass x).

Definition set_survivalTime v (x : System) : System :=
  mkSystem (paranoiaLevel x) (paranoia x) (lastMessageTime x) (cameraInversion x) (blackout x) v (recentMessages x) (maxParanoiaTimer x) (_lastLogTime x) (endgameTriggered x) (neuroText x) (neuroClass x).

Definition set_recentMessages v (x : System) : System :=
  mkSystem (paranoiaLevel x) (paranoia x) (lastMessageTime x) (cameraInversion x) (blackout x) (survivalTime x) v (maxParanoiaTimer x) (_lastLogTime x) (endgameTriggered x) (neuroText x) (neuroClass x).

Definition set_maxParanoiaTimer v (x : System) : System :=
  mkSystem (paranoiaLevel x) (paranoia x) (lastMessageTime x) (cameraInversion x) (blackout x) (survivalTime x) (recentMessages x) v (_lastLogTime x) (endgameTriggered x) (neuroText x) (neuroClass x).

Definition set__lastLogTime v (x : System) : System :=
  mkSystem (paranoiaLevel x) (paranoia x) (lastMessageTime x) (cameraInversion x) (blackout x) (survivalTime x) (recentMessages x) (maxParanoiaTimer x) v (endgameTriggered x) (neuroText x) (neuroClass x).

Definition set_endgameTriggered v (x : System) : System :=
  mkSystem (paranoiaLevel x) (paranoia x) (lastMessageTime x) (cameraInversion x) (blackout x) (survivalTime x) (recentMessages x) (maxParanoiaTimer x) (_lastLogTime x) v (neuroText x) (neuroClass x).

Definition set_neuroText v (x : System) : System :=
  mkSystem (paranoiaLevel x) (paranoia x) (lastMessageTime x) (cameraInversion x) (blackout x) (survivalTime x) (recentMessages x) (maxParanoiaTimer x) (_lastLogTime x) (endgameTriggered x) v (neuroClass x).

Definition set_neuroClass v (x : System) : System :=
  mkSystem (paranoiaLevel x) (paranoia x) (lastMessageTime x) (cameraInversion x) (blackout x) (survivalTime x) (recentMessages x) (maxParanoiaTimer x) (_lastLogTime x) (endgameTriggered x) (neuroText x) v.

Definition set_sys v (x : World) : World :=
  mkWorld v (env x) (player x) (currentZone x) (jumpscareActive x) (console x) (overlay x) (rnd x) (rndPos x).

Definition set_env v (x : World) : World :=
  mkWorld (sys x) v (player x) (currentZone x) (jumpscareActive x) (console x) (overlay x) (rnd x) (rndPos x).

Definition set_player v (x : World) : World :=
  mkWorld (sys x) (env x) v (currentZone x) (jumpscareActive x) (console x) (overlay x) (rnd x) (rndPos x).

Definition set_currentZone v (x : World) : World :=
  mkWorld (sys x) (env x) (player x) v (jumpscareActive x) (console x) (overlay x) (rnd x) (rndPos x).

Definition set_jumpscareActive v (x : World) : World :=
  mkWorld (sys x) (env x) (player x) (currentZone x) v (console x) (overlay x) (rnd x) (rndPos x).

Definition set_console v (x : World) : World :=
  mkWorld (sys x) (env x) (player x) (currentZone x) (jumpscareActive x) v (overlay x) (rnd x) (rndPos x).

Definition set_overlay v (x : World) : World :=
  mkWorld (sys x) (env x) (player x) (currentZone x) (jumpscareActive x) (console x) v (rnd x) (rndPos x).

Definition set_rnd v (x : World) : World :=
  mkWorld (sys x) (env x) (player x) (currentZone x) (jumpscareActive x) (console x) (overlay x) v (rndPos x).

Definition set_rndPos v (x : World) : World :=
  mkWorld (sys x) (env x) (player x) (currentZone x) (jumpscareActive x) (console x) (overlay x) (rnd x) v.

(** Updates of the objects reached through the world. *)
Definition upd_sys (f : System -> System) (w : World) : World :=
  set_sys (f (sys w)) w.

Definition upd_env (f : Generator -> Generator) (w : World) : World :=
  set_env (f (env w)) w.

Definition upd_drift (f : Drift -> Drift) (g : Generator) : Generator :=
  set_drift (f (drift g)) g.

Definition upd_blackout (f : Blackout -> Blackout) (s : System) : System :=
  set_blackout (f (blackout s)) s.

Definition upd_cameraInversion (f : CameraInversion -> CameraInversion)
    (s : System) : System :=
  set_cameraInversion (f (cameraInversion s)) s.

Definition upd_mirage (f : Mirage -> Mirage) (g : Generator) : Generator :=
  set_mirageMesh (f (mirageMesh g)) g.

Definition log (e : LogEntry) (w : World) : World :=
  set_console (e :: console w) w.

(** ** Primitives *)

(** [Math.random()]. *)
Definition Math_random (w : World) : Q * World :=
  (frac (rnd w (rndPos w)), set_rndPos (S (rndPos w)) w).

(** [cond && Math.random() < p]: the draw happens only when [cond] holds. *)
Definition andRandomLt (cond : bool) (p : num) (w : World) : bool * World :=
  if cond then
    let (r, w) := Math_random w in ((Fin r <? p)%js, w)
  else (false, w).

(** A new Three.js object. *)
Definition fresh (w : World) : ObjId * World :=
  (nextId (env w), upd_env (set_nextId (S (nextId (env w)))) w).

(** [scene.add(o)]. *)
Definition scene_add (o : ObjId) (w : World) : World :=
  upd_env (fun g => set_scene (scene g ++ [o]) g) w.

(** [i = a.indexOf(o); if (i > -1) a.splice(i, 1)], which is also what
    [Object3D.remove] does to its child list. *)
Fixpoint removeFirst (o : ObjId) (a : list ObjId) : list ObjId :=
  match a with
  | [] => []
  | x :: a' => if Nat.eqb x o then a' else x :: removeFirst o a'
  end.

(** [a.splice(i, 1)]. *)
Fixpoint splice1 {A : Type} (i : nat) (a : list A) : list A :=
  match a, i with
  | [], _ => []
  | _ :: a', O => a'
  | x :: a', S j => x :: splice1 j a'
  end.

(** JavaScript truthiness of an optional number. *)
Definition truthy (o : option Q) : bool :=
  match o with
  | Some q => negb (Qeq_bool q 0)
  | None => false
  end.

(** ** FacilityGenerator *)

Module FacilityGenerator.

Definition setDriftIntensity (intensity : Q) (w : World) : World :=
  upd_env (upd_drift (set_pillarOffset (intensity * 1.5))) w.

Definition showMirage (playerZ : Q) (w : World) : World :=
  let (r1, w) := Math_random w in
  let dist := 30 + r1 * 20 in
  let w := upd_env (upd_mirage (set_mirZ (playerZ - dist))) w in
  let (r2, w) := Math_random w in
  let w := upd_env (upd_mirage (set_mirX ((r2 - 0.5) * 4))) w in
  let w := upd_env (upd_mirage (set_mirVisible true)) w in
  upd_env (upd_mirage (set_mirOpacity 0)) w.

Definition hideMirage (w : World) : World :=
  let w := upd_env (upd_mirage (set_mirVisible false)) w in
  upd_env (upd_mirage (set_mirOpacity 0)) w.

Definition updateMirageEffect (w : World) : World :=
  if negb (mirVisible (mirageMesh (env w))) then w else
  let (r1, w) := Math_random w in
  let w :=
    if r1 <? 0.7 then
      let (r2, w) := Math_random w in
      upd_env (upd_mirage (set_mirOpacity (r2 * 0.05))) w
    else
      let (r2, w) := Math_random w in
      upd_env (upd_mirage (set_mirOpacity (0.1 + r2 * 0.15))) w in
  let (r3, w) := Math_random w in
  let w := upd_env (upd_mirage (fun m => set_mirX (mirX m + (r3 - 0.5) * 0.2) m)) w in
  let (r4, w) := Math_random w in
  upd_env (upd_mirage (set_mirScaleX (3 + (r4 - 0.5)))) w.

Definition destroyIntroRoom (w : World) : World :=
  match introRoom (env w) with
  | Some room =>
      let w := upd_env (fun g => set_scene (removeFirst room (scene g)) g) w in
      upd_env (set_introRoom None) w
  | None => w
  end.

(** One light of [updateLights] while the blackout is forced. *)
Definition blackoutLight (l : Light) : Light :=
  let l := set_intensity (Fin 0) l in
  match lmesh l with
  | Some m => set_lmesh (Some (set_mvisible false m)) l
  | None => l
  end.

(** One light of [updateLights] otherwise. *)
Definition restoreLight (delta : value) (l : Light) : Light :=
  if negb (Qeq_bool (originalIntensity l) 0) then
    let t := (ToNumber delta * Fin 5.0)%js in
    let l := set_intensity (lerp (intensity l) (Fin (originalIntensity l)) t) l in
    match lmesh l with
    | Some m =>
        let m := if (intensity l >? Fin 0.05)%js then set_mvisible true m else m in
        let m := set_emissiveIntensity (lerp (emissiveIntensity m) (Fin 2.0) t) m in
        set_lmesh (Some m) l
    | None => l
    end
  else l.

Definition updateLights (delta : value) (w : World) : World :=
  if forceBlackout (env w) then
    upd_env (fun g => set_lights (map blackoutLight (lights g)) g) w
  else
    upd_env (fun g => set_lights (map (restoreLight delta) (lights g)) g) w.

(** The body of the [forEach] in [flickerLights], for one light. *)
Definition flickerLight (l : Light) (w : World) : Light * World :=
  let (r1, w) := Math_random w in
  if r1 <? 0.3 then
    let (r2, w) := Math_random w in
    let (mult, w) :=
      if r2 <? 0.5 then (0.0, w)
      else let (r3, w) := Math_random w in (0.1 + r3 * 1.1, w) in
    let l := set_intensity (Fin (originalIntensity l * mult)) l in
    match lmesh l with
    | Some m =>
        let m :=
          if mult <? 0.05 then
            set_emissiveIntensity (Fin 0) (set_mvisible false m)
          else
            set_emissiveIntensity (Fin (2.0 * mult)) (set_mvisible true m) in
        (set_lmesh (Some m) l, w)
    | None => (l, w)
    end
  else (l, w).

Fixpoint flickerEach (ls : list Light) (w : World) : list Light * World :=
  match ls with
  | [] => ([], w)
  | l :: ls' =>
      let (l', w) := flickerLight l w in
      let (ls'', w) := flickerEach ls' w in
      (l' :: ls'', w)
  end.

Definition flickerLights (w : World) : World :=
  if forceBlackout (env w) then w else
  let (ls, w) := flickerEach (lights (env w)) w in
  upd_env (set_lights ls) w.

(** [this.lights.filter(l => l.parent !== null)]; the chunk is not used. *)
Definition removeLightsInChunk (chunk : Chunk) (w : World) : World :=
  upd_env (fun g =>
    set_lights
      (filter (fun l => match lparent l with Some _ => true | None => false end)
              (lights g)) g) w.

Definition removeChunk (chunk : Chunk) (w : World) : World :=
  let w := upd_env (fun g => set_scene (removeFirst (cid chunk) (scene g)) g) w in
  let w := removeLightsInChunk chunk w in
  let w :=
    fold_left
      (fun w child =>
         upd_env (fun g => set_interactables (removeFirst child (interactables g)) g) w)
      (cchildren chunk) w in
  let chunkZ := cz chunk in
  upd_env (fun g =>
    set_pillarPositions
      (filter (fun p => pz p <? chunkZ + 20) (pillarPositions g)) g) w.

(** The loop of [cleanupChunks]: [i] is one more than the next index. *)
Fixpoint cleanupLoop (cleanThreshold : Q) (i : nat) (w : World) : World :=
  match i with
  | O => w
  | S j =>
      match nth_error (chunks (env w)) j with
      | Some chunk =>
          if cleanThreshold <? cz chunk then
            let w := removeChunk chunk w in
            let w := upd_env (fun g => set_chunks (splice1 j (chunks g)) g) w in
            cleanupLoop cleanThreshold j w
          else cleanupLoop cleanThreshold j w
      | None => cleanupLoop cleanThreshold j w
      end
  end.

Definition cleanupChunks (playerZ : Q) (w : World) : World :=
  let cleanThreshold := playerZ + 40 in
  cleanupLoop cleanThreshold (List.length (chunks (env w))) w.

Definition createPillar (parentGroup : Chunk) (roomWidth roomHeight zPos chunkWorldZ : Q)
    (w : World) : Chunk * World :=
  let off := pillarOffset (drift (env w)) in
  (* drift calculation (random jitter) *)
  let (r, w) := Math_random w in let dX1 := (r - 0.5) * off in
  let (r, w) := Math_random w in let dRot1 := (r - 0.5) * (off * 0.5) in
  let (r, w) := Math_random w in let dX2 := (r - 0.5) * off in
  let (r, w) := Math_random w in let dRot2 := (r - 0.5) * (off * 0.5) in
  let (r, w) := Math_random w in let dZ1 := (r - 0.5) * off in
  let (r, w) := Math_random w in let dZ2 := (r - 0.5) * off in
  (* left pillar *)
  let (leftPillar, w) := fresh w in
  let parentGroup := mkChunk (cid parentGroup) (cz parentGroup)
                       (cchildren parentGroup ++ [leftPillar]) in
  let w := upd_env (fun g => set_interactables (interactables g ++ [leftPillar]) g) w in
  (* right pillar *)
  let (rightPillar, w) := fresh w in
  let parentGroup := mkChunk (cid parentGroup) (cz parentGroup)
                       (cchildren parentGroup ++ [rightPillar]) in
  let w := upd_env (fun g => set_interactables (interactables g ++ [rightPillar]) g) w in
  (* world positions for collision *)
  let worldZ1 := (zPos + dZ1) + chunkWorldZ in
  let worldZ2 := (zPos + dZ2) + chunkWorldZ in
  let w := upd_env (fun g =>
             set_pillarPositions
               (pillarPositions g ++
                  [ mkPillar (- roomWidth / 2 + 0.5 + dX1) worldZ1;
                    mkPillar (roomWidth / 2 - 0.5 + dX2) worldZ2 ]) g) w in
  (* light fixture *)
  let (lightMesh, w) := fresh w in
  let parentGroup := mkChunk (cid parentGroup) (cz parentGroup)
                       (cchildren parentGroup ++ [lightMesh]) in
  let intensity := 1.5 - lightDimming (drift (env w)) in
  let intensity := Qmax 0.1 intensity in
  let (pointLight, w) := fresh w in
  let light := mkLight pointLight (Some (cid parentGroup)) (Fin intensity) true
                 intensity (Some (mkMesh lightMesh true (Fin 2.0))) in
  let parentGroup := mkChunk (cid parentGroup) (cz parentGroup)
                       (cchildren parentGroup ++ [pointLight]) in
  let w := upd_env (fun g => set_lights (lights g ++ [light]) g) w in
  (parentGroup, w).

(** [for (let gZ = alignBase; gZ < limit; gZ += spacing)] of
    [generateCorridorChunk]; [None] when the fuel does not reach the exit. *)
Fixpoint pillarLoop (fuel : nat) (gZ limit spacing : Q) (corridor : Chunk)
    (width height chunkWorldZ : Q) (w : World) : option (Chunk * World) :=
  match fuel with
  | O => None
  | S fuel' =>
      if gZ <? limit then
        let localZ := gZ - chunkWorldZ in
        let (corridor, w) := createPillar corridor width height localZ chunkWorldZ w in
        pillarLoop fuel' (gZ + spacing) limit spacing corridor width height chunkWorldZ w
      else Some (corridor, w)
  end.

(** Iterations that the loop can need, plus the failing test. *)
Definition pillarFuel (length spacing : Q) : nat :=
  S (Z.to_nat (Qceiling (length / spacing))).

Definition generateCorridorChunk (zStart : Q) (w : World) : World :=
  (* update drift (cumulative) *)
  let w := upd_env (upd_drift (fun d => set_loopCount (S (loopCount d)) d)) w in
  let (r, w) := Math_random w in
  let w := upd_env (upd_drift (fun d => set_heightOffset (heightOffset d + (r - 0.5) * 0.1) d)) w in
  let w := upd_env (upd_drift (fun d => set_heightOffset (clamp (heightOffset d) (-1.0) 1.5) d)) w in
  let (r, w) := Math_random w in
  let w := upd_env (upd_drift (fun d => set_lightDimming (lightDimming d + (r - 0.3) * 0.1) d)) w in
  let w := upd_env (upd_drift (fun d => set_lightDimming (clamp (lightDimming d) (-0.5) 0.8) d)) w in
  let (r, w) := Math_random w in
  let w := upd_env (upd_drift (fun d => set_pillarOffset (pillarOffset d + (r - 0.5) * 0.2) d)) w in
  let w := upd_env (upd_drift (fun d => set_pillarOffset (clamp (pillarOffset d) (-1.0) 1.0) d)) w in
  let length := chunkSize in
  let width := 6 in
  let height := 5 + heightOffset (drift (env w)) in
  (* group, floor, ceiling, walls *)
  let (corridorId, w) := fresh w in
  let (floor, w) := fresh w in
  let (ceiling, w) := fresh w in
  let (leftWall, w) := fresh w in
  let (rightWall, w) := fresh w in
  let corridor := mkChunk corridorId 0 [floor; ceiling; leftWall; rightWall] in
  (* pillars on the rigid grid *)
  let chunkWorldZ := zStart - length / 2 in
  let spacing := 8 in
  let chunkStartWorld := chunkWorldZ - length / 2 in
  let alignBase := inject_Z (Qceiling (chunkStartWorld / spacing)) * spacing in
  let (corridor, w) :=
    match pillarLoop (pillarFuel length spacing) alignBase (chunkStartWorld + length)
            spacing corridor width height chunkWorldZ w with
    | Some cw => cw
    | None => (corridor, w)
    end in
  (* position *)
  let corridor := mkChunk (cid corridor) (zStart - length / 2) (cchildren corridor) in
  let w := scene_add (cid corridor) w in
  let w := upd_env (fun g => set_chunks (chunks g ++ [corridor]) g) w in
  upd_env (fun g => set_interactables (interactables g ++ [leftWall; rightWall]) g) w.

Definition createInitialCorridor (w : World) : World :=
  let w := generateCorridorChunk 0 w in
  let w := upd_env (fun g => set_zOffset (zOffset g - chunkSize) g) w in
  let w := generateCorridorChunk (zOffset (env w)) w in
  upd_env (fun g => set_zOffset (zOffset g - chunkSize) g) w.

Definition createDistantSun (w : World) : World :=
  let (sun, w) := fresh w in
  let w := scene_add sun w in
  upd_env (set_distantSun (Some sun)) w.

Definition enterEndgame (w : World) : World :=
  if isEndgame (env w) then w else
  let w := upd_env (set_isEndgame true) w in
  let w := upd_env (set_stopGeneration true) w in
  let w := upd_env (set_fog false) w in
  let w := log EnvEnteringEndgame w in
  createDistantSun w.

(** [scene.add] of [n] new objects (void, halo, border, star tunnel). *)
Fixpoint spawn (n : nat) (w : World) : World :=
  match n with
  | O => w
  | S n' => let (o, w) := fresh w in spawn n' (scene_add o w)
  end.

Definition updateEndgame (playerPosZ : Q) (w : World) : World :=
  match blackHole (env w) with
  | Some _ => w
  | None =>
      if truthy (endgameTargetZ (env w)) then w else
      let startZ := playerPosZ in
      let (startZ, w) :=
        match rev (chunks (env w)) with
        | lastChunk :: _ =>
            let startZ := cz lastChunk - chunkSize / 2 in
            (startZ, upd_env (set_endgameTargetZ (Some (startZ - 200))) w)
        | [] =>
            (startZ, upd_env (set_endgameTargetZ (Some (playerPosZ - 200))) w)
        end in
      let w := upd_env (set_corridorEndZ (Some startZ)) w in
      let target := match endgameTargetZ (env w) with Some t => t | None => 0 end in
      (* createBlackHole, then position.set(0, 0, endgameTargetZ) *)
      let w := spawn 1 w in
      let w := upd_env (set_blackHole (Some target)) w in
      (* createCorridorBorder: four planes; createStarTunnel: sky and stars *)
      let w := spawn 4 w in
      let w := spawn 2 w in
      log (EnvAssetsSpawned startZ target) w
  end.

(** [if (delta === undefined || isNaN(delta)) delta = 0.016]. *)
Definition sanitizeDelta (delta : value) : value :=
  if match delta with Undefined => true | Number _ => false end || isNaN delta
  then Number (Fin 0.016)
  else delta.

(** [FacilityGenerator.update]. *)
Definition update (playerZ : Q) (delta : value) (w : World) : World :=
  let delta := sanitizeDelta delta in
  let w := updateLights delta w in
  if stopGeneration (env w) || isEndgame (env w) then
    let w := updateEndgame playerZ w in
    cleanupChunks playerZ w
  else
    let distToEdge := Qabs (playerZ - zOffset (env w)) in
    if distToEdge <? renderDistance then
      let w := generateCorridorChunk (zOffset (env w)) w in
      let w := upd_env (fun g => set_zOffset (zOffset g - chunkSize) g) w in
      cleanupChunks playerZ w
    else w.

End FacilityGenerator.

Import FacilityGenerator.

(** ** FacilitySystem *)

Module FacilitySystem.

Definition getParanoiaFactor (w : World) : num :=
  (paranoiaLevel (sys w) / Fin maxParanoia)%js.

Definition updateStatus (text className : string) (w : World) : World :=
  let w := upd_sys (set_neuroText text) w in
  upd_sys (set_neuroClass className) w.

(** [monitorParanoia], first part: the increase and decay rules. *)
Definition accrue (delta : value) (w : World) : World :=
  let p := metrics (player w) in
  let d := ToNumber delta in
  (* increase: looking back *)
  let w :=
    if isLookingBack p then
      upd_sys (fun s => set_paranoiaLevel (paranoiaLevel s + d * Fin 20.0)%js s) w
    else w in
  (* increase: continuous running *)
  let w :=
    if 3.0 <? continuousForwardTime p then
      upd_sys (fun s => set_paranoiaLevel (paranoiaLevel s + d * Fin 1.0)%js s) w
    else w in
  (* decay: recover when stationary or moving carefully *)
  if negb (isLookingBack p) then
    if isStationary p then
      upd_sys (fun s => set_paranoiaLevel (paranoiaLevel s - d * Fin 0.5)%js s) w
    else if continuousForwardTime p <? 3.0 then
      upd_sys (fun s => set_paranoiaLevel (paranoiaLevel s - d * Fin 0.5)%js s) w
    else w
  else w.

(** [this.paranoiaLevel = Math.max(0, Math.min(this.paranoiaLevel, this.maxParanoia))]. *)
Definition clampLevel (w : World) : World :=
  upd_sys (fun s =>
    set_paranoiaLevel (max (Fin 0) (min (paranoiaLevel s) (Fin maxParanoia))) s) w.

(** [monitorParanoia], the status tier. *)
Definition reportStatus (w : World) : World :=
  let level := paranoiaLevel (sys w) in
  if (level <? Fin 20)%js then updateStatus "STABLE" "status-ok" w
  else if (level <? Fin 40)%js then updateStatus "UNSETTLED" "status-ok" w
  else if (level <? Fin 60)%js then updateStatus "AGITATED" "status-warn" w
  else if (level <? Fin 80)%js then updateStatus "HYSTERIA" "status-warn" w
  else updateStatus "PSYCHOSIS" "status-err" w.

(** [Math.floor(t) % 5 === 0 && Math.floor(t) !== this._lastLogTime]. *)
Definition holdLogDue (t : num) (lastLog : option Z) : bool :=
  match floor t with
  | Some z =>
      Z.eqb (Z.rem z 5) 0 &&
      negb (match lastLog with Some z' => Z.eqb z z' | None => false end)
  | None => false
  end.

(** [monitorParanoia], last part: the delayed endgame trigger. *)
Definition endgameHold (delta : value) (w : World) : World :=
  let d := ToNumber delta in
  if (paranoiaLevel (sys w) >=? Fin 99)%js then
    let w :=
      match maxParanoiaTimer (sys w) with
      | None => upd_sys (set_maxParanoiaTimer (Some (Fin 0))) w
      | Some _ => w
      end in
    let timer :=
      match maxParanoiaTimer (sys w) with
      | Some t => (t + d)%js
      | None => NaN
      end in
    let w := upd_sys (set_maxParanoiaTimer (Some timer)) w in
    let w :=
      if holdLogDue timer (_lastLogTime (sys w)) then
        let w := upd_sys (set__lastLogTime (floor timer)) w in
        log (SysPsychosisHold timer) w
      else w in
    if (timer >? Fin 20.0)%js && negb (endgameTriggered (sys w)) then
      (* force reset events *)
      let w := upd_sys (upd_blackout (set_boActive false)) w in
      let w := upd_env (set_forceBlackout false) w in
      let w := upd_sys (upd_cameraInversion (set_ciActive false)) w in
      let w := upd_sys (set_endgameTriggered true) w in
      let w := log SysPsychosisBreak w in
      enterEndgame w
    else w
  else
    match maxParanoiaTimer (sys w) with
    | Some t =>
        if (t >? Fin 0)%js then
          upd_sys (set_maxParanoiaTimer (Some (t - d * Fin 0.5)%js)) w
        else w
    | None => w
    end.

Definition monitorParanoia (delta : value) (w : World) : World :=
  let w := accrue delta w in
  let w := clampLevel w in
  let w := reportStatus w in
  endgameHold delta w.

(** The message pools. *)
Inductive PoolName :=
| stationary | lookBack | continuousMove | zoneReentry | highParanoia | contradiction.

Definition messagePools (name : PoolName) : list string :=
  match name with
  | stationary =>
      ["WHY HAVE YOU STOPPED?"; "CONTINUE MOVING"; "CAN YOU HEAR IT?";
       "YOU ARE BEING WATCHED"]
  | lookBack =>
      ["THERE IS NOTHING BEHIND YOU"; "LOOKING BACK IS UNNECESSARY";
       "WHY DO YOU KEEP CHECKING?"; "DON'T LOOK BACK"; "YOU SEEM NERVOUS"]
  | continuousMove =>
      ["KEEP WALKING"; "CONTINUE MOVING"; "DO NOT STOP";
       "YOU ARE MAKING PROGRESS"; "THE CORRIDOR CONTINUES"]
  | zoneReentry =>
      ["THIS PLACE REMEMBERS YOU"; "HAVE YOU BEEN HERE BEFORE?";
       "YOU CANNOT GO BACK"]
  | highParanoia =>
      ["THEY KNOW YOU KNOW"; "DONT TURN AROUND"; "IT IS GETTING CLOSER"; "RUN"]
  | contradiction =>
      ["IT WAS A LIE"; "THAT WAS FALSE"]
  end%string.

Definition includes (msg : string) (a : list string) : bool :=
  existsb (String.eqb msg) a.

Definition logMessage (text : string) (pFactor : num) (w : World) : World :=
  let entry := mkEntry text (pFactor >? Fin 0.5)%js (pFactor >? Fin 0.8)%js in
  set_overlay (entry :: overlay w) w.

(** [for (let i = 0; i < 3; i++)] of [triggerMessage]: [n] tries are left and
    [msg] is the last pick. *)
Fixpoint pickMessage (n : nat) (pool : list string) (msg : string) (w : World)
    : string * World :=
  match n with
  | O => (msg, w)
  | S n' =>
      let (r, w) := Math_random w in
      let idx := Z.to_nat (Qfloor (r * inject_Z (Z.of_nat (List.length pool)))) in
      let msg := nth idx pool EmptyString in
      if negb (includes msg (recentMessages (sys w))) then (msg, w)
      else pickMessage n' pool msg w
  end.

Definition triggerMessage (time : Q) (poolName : PoolName) (pFactor : num)
    (w : World) : World :=
  let w := upd_sys (set_lastMessageTime time) w in
  (* chance of contradiction scales with paranoia *)
  let (r, w) := Math_random w in
  let poolName :=
    if (Fin r <? Fin 0.01 + pFactor * Fin 0.2)%js then contradiction else poolName in
  let pool := messagePools poolName in
  let (msg, w) := pickMessage 3 pool EmptyString w in
  (* update queue *)
  let w := upd_sys (fun s => set_recentMessages (recentMessages s ++ [msg]) s) w in
  let w :=
    if Nat.ltb 5 (List.length (recentMessages (sys w))) then
      upd_sys (fun s => set_recentMessages (tl (recentMessages s)) s) w
    else w in
  logMessage msg pFactor w.

(** [Math.max(8.0, this.baseMessageCooldown - (pFactor * 7.0))]. *)
Definition currentCooldown (pFactor : num) : num :=
  max (Fin 8.0) (Fin baseMessageCooldown - pFactor * Fin 7.0)%js.

Definition includesZ (z : Z) (a : list Z) : bool := existsb (Z.eqb z) a.

Definition checkMessaging (time : Q) (pFactor : num) (w : World) : World :=
  if endgameTriggered (sys w) then w else
  if (Fin (time - lastMessageTime (sys w)) <? currentCooldown pFactor)%js then w else
  let p := metrics (player w) in
  (* high paranoia overlay *)
  let (hit, w) := andRandomLt (pFactor >? Fin 0.7)%js (Fin 0.4) w in
  let selectedPool := if hit then Some highParanoia else None in
  (* standard strict triggers *)
  let (selectedPool, w) :=
    match selectedPool with
    | Some _ => (selectedPool, w)
    | None =>
        (* 1. re-visiting zones *)
        let (selectedPool, w) :=
          if Nat.ltb 15 (List.length (zoneHistory p)) then
            let currentZone := last (zoneHistory p) 0%Z in
            let oldHistory :=
              firstn (List.length (zoneHistory p) - 10) (zoneHistory p) in
            let (hit, w) := andRandomLt (includesZ currentZone oldHistory) (Fin 0.1) w in
            (if hit then Some zoneReentry else selectedPool, w)
          else (selectedPool, w) in
        (* 2. look back *)
        let (hit, w) :=
          andRandomLt (match selectedPool with None => true | Some _ => false end
                       && isLookingBack p) (Fin 0.3) w in
        let selectedPool := if hit then Some lookBack else selectedPool in
        (* 3. stationary *)
        let (hit, w) :=
          andRandomLt (match selectedPool with None => true | Some _ => false end
                       && isStationary p && (5.0 <? stationaryTime p)) (Fin 0.2) w in
        let selectedPool := if hit then Some stationary else selectedPool in
        (* 4. continuous flow *)
        let (hit, w) :=
          andRandomLt (match selectedPool with None => true | Some _ => false end
                       && (15.0 <? continuousForwardTime p)) (Fin 0.2) w in
        let selectedPool := if hit then Some continuousMove else selectedPool in
        (selectedPool, w)
    end in
  match selectedPool with
  | Some pool => triggerMessage time pool pFactor w
  | None => w
  end.

Definition updateClock (delta : value) (w : World) : World :=
  upd_sys (fun s => set_survivalTime (survivalTime s + ToNumber delta)%js s) w.

(** [handleRandomEvents]; the roll angle written to the camera while the
    inversion is active is not part of the model. *)
Definition handleRandomEvents (time : Q) (delta : value) (pFactor : num)
    (w : World) : World :=
  if endgameTriggered (sys w) then w else
  if (pFactor <? Fin 0.1)%js then w else
  let d := ToNumber delta in
  (* 1. blackout event *)
  if boActive (blackout (sys w)) then
    let w := upd_sys (upd_blackout (fun b => set_boTimer (boTimer b + d)%js b)) w in
    let w := upd_env (set_forceBlackout true) w in
    let w :=
      if (boTimer (blackout (sys w)) <? Fin 0.1)%js then showMirage (posZ (player w)) w
      else if (boTimer (blackout (sys w)) >? Fin 0.8)%js then hideMirage w
      else w in
    let w := updateMirageEffect w in
    if (boTimer (blackout (sys w)) >? Fin (boDuration (blackout (sys w))))%js then
      let w := upd_sys (upd_blackout (set_boActive false)) w in
      let w := upd_env (set_forceBlackout false) w in
      hideMirage w
    else w
  else
    let w :=
      if (pFactor >? Fin 0.95)%js then
        let (r, w) := Math_random w in
        if r <? 0.00025 then
          let w := upd_sys (upd_blackout (set_boActive true)) w in
          upd_sys (upd_blackout (set_boTimer (Fin 0))) w
        else w
      else w in
    (* 2. light flickering *)
    let flickerChance := ((Fin 0.0005 + pFactor * Fin 0.05) * Fin 0.5)%js in
    let (r, w) := Math_random w in
    let w := if (Fin r <? flickerChance)%js then flickerLights w else w in
    (* 3. camera twist *)
    if (pFactor >? Fin 0.95)%js then
      if ciActive (cameraInversion (sys w)) then
        let w := upd_sys (upd_cameraInversion (fun c => set_ciTimer (ciTimer c + d)%js c)) w in
        if (ciTimer (cameraInversion (sys w)) >? ciDuration (cameraInversion (sys w)))%js then
          upd_sys (upd_cameraInversion (set_ciActive false)) w
        else w
      else
        let invertChance := (Fin 0.0001 + pFactor * Fin 0.002)%js in
        let (r, w) := Math_random w in
        if (Fin r <? invertChance)%js then
          let w := upd_sys (upd_cameraInversion (set_ciActive true)) w in
          let w := upd_sys (upd_cameraInversion (set_ciTimer (Fin 0))) w in
          let (r, w) := Math_random w in
          let w := upd_sys (upd_cameraInversion
                     (set_ciDirection (Some (if r <? 0.5 then 1%Z else (-1)%Z)))) w in
          let (r, w) := Math_random w in
          if (pFactor <? Fin 0.5)%js then
            upd_sys (upd_cameraInversion (set_ciDuration (Fin (1.0 + r * 2.0)))) w
          else
            upd_sys (upd_cameraInversion
              (set_ciDuration (Fin 0.2 + Fin r * (pFactor * Fin 4.0))%js)) w
        else w
    else w.

(** [FacilitySystem.update]. *)
Definition update (time : Q) (delta : value) (w : World) : World :=
  let w := monitorParanoia delta w in
  let pFactor := getParanoiaFactor w in
  (* drive environmental drift; the increase needs a factor above one half,
     which a NaN factor never is *)
  let driftIntensity :=
    match pFactor with
    | Fin f => if 0.5 <? f then (f - 0.5) * 2.0 else 0
    | NaN => 0
    end in
  let w := setDriftIntensity driftIntensity w in
  let w := checkMessaging time pFactor w in
  handleRandomEvents time delta pFactor w.

End FacilitySystem.

Import FacilitySystem.

(** ** GameClient *)

Module GameClient.

Definition enterCorridor (w : World) : World :=
  match currentZone w with
  | CORRIDOR => w
  | INTRO =>
      let w := log MainZoneCorridor w in
      let w := set_currentZone CORRIDOR w in
      let w := destroyIntroRoom w in
      (* 1. generate corridor *)
      let w := createInitialCorridor w in
      (* 4. initial paranoia *)
      upd_sys (set_paranoia (Some (Fin 0))) w
  end.

Definition triggerJumpscare (w : World) : World :=
  if jumpscareActive w then w else
  let w := set_jumpscareActive true w in
  log MainEasterEgg w.

(** What one frame takes from outside: the clock and the player after
    [player.update] (input, physics and ray casting are not modelled). *)
Record Frame := mkFrame {
  frDelta : value;
  frTime : Q;
  frPlayer : Player
}.

(** [animate], first part: the zone logic.  The flicker of the intro room
    light and its wall clock ([updateIntroTick]) are not modelled. *)
Definition zoneLogic (f : Frame) (w : World) : World :=
  let delta := frDelta f in
  let time := frTime f in
  match currentZone w with
  | INTRO =>
      (* trigger: walk out *)
      if posZ (player w) <? 1.0 then enterCorridor w else w
  | CORRIDOR =>
      let w := FacilitySystem.update time delta w in
      let w := updateClock delta w in
      let w := FacilityGenerator.update (posZ (player w)) delta w in
      (* easter egg: back into the nothingness *)
      if 25.0 <? posZ (player w) then triggerJumpscare w else w
  end.

(** [animate], second part, common to both zones: [player.update] (whose
    outcome the frame supplies), the clock, and the game loop. *)
Definition frameTail (f : Frame) (w : World) : World :=
  let delta := frDelta f in
  let w := set_player (frPlayer f) w in
  let w := updateClock delta w in
  let w := FacilityGenerator.update (posZ (player w)) delta w in
  updateLights delta w.

(** One call of [animate]. *)
Definition animate (f : Frame) (w : World) : World :=
  frameTail f (zoneLogic f w).

End GameClient.

Import GameClient.

(** A sequence of frames. *)
Definition run (fs : list Frame) (w : World) : World :=
  fold_left (fun w f => animate f w) fs w.

(** The state after the constructors and [startIntro]: object 0 is the
    ambient light, 1 the mirage sprite, 2 the intro room, 3 and 4 its frame
    and portrait. *)
Definition initGenerator : Generator :=
  mkGenerator [0%nat; 1%nat; 2%nat] true [] [] [3%nat; 4%nat] [] 0 false
    (mkDrift 0 0 0 0) (mkMirage true 0 0 0 3) (Some 2%nat)
    false false None None None None 5%nat.

Definition initSystem : System :=
  mkSystem (Fin 0) None 0
    (mkCameraInversion false (Fin 0) (Fin 0.5) None)
    (mkBlackout false (Fin 0) 5.0)
    (Fin 0) [] None None false EmptyString EmptyString.

Definition initMetrics : Metrics := mkMetrics false false 0 0 [].

Definition initWorld (oracle : nat -> Q) : World :=
  mkWorld initSystem initGenerator (mkPlayer 5 initMetrics) INTRO false [] []
    oracle 0.

(** States that the game loop reaches. *)
Definition reachable (w : World) : Prop :=
  exists oracle fs, w = run fs (initWorld oracle).

(** ** Player: collisions and zone tracking

    The two collision blocks of [Player.updateMovement] and the zone tracker
    of [Player.updateMetrics] ([player.js]), as functions of the position
    and velocity that the movement code has produced.  Input handling, the
    camera and the fall into the void are not modelled. *)

Module PlayerCollisions.

(** [controls.getObject().position] and [this.velocity], without [y]. *)
Record Body := mkBody {
  bodyX : Q;
  bodyZ : Q;
  velX : Q;
  velZ : Q
}.

Definition set_bodyX v (b : Body) : Body := mkBody v (bodyZ b) (velX b) (velZ b).
Definition set_bodyZ v (b : Body) : Body := mkBody (bodyX b) v (velX b) (velZ b).
Definition set_velX v (b : Body) : Body := mkBody (bodyX b) (bodyZ b) v (velZ b).
Definition set_velZ v (b : Body) : Body := mkBody (bodyX b) (bodyZ b) (velX b) v.

(** The block [INTRO ROOM COLLISION] of [updateMovement]. *)
Definition introRoomCollision (b : Body) : Body :=
  let b := if 5.8 <? bodyZ b then set_bodyZ 5.8 b else b in
  let b := if 1.8 <? bodyX b then set_bodyX 1.8 b else b in
  let b := if bodyX b <? -1.8 then set_bodyX (-1.8) b else b in
  if bodyZ b <? 2.2 then
    if 0.6 <? Qabs (bodyX b) then set_bodyZ 2.2 b else b
  else b.

(** The body of the loop over [this.pillarPositions]; every entry is an
    object, so the test [!pillar] never skips one. *)
Definition pillarCollision (pillar : Pillar) (b : Body) : Body :=
  let dx := Qabs (bodyX b - px pillar) in
  let dz := Qabs (bodyZ b - pz pillar) in
  let overlapX := 1.05 - dx in
  let overlapZ := 1.3 - dz in
  if (0 <? overlapX) && (0 <? overlapZ) then
    if overlapX <? overlapZ then
      let b :=
        set_bodyX (bodyX b + (if bodyX b <? px pillar then - overlapX else overlapX)) b in
      set_velX 0 b
    else
      let b :=
        set_bodyZ (bodyZ b + (if bodyZ b <? pz pillar then - overlapZ else overlapZ)) b in
      set_velZ 0 b
  else b.

(** The block [5. COLLISIONS (Walking)] of [updateMovement], for a player
    who is not falling. *)
Definition walkingCollisions (isIntro : bool) (pillarPositions : list Pillar)
    (b : Body) : Body :=
  let xLimit := if isIntro then 1.8 else 2.5 in
  let b := if xLimit <? bodyX b then set_velX 0 (set_bodyX xLimit b) else b in
  let b := if bodyX b <? - xLimit then set_velX 0 (set_bodyX (- xLimit) b) else b in
  fold_left (fun b pillar => pillarCollision pillar b) pillarPositions b.

(** The block [3. Zone Tracking] of [updateMetrics]: [t] is
    [this._lastZoneCheck], read as 0 before its first use, and
    [Math.round(x)] is [floor(x + 0.5)]. *)
Definition zoneTracking (delta z : Q) (t : Q) (zoneHistory : list Z) : Q * list Z :=
  let t := t + delta in
  if 1.0 <? t then
    let zZone := (Qfloor (z / 5 + 0.5) * 5)%Z in
    let zoneHistory := zoneHistory ++ [zZone] in
    let zoneHistory :=
      if Nat.ltb 20 (List.length zoneHistory) then tl zoneHistory else zoneHistory in
    (0, zoneHistory)
  else (t, zoneHistory).

End PlayerCollisions.

Import PlayerCollisions.

(** ** The clock display

    The numbers that [FacilitySystem.updateClock] writes to the clock
    element as [hh:mm:ss], computed from [survivalTime]; the padding to two
    digits is not modelled, and [None] stands for the text of a [NaN]
    time.  [a % b] is the remainder that takes the sign of [a]. *)
Definition clockFields (survivalTime : num) : option (Z * Z * Z) :=
  match floor survivalTime with
  | Some totalSeconds =>
      let safeSeconds := Z.min totalSeconds 359999 in
      let hrs := (safeSeconds / 3600)%Z in
      let mins := (Z.rem safeSeconds 3600 / 60)%Z in
      let secs := Z.rem safeSeconds 60 in
      Some (hrs, mins, secs)
  | None => None
  end.

(** * Vocabulary of the properties

    Observations of a state, relations between the states before and after
    a step, and the concrete states and frames used as examples. *)

(** The change of the level in one update, in the words of the
    specification: 20 dt while looking back, 1 dt more after 3 s of forward
    running, and a decay of 0.5 dt, only when not looking back, whenever the
    player is stationary or has run forward for under 3 s. *)
Definition paranoiaChange (p : Metrics) (dt : Q) : Q :=
  (if isLookingBack p then 20 * dt else 0)
  + (if 3 <? continuousForwardTime p then 1 * dt else 0)
  - (if negb (isLookingBack p) &&
        (isStationary p || (continuousForwardTime p <? 3))
     then 0.5 * dt else 0).

Definition lookingBackPlayer : Player :=
  mkPlayer 0 (mkMetrics true false 0 4 []).

Definition isBreak (e : LogEntry) : bool :=
  match e with
  | SysPsychosisBreak => true
  | _ => false
  end.

(** How often the terminal transition has fired, read off the console. *)
Definition firings (w : World) : nat :=
  List.length (filter isBreak (console w)).

(** [quiet w w']: the step from [w] to [w'] touched neither the system, nor
    the drift, nor the zone, nor the oracle, showed no message and did not
    fire. *)
Definition quiet (w w' : World) : Prop :=
  sys w' = sys w /\
  drift (env w') = drift (env w) /\
  firings w' = firings w /\
  currentZone w' = currentZone w /\
  rnd w' = rnd w /\
  overlay w' = overlay w.

(** [calm w w']: the system, the zone and the oracle are untouched and nothing
    fired; the drift may have moved. *)
Definition calm (w w' : World) : Prop :=
  sys w' = sys w /\
  firings w' = firings w /\
  currentZone w' = currentZone w /\
  rnd w' = rnd w /\
  overlay w' = overlay w.

(** The [i]-th draw that [Math.random] will return from [w] on. *)
Definition draw (w : World) (i : nat) : Q := frac (rnd w (rndPos w + i)).

(** The drift after the clamped random walk step of one chunk. *)
Definition driftStep (w : World) : Drift :=
  let d := drift (env w) in
  mkDrift (S (loopCount d))
    (clamp (heightOffset d + (draw w 0 - 0.5) * 0.1) (-1.0) 1.5)
    (clamp (lightDimming d + (draw w 1 - 0.3) * 0.1) (-0.5) 0.8)
    (clamp (pillarOffset d + (draw w 2 - 0.5) * 0.2) (-1.0) 1.0).

(** The clamp ranges of the three drift fields. *)
Definition driftInRange (d : Drift) : Prop :=
  -1.0 <= heightOffset d <= 1.5 /\
  -0.5 <= lightDimming d <= 0.8 /\
  -1.0 <= pillarOffset d <= 1.0.

(** [steady w w']: the drift, the level, the hold timer, the latch, the zone
    and the oracle are untouched and nothing fired. *)
Definition steady (w w' : World) : Prop :=
  drift (env w') = drift (env w) /\
  firings w' = firings w /\
  endgameTriggered (sys w') = endgameTriggered (sys w) /\
  paranoiaLevel (sys w') = paranoiaLevel (sys w) /\
  maxParanoiaTimer (sys w') = maxParanoiaTimer (sys w) /\
  currentZone w' = currentZone w /\
  rnd w' = rnd w.

(** Messages put on the overlay so far. *)
Definition shown (w : World) : nat := List.length (overlay w).

Definition lookingBackWorld : World :=
  set_player (mkPlayer 0 (mkMetrics true false 0 0 []))
    (set_currentZone CORRIDOR (initWorld (fun _ => 0))).

(** The hold timer, read as 0 before its first use. *)
Definition holdTimer (w : World) : num :=
  match maxParanoiaTimer (sys w) with
  | Some t => t
  | None => Fin 0
  end.

(** The test that guards the terminal transition in [endgameHold]. *)
Definition fires (delta : value) (w : World) : bool :=
  (paranoiaLevel (sys w) >=? Fin 99)%js &&
  (holdTimer w + ToNumber delta >? Fin 20.0)%js &&
  negb (endgameTriggered (sys w)).

(** The estimator is at its maximum: the factor is at least 0.99. *)
Definition atMax (w : World) : bool := (getParanoiaFactor w >=? Fin 0.99)%js.

(** The intensity that [FacilitySystem.update] hands to [setDriftIntensity]. *)
Definition driftIntensityOf (pFactor : num) : Q :=
  match pFactor with
  | Fin f => if 0.5 <? f then (f - 0.5) * 2.0 else 0
  | NaN => 0
  end.

(** [mild w w']: a step that neither runs the estimator nor fires; the drift
    is either untouched or fresh from the clamp of a new chunk. *)
Definition mild (w w' : World) : Prop :=
  endgameTriggered (sys w') = endgameTriggered (sys w) /\
  firings w' = firings w /\
  paranoiaLevel (sys w') = paranoiaLevel (sys w) /\
  rnd w' = rnd w /\
  (drift (env w') = drift (env w) \/ driftInRange (drift (env w'))).

(** The drift ranges that hold in every state of the game loop. *)
Definition driftBounds (d : Drift) : Prop :=
  -1.0 <= heightOffset d <= 1.5 /\
  -0.5 <= lightDimming d <= 0.8 /\
  -1.0 <= pillarOffset d <= 1.5.

(** [walked n d d']: the drift [d'] comes from [d] by [n] steps of the
    random walk of [generateCorridorChunk]: the loop count has grown by [n],
    [heightOffset] has moved by at most [0.05 n] and [lightDimming] by
    between [-0.03 n] and [0.07 n], and both are in their clamp ranges. *)
Definition walked (n : nat) (d d' : Drift) : Prop :=
  loopCount d' = (loopCount d + n)%nat /\
  - (0.05 * inject_Z (Z.of_nat n)) <= heightOffset d' - heightOffset d
    <= 0.05 * inject_Z (Z.of_nat n) /\
  - (0.03 * inject_Z (Z.of_nat n)) <= lightDimming d' - lightDimming d
    <= 0.07 * inject_Z (Z.of_nat n) /\
  -1.0 <= heightOffset d' <= 1.5 /\
  -0.5 <= lightDimming d' <= 0.8.

Definition holdWorld : World :=
  upd_sys (fun s => set_maxParanoiaTimer (Some (Fin 19.5))
                      (set_paranoiaLevel (Fin 100) s)) lookingBackWorld.

Definition bleedWorld : World :=
  set_player (mkPlayer 0 (mkMetrics false true 4 0 []))
    (upd_sys (fun s => set_maxParanoiaTimer (Some (Fin 10))
                         (set_paranoiaLevel (Fin 50) s)) lookingBackWorld).

Definition idleFrame : Frame :=
  mkFrame (Number (Fin 1)) 30 (mkPlayer 0 (mkMetrics false true 4 0 [])).

(** A player who walks out of the intro room and then keeps spinning on the
    spot, one second per frame. *)
Definition spinFrame : Frame :=
  mkFrame (Number (Fin 1)) 0 (mkPlayer 0.9 (mkMetrics true false 0 0 [])).

Definition spinWorld : World :=
  run (repeat spinFrame 8) (initWorld (fun _ => 1 # 2)).

Definition nanFrame : Frame :=
  mkFrame (Number NaN) 1 (mkPlayer 0 (mkMetrics true false 0 0 [])).

Definition darkWorld : World := upd_env (set_forceBlackout true) spinWorld.

(** A chunk that [cleanupChunks] keeps. *)
Definition kept (thr : Q) (c : Chunk) : bool := negb (thr <? cz c).

(** The jitter that [createPillar] adds to a coordinate: a draw of the
    oracle, centred, times the pillar offset. *)
Definition jitter (oracle : nat -> Q) (i : nat) (off : Q) : Q :=
  (frac (oracle i) - 0.5) * off.

(** Two pillars of one pair: both sit on the same multiple of 8 between
    [lo] and [hi], up to their own jitter. *)
Definition onGrid (oracle : nat -> Q) (off lo hi : Q) (p1 p2 : Pillar) : Prop :=
  exists (k : Z) (i j : nat),
    lo <= 8 * inject_Z k < hi /\
    pz p1 == 8 * inject_Z k + jitter oracle i off /\
    pz p2 == 8 * inject_Z k + jitter oracle j off.

Inductive pairsOnGrid (oracle : nat -> Q) (off lo hi : Q) : list Pillar -> Prop :=
| pairs_nil : pairsOnGrid oracle off lo hi []
| pairs_cons p1 p2 ps :
    onGrid oracle off lo hi p1 p2 ->
    pairsOnGrid oracle off lo hi ps ->
    pairsOnGrid oracle off lo hi (p1 :: p2 :: ps).


(** A frame whose clock delta is a number. *)
Definition finiteFrame (f : Frame) : Prop :=
  exists d : Q, frDelta f = Number (Fin d).

Definition runningPlayer : Player :=
  mkPlayer 0 (mkMetrics false false 0 5 []).

(** The chunks that [cleanupChunks] removes when called with [playerZ]. *)
Definition evicted (playerZ : Q) (cs : list Chunk) : list Chunk :=
  filter (fun c => playerZ + 40 <? cz c) cs.

(** A pillar position that survives the removal of chunk [c]. *)
Definition clearOf (p : Pillar) (c : Chunk) : bool := pz p <? cz c + 20.

(** What a flicker can do to a light that it hits: the multiplier is 0, and
    the light and its mesh go dark, or it is between 0.1 and 1.2, and the
    mesh glows in proportion. *)
Definition flickerHit (l l' : Light) : Prop :=
  exists mult : Q,
    intensity l' = Fin (originalIntensity l * mult) /\
    ((mult == 0 /\
      match lmesh l, lmesh l' with
      | Some m, Some m' =>
          mid m' = mid m /\ mvisible m' = false /\ emissiveIntensity m' = Fin 0
      | None, None => True
      | _, _ => False
      end) \/
     (0.1 <= mult < 1.2 /\
      match lmesh l, lmesh l' with
      | Some m, Some m' =>
          mid m' = mid m /\ mvisible m' = true /\
          emissiveIntensity m' = Fin (2.0 * mult)
      | None, None => True
      | _, _ => False
      end)).

(** A light before and after [flickerLights]. *)
Definition flickered (l l' : Light) : Prop :=
  lid l' = lid l /\
  lparent l' = lparent l /\
  lvisible l' = lvisible l /\
  originalIntensity l' = originalIntensity l /\
  (l' = l \/ flickerHit l l').

(** A light before and after [updateLights] under a forced blackout. *)
Definition blackedOut (l l' : Light) : Prop :=
  lid l' = lid l /\
  lparent l' = lparent l /\
  originalIntensity l' = originalIntensity l /\
  intensity l' = Fin 0 /\
  match lmesh l' with
  | Some m' => mvisible m' = false
  | None => True
  end.

(** A light before and after [updateLights] with a step [dt] and no
    blackout: the intensity moves the fraction [5 dt] of the way to the
    original intensity. *)
Definition restored (dt : Q) (l l' : Light) : Prop :=
  lid l' = lid l /\
  lparent l' = lparent l /\
  originalIntensity l' = originalIntensity l /\
  forall x, intensity l = Fin x ->
    exists x', intensity l' = Fin x' /\
      x' == x + (originalIntensity l - x) * (5 * dt).

(** A light as [createPillar] makes it for the group [parent] under the
    light dimming [dim]. *)
Definition freshLight (parent : ObjId) (dim : Q) (l : Light) : Prop :=
  lparent l = Some parent /\
  lvisible l = true /\
  intensity l = Fin (originalIntensity l) /\
  originalIntensity l = Qmax 0.1 (1.5 - dim) /\
  exists m, lmesh l = Some m /\ mvisible m = true /\
            emissiveIntensity m = Fin 2.0.

(** [sameSite w w']: the frontier, the generation and endgame flags, the
    blackout flag, the intro room and the player are untouched. *)
Definition sameSite (w w' : World) : Prop :=
  zOffset (env w') = zOffset (env w) /\
  stopGeneration (env w') = stopGeneration (env w) /\
  isEndgame (env w') = isEndgame (env w) /\
  forceBlackout (env w') = forceBlackout (env w) /\
  introRoom (env w') = introRoom (env w) /\
  player w' = player w.

(** The chunks that [cleanupChunks] keeps when called with [playerZ]. *)
Definition retained (playerZ : Q) (cs : list Chunk) : list Chunk :=
  filter (fun c => cz c <=? playerZ + 40) cs.

(** [l.parent !== null]. *)
Definition attached (l : Light) : bool :=
  match lparent l with Some _ => true | None => false end.

(** A light fixture across a step: the same light under the same parent,
    with the same original intensity; what it emits may differ. *)
Definition retuned (l l' : Light) : Prop :=
  lid l' = lid l /\
  lparent l' = lparent l /\
  originalIntensity l' = originalIntensity l.

(** What has been built: the chunks, the frontier, the obstacles, the
    objects that can be looked at, and the lights. *)
Definition corridorOf (w : World) :=
  (chunks (env w), zOffset (env w), pillarPositions (env w),
   interactables (env w), lights (env w)).

(** [sameCorridor w w']: the chunks, the frontier, the obstacles and the
    objects that can be looked at are the same, and so are the light
    fixtures. *)
Definition sameCorridor (w w' : World) : Prop :=
  chunks (env w') = chunks (env w) /\
  zOffset (env w') = zOffset (env w) /\
  pillarPositions (env w') = pillarPositions (env w) /\
  interactables (env w') = interactables (env w) /\
  Forall2 retuned (lights (env w)) (lights (env w')).

(** One step of corridor building, as [update] and the second half of
    [createInitialCorridor] do it: a chunk at the frontier, then the frontier
    moves on. *)
Definition advance (w : World) : World :=
  upd_env (fun g => set_zOffset (zOffset g - chunkSize) g)
    (generateCorridorChunk (zOffset (env w)) w).

(** The centre of the [j]-th cell of the lattice of chunks: [-10 - 20 j]. *)
Definition latticeZ (j : nat) : Q :=
  - (chunkSize * inject_Z (Z.of_nat j)) - chunkSize / 2.

(** [latticed hole w]: the frontier is a whole number [k] of chunks from the
    origin, and every chunk is centred on a cell of the lattice behind the
    frontier, and not on the cell [hole], when one is given; that cell is
    then behind the frontier too, and is not the first. *)
Definition latticed (hole : option nat) (w : World) : Prop :=
  exists k : nat,
    zOffset (env w) == - (chunkSize * inject_Z (Z.of_nat k)) /\
    match hole with Some h => (1 <= h < k)%nat | None => True end /\
    Forall (fun c => exists j, (j < k)%nat /\ Some j <> hole /\
                       cz c == latticeZ j)
      (chunks (env w)).


(** The state after one frame in the intro room that ends with the player
    close to the door. *)
Definition doorstepWorld : World := run [spinFrame] (initWorld (fun _ => 1 # 2)).

(** [grown n w]: every light of [w] has a parent, and there are at least
    [n] lights. *)
Definition grown (n : nat) (w : World) : Prop :=
  Forall (fun l => attached l = true) (lights (env w)) /\
  (n <= List.length (lights (env w)))%nat.

(** [forcedDark w]: the generator is told to keep the lights off. *)
Definition forcedDark (w : World) : bool := forceBlackout (env w).

(** [inBlackout w]: a blackout event of the system is running, and the
    endgame has not been triggered. *)
Definition inBlackout (w : World) : bool :=
  boActive (blackout (sys w)) && negb (endgameTriggered (sys w)).

(** The lights are forced dark only during a blackout event. *)
Definition darkInBlackout (w : World) : Prop :=
  forcedDark w = true -> inBlackout w = true.

(** [sameSwitch w w']: the forced blackout, the blackout event and the latch
    are untouched. *)
Definition sameSwitch (w w' : World) : Prop :=
  forcedDark w' = forcedDark w /\ inBlackout w' = inBlackout w.

(** A run that ends in a forced blackout: the oracle always returns 0, so
    the blackout starts as soon as the level is above 95. *)
Definition blackoutWorld : World :=
  run (repeat spinFrame 8) (initWorld (fun _ => 0)).

(** A text of one of the six message pools. *)
Definition poolText (text : string) : Prop :=
  exists name, In text (messagePools name).

(** [said w]: every entry put on the overlay is a pool message, and the
    anti-repetition queue holds at most five. *)
Definition said (w : World) : Prop :=
  Forall (fun e => poolText (entryText e)) (overlay w) /\
  (List.length (recentMessages (sys w)) <= 5)%nat.

(** [sameTalk w w']: the overlay and the anti-repetition queue are
    untouched. *)
Definition sameTalk (w w' : World) : Prop :=
  overlay w' = overlay w /\
  recentMessages (sys w') = recentMessages (sys w).

(** A frame at clock time [t] in which the player keeps looking back. *)
Definition lookBackFrame (t : Q) : Frame :=
  mkFrame (Number (Fin 1)) t (mkPlayer 0.9 (mkMetrics true false 0 0 [])).

(** A run in which two messages are shown. *)
Definition talkingWorld : World :=
  run [lookBackFrame 30; lookBackFrame 60; lookBackFrame 90; lookBackFrame 120]
    (initWorld (fun _ => 0)).

(** A state in which the endgame has just been triggered. *)
Definition latchedWorld : World := monitorParanoia (Number (Fin 1)) holdWorld.

(** A pillar that stands at one of the walls: between 2 and 3 units from
    the centre line. *)
Definition atWall (p : Pillar) : Prop := 2 <= Qabs (px p) <= 3.

(** [flanked w]: every pillar of [w] stands at a wall. *)
Definition flanked (w : World) : Prop := Forall atWall (pillarPositions (env w)).

(** The player is inside the collision box of [p]. *)
Definition inside (p : Pillar) (b : Body) : Prop :=
  Qabs (bodyX b - px p) < 1.05 /\ Qabs (bodyZ b - pz p) < 1.3.

(** Inside the intro room, or in its doorway. *)
Definition inIntroRoom (b : Body) : Prop :=
  bodyZ b <= 5.8 /\
  -1.8 <= bodyX b <= 1.8 /\
  (bodyZ b < 2.2 -> Qabs (bodyX b) <= 0.6).

(** [update] of the generator builds nothing in [w]: one of the two flags
    that it tests is set. *)
Definition halted (w : World) : bool :=
  stopGeneration (env w) || isEndgame (env w).

(** [within w0 w]: [w] is in the corridor with generation halted, at the
    frontier of [w0], and has no chunk and no pillar that [w0] has not. *)
Definition within (w0 w : World) : Prop :=
  currentZone w = CORRIDOR /\
  halted w = true /\
  zOffset (env w) = zOffset (env w0) /\
  incl (chunks (env w)) (chunks (env w0)) /\
  incl (pillarPositions (env w)) (pillarPositions (env w0)).

(** The condition under which [checkMessaging] selects a pool, in terms of
    the factor and the player's metrics; the contradiction pool is never
    selected there. *)
Definition poolFits (pool : PoolName) (pFactor : num) (p : Metrics) : bool :=
  match pool with
  | highParanoia => (pFactor >? Fin 0.7)%js
  | zoneReentry =>
      Nat.ltb 15 (List.length (zoneHistory p)) &&
      includesZ (last (zoneHistory p) 0%Z)
        (firstn (List.length (zoneHistory p) - 10) (zoneHistory p))
  | lookBack => isLookingBack p
  | stationary => isStationary p && (5.0 <? stationaryTime p)
  | continuousMove => 15.0 <? continuousForwardTime p
  | contradiction => false
  end.

(** * Properties *)

(** ** Comparisons and clamping *)

Lemma Qltb_lt x y : (x <? y) = true <-> x < y.
Proof.
  unfold Qltb. rewrite negb_true_iff. split; intros H.
  - apply Qnot_le_lt. intros C. apply Qle_bool_iff in C. congruence.
  - destruct (Qle_bool y x) eqn:E; [|reflexivity].
    apply Qle_bool_iff in E. lra.
Qed.

Lemma Qltb_ge x y : (x <? y) = false <-> y <= x.
Proof.
  unfold Qltb. rewrite negb_false_iff. apply Qle_bool_iff.
Qed.

Lemma Qleb_gt x y : (x <=? y) = false <-> y < x.
Proof.
  split; intros H.
  - apply Qnot_le_lt. intros C. apply Qle_bool_iff in C. congruence.
  - destruct (Qle_bool x y) eqn:E; [|reflexivity].
    apply Qle_bool_iff in E. lra.
Qed.

Lemma Qmax_spec x y : (x <= y /\ Qmax x y = y) \/ (y < x /\ Qmax x y = x).
Proof.
  unfold Qmax. destruct (x <=? y) eqn:E.
  - left. apply Qle_bool_iff in E. auto.
  - right. apply Qleb_gt in E. auto.
Qed.

Lemma Qmin_spec x y : (x <= y /\ Qmin x y = x) \/ (y < x /\ Qmin x y = y).
Proof.
  unfold Qmin. destruct (x <=? y) eqn:E.
  - left. apply Qle_bool_iff in E. auto.
  - right. apply Qleb_gt in E. auto.
Qed.

Lemma clamp_range v lo hi : lo <= hi -> lo <= clamp v lo hi <= hi.
Proof.
  intros H. unfold clamp.
  destruct (Qmin_spec hi v) as [[? ->]|[? ->]].
  - destruct (Qmax_spec lo hi) as [[? ->]|[? ->]]; lra.
  - destruct (Qmax_spec lo v) as [[? ->]|[? ->]]; lra.
Qed.

(** A clamped step from a value in the range is no longer than the step. *)
Lemma clamp_step v s lo hi :
  lo <= v <= hi ->
  (0 <= s -> 0 <= clamp (v + s) lo hi - v <= s) /\
  (s <= 0 -> s <= clamp (v + s) lo hi - v <= 0).
Proof.
  intros H. unfold clamp.
  destruct (Qmin_spec hi (v + s)) as [[? ->]|[? ->]].
  - destruct (Qmax_spec lo hi) as [[? ->]|[? ->]]; split; intros; lra.
  - destruct (Qmax_spec lo (v + s)) as [[? ->]|[? ->]]; split; intros; lra.
Qed.

Lemma clamp_step_between v s a b lo hi :
  lo <= v <= hi -> a <= 0 -> 0 <= b -> a <= s <= b ->
  a <= clamp (v + s) lo hi - v <= b.
Proof.
  intros H Ha Hb Hs. destruct (clamp_step v s lo hi H) as [P N].
  destruct (Qlt_le_dec s 0) as [L|L].
  - assert (s <= 0) as L' by lra. specialize (N L'). lra.
  - specialize (P L). lra.
Qed.

Lemma frac_range q : 0 <= frac q < 1.
Proof.
  unfold frac. pose proof (Qfloor_le q) as H1. pose proof (Qlt_floor q) as H2.
  rewrite inject_Z_plus in H2. change (inject_Z 1) with 1 in H2. lra.
Qed.

(** Turns the boolean tests in the context into (in)equalities. *)
Ltac reflect_tests :=
  repeat match goal with
  | H : (_ <? _) = true |- _ => apply Qltb_lt in H
  | H : (_ <? _) = false |- _ => apply Qltb_ge in H
  | H : (_ <=? _) = true |- _ => apply Qle_bool_iff in H
  | H : (_ <=? _) = false |- _ => apply Qleb_gt in H
  end.

(** ** The paranoia estimator *)

(** Case analysis on the tests of a method body. *)
Ltac break_tests :=
  repeat (simpl;
    match goal with
    | |- context [match ?x with _ => _ end] =>
        lazymatch type of x with
        | bool => destruct x eqn:?
        | option _ => destruct x eqn:?
        | num => destruct x eqn:?
        | Zone => destruct x eqn:?
        | list _ => destruct x eqn:?
        end
    end).

Lemma endgameHold_level delta w :
  paranoiaLevel (sys (endgameHold delta w)) = paranoiaLevel (sys w).
Proof.
  unfold endgameHold, enterEndgame, createDistantSun, fresh.
  break_tests; reflexivity.
Qed.

Lemma reportStatus_level w :
  paranoiaLevel (sys (reportStatus w)) = paranoiaLevel (sys w).
Proof.
  unfold reportStatus. break_tests; reflexivity.
Qed.

Lemma monitorParanoia_level delta w :
  paranoiaLevel (sys (monitorParanoia delta w)) =
  max (Fin 0) (min (paranoiaLevel (sys (accrue delta w))) (Fin maxParanoia)).
Proof.
  unfold monitorParanoia. rewrite endgameHold_level, reportStatus_level.
  reflexivity.
Qed.

Lemma accrue_level w dt l :
  paranoiaLevel (sys w) = Fin l ->
  exists a,
    paranoiaLevel (sys (accrue (Number (Fin dt)) w)) = Fin a /\
    a == l + paranoiaChange (metrics (player w)) dt.
Proof.
  intros Hl. unfold accrue, paranoiaChange.
  destruct (isLookingBack (metrics (player w)));
  destruct (isStationary (metrics (player w)));
  destruct (3.0 <? continuousForwardTime (metrics (player w))) eqn:E1;
  destruct (3 <? continuousForwardTime (metrics (player w))) eqn:E2;
  destruct (continuousForwardTime (metrics (player w)) <? 3.0) eqn:E3;
  destruct (continuousForwardTime (metrics (player w)) <? 3) eqn:E4;
  reflect_tests; try lra;
  simpl; rewrite Hl; simpl; eexists; (split; [reflexivity | lra]).
Qed.

(** C1.  After one paranoia update with a time step [dt >= 0], whatever the
    behaviour metrics, the level lies between 0 and [maxParanoia]. *)
Theorem monitorParanoia_level_in_range (w : World) (dt l : Q) :
  paranoiaLevel (sys w) = Fin l ->
  0 <= dt ->
  exists l',
    paranoiaLevel (sys (monitorParanoia (Number (Fin dt)) w)) = Fin l' /\
    0 <= l' <= maxParanoia.
Proof.
  intros Hl _. rewrite monitorParanoia_level.
  destruct (accrue_level w dt l Hl) as (a & -> & _).
  simpl. eexists. split; [reflexivity|].
  unfold maxParanoia.
  destruct (Qmin_spec a 100) as [[? ->]|[? ->]].
  - destruct (Qmax_spec 0 a) as [[? ->]|[? ->]]; lra.
  - destruct (Qmax_spec 0 100) as [[? ->]|[? ->]]; lra.
Qed.

Lemma monitorParanoia_level_in_range_witness :
  let w := set_player lookingBackPlayer (initWorld (fun _ => 0)) in
  paranoiaLevel (sys w) = Fin 0 /\
  0 <= 7 /\
  exists l',
    paranoiaLevel (sys (monitorParanoia (Number (Fin 7)) w)) = Fin l' /\
    0 <= l' <= maxParanoia.
Proof.
  cbv zeta. split; [reflexivity|]. split; [unfold Qle; simpl; lia|].
  apply (monitorParanoia_level_in_range _ 7 0); [reflexivity|].
  unfold Qle; simpl; lia.
Defined.

(** C3.  In one update the level changes, before the final clamp, by
    [paranoiaChange], and the update stores the clamped result. *)
Theorem monitorParanoia_rates (w : World) (dt l : Q) :
  paranoiaLevel (sys w) = Fin l ->
  exists a,
    paranoiaLevel (sys (accrue (Number (Fin dt)) w)) = Fin a /\
    a == l + paranoiaChange (metrics (player w)) dt /\
    paranoiaLevel (sys (monitorParanoia (Number (Fin dt)) w)) =
      Fin (Qmax 0 (Qmin a maxParanoia)).
Proof.
  intros Hl. destruct (accrue_level w dt l Hl) as (a & Ha & Hc).
  exists a. repeat split; trivial.
  rewrite monitorParanoia_level, Ha. reflexivity.
Qed.

Lemma monitorParanoia_rates_witness :
  let w := set_player lookingBackPlayer (initWorld (fun _ => 0)) in
  paranoiaLevel (sys w) = Fin 0 /\
  exists a,
    paranoiaLevel (sys (accrue (Number (Fin 2)) w)) = Fin a /\
    a == 0 + paranoiaChange (metrics (player w)) 2 /\
    paranoiaLevel (sys (monitorParanoia (Number (Fin 2)) w)) =
      Fin (Qmax 0 (Qmin a maxParanoia)).
Proof.
  cbv zeta. split; [reflexivity|].
  apply (monitorParanoia_rates _ 2 0). reflexivity.
Defined.

(** Looking back for two seconds after four seconds of running forward
    raises the level from 0 to 42. *)
Example monitorParanoia_looking_back :
  exists l,
    paranoiaLevel
      (sys (monitorParanoia (Number (Fin 2))
              (set_player lookingBackPlayer (initWorld (fun _ => 0)))))
    = Fin l /\ l == 42.
Proof. eexists. split; [vm_compute; reflexivity | reflexivity]. Qed.

(** ** What the methods leave alone *)

Lemma quiet_refl w : quiet w w.
Proof. repeat split. Qed.

Lemma quiet_trans w1 w2 w3 : quiet w1 w2 -> quiet w2 w3 -> quiet w1 w3.
Proof.
  unfold quiet. intros (A1 & A2 & A3 & A4 & A5 & A6) (B1 & B2 & B3 & B4 & B5 & B6).
  repeat split; congruence.
Qed.

(** For a method body without loops. *)
Ltac quiet_body := break_tests; repeat split; reflexivity.

Lemma quiet_random w : quiet w (snd (Math_random w)).
Proof. repeat split. Qed.

Lemma quiet_fresh w : quiet w (snd (fresh w)).
Proof. repeat split. Qed.

Lemma quiet_scene_add o w : quiet w (scene_add o w).
Proof. repeat split. Qed.

Lemma quiet_showMirage z w : quiet w (showMirage z w).
Proof. repeat split. Qed.

Lemma quiet_hideMirage w : quiet w (hideMirage w).
Proof. repeat split. Qed.

Lemma quiet_updateMirageEffect w : quiet w (updateMirageEffect w).
Proof. unfold updateMirageEffect, Math_random. quiet_body. Qed.

Lemma quiet_destroyIntroRoom w : quiet w (destroyIntroRoom w).
Proof. unfold destroyIntroRoom. quiet_body. Qed.

Lemma quiet_updateLights delta w : quiet w (updateLights delta w).
Proof. unfold updateLights. quiet_body. Qed.

Lemma quiet_flickerLight l w : quiet w (snd (flickerLight l w)).
Proof. unfold flickerLight, Math_random. quiet_body. Qed.

Lemma quiet_flickerEach ls : forall w, quiet w (snd (flickerEach ls w)).
Proof.
  induction ls as [|l ls IH]; intros w; simpl; [apply quiet_refl|].
  pose proof (quiet_flickerLight l w) as H1.
  destruct (flickerLight l w) as [l' w1]. simpl in H1.
  pose proof (IH w1) as H2.
  destruct (flickerEach ls w1) as [ls' w2]. simpl in *.
  eapply quiet_trans; eassumption.
Qed.

Lemma quiet_flickerLights w : quiet w (flickerLights w).
Proof.
  unfold flickerLights. destruct (forceBlackout (env w)); [apply quiet_refl|].
  pose proof (quiet_flickerEach (lights (env w)) w) as H.
  destruct (flickerEach (lights (env w)) w) as [ls w1]. simpl in H.
  eapply quiet_trans; [exact H|]. repeat split.
Qed.

Lemma quiet_removeChunk c w : quiet w (removeChunk c w).
Proof.
  unfold removeChunk, removeLightsInChunk.
  match goal with
  | |- quiet _ (upd_env _ (fold_left ?f ?l ?w0)) =>
      assert (H : quiet w (fold_left f l w0))
  end.
  - match goal with |- quiet _ (fold_left _ _ ?w0) =>
      assert (H0 : quiet w w0) by (repeat split); revert H0; generalize w0 end.
    induction (cchildren c) as [|o os IH]; intros w0 H0; simpl; [exact H0|].
    apply IH. eapply quiet_trans; [exact H0|]. repeat split.
  - eapply quiet_trans; [exact H|]. repeat split.
Qed.

Lemma quiet_cleanupLoop thr i : forall w, quiet w (cleanupLoop thr i w).
Proof.
  induction i as [|j IH]; intros w; simpl; [apply quiet_refl|].
  destruct (nth_error (chunks (env w)) j) as [c|]; [|apply IH].
  destruct (thr <? cz c); [|apply IH].
  eapply quiet_trans; [apply (quiet_removeChunk c w)|].
  eapply quiet_trans; [|apply IH]. repeat split.
Qed.

Lemma quiet_cleanupChunks z w : quiet w (cleanupChunks z w).
Proof. apply quiet_cleanupLoop. Qed.

Lemma quiet_spawn n : forall w, quiet w (spawn n w).
Proof.
  induction n as [|n IH]; intros w; simpl; [apply quiet_refl|].
  eapply quiet_trans; [|apply IH]. repeat split.
Qed.

Lemma firings_log e w : firings (log e w) = (if isBreak e then S (firings w) else firings w).
Proof. unfold firings, log. simpl. destruct (isBreak e); reflexivity. Qed.

Lemma quiet_log e w : isBreak e = false -> quiet w (log e w).
Proof.
  intros H. repeat split. rewrite firings_log, H. reflexivity.
Qed.

Lemma quiet_upd_env f w :
  drift (f (env w)) = drift (env w) -> quiet w (upd_env f w).
Proof. intros H. repeat split. exact H. Qed.

Lemma quiet_updateEndgame z w : quiet w (updateEndgame z w).
Proof.
  unfold updateEndgame.
  destruct (blackHole (env w)); [apply quiet_refl|].
  destruct (truthy (endgameTargetZ (env w))); [apply quiet_refl|].
  destruct (rev (chunks (env w))) as [|lastChunk ?];
    (eapply quiet_trans; [|apply quiet_log; reflexivity]);
    (eapply quiet_trans; [|apply quiet_spawn]);
    (eapply quiet_trans; [|apply quiet_spawn]);
    (eapply quiet_trans; [|apply quiet_upd_env; reflexivity]);
    (eapply quiet_trans; [|apply quiet_spawn]);
    repeat split.
Qed.

Lemma quiet_createPillar c rw rh z cwz w :
  quiet w (snd (createPillar c rw rh z cwz w)).
Proof. repeat split. Qed.

Lemma quiet_pillarLoop fuel : forall gZ limit spacing c rw rh cwz w c' w',
  pillarLoop fuel gZ limit spacing c rw rh cwz w = Some (c', w') -> quiet w w'.
Proof.
  induction fuel as [|fuel IH]; intros gZ limit spacing c rw rh cwz w c' w' H;
    cbn [pillarLoop] in H; [discriminate|].
  destruct (gZ <? limit).
  - pose proof (quiet_createPillar c rw rh (gZ - cwz) cwz w) as Q1.
    destruct (createPillar c rw rh (gZ - cwz) cwz w) as [c1 w1]. simpl in Q1.
    eapply quiet_trans; [exact Q1|]. eapply IH; eassumption.
  - injection H as _ <-. apply quiet_refl.
Qed.

Lemma quiet_calm w w' : quiet w w' -> calm w w'.
Proof. intros (A1 & A2 & A3 & A4 & A5 & A6). repeat split; assumption. Qed.

Lemma calm_trans w1 w2 w3 : calm w1 w2 -> calm w2 w3 -> calm w1 w3.
Proof.
  unfold calm. intros (A1 & A2 & A3 & A4 & A5) (B1 & B2 & B3 & B4 & B5).
  repeat split; congruence.
Qed.

Lemma calm_upd_env f w : calm w (upd_env f w).
Proof. repeat split. Qed.

Lemma generateCorridorChunk_drift z w :
  calm w (generateCorridorChunk z w) /\
  drift (env (generateCorridorChunk z w)) = driftStep w.
Proof.
  unfold generateCorridorChunk.
  unfold Math_random, fresh. cbv beta iota zeta.
  match goal with |- context [pillarLoop ?a ?b ?c ?d ?e ?f ?g ?h ?i] =>
    pose proof (quiet_pillarLoop a b c d e f g h i) as Q;
    destruct (pillarLoop a b c d e f g h i) as [[c' w']|] end.
  - specialize (Q _ _ eq_refl). destruct Q as (Q1 & Q2 & Q3 & Q4 & Q5 & Q6).
    unfold calm, driftStep, draw. unfold firings in *. simpl in *.
    rewrite Q1, Q2, Q3, Q4, Q5, Q6. rewrite !Nat.add_0_r. repeat split.
    replace (rndPos w + 1)%nat with (S (rndPos w)) by lia.
    replace (rndPos w + 2)%nat with (S (S (rndPos w))) by lia. reflexivity.
  - unfold calm, driftStep, draw, firings. simpl. rewrite !Nat.add_0_r.
    replace (rndPos w + 1)%nat with (S (rndPos w)) by lia.
    replace (rndPos w + 2)%nat with (S (S (rndPos w))) by lia. repeat split.
Qed.

Lemma driftStep_in_range w : driftInRange (driftStep w).
Proof.
  unfold driftInRange, driftStep. simpl.
  repeat split; apply clamp_range; lra.
Qed.

Lemma createInitialCorridor_drift w :
  calm w (createInitialCorridor w) /\
  driftInRange (drift (env (createInitialCorridor w))).
Proof.
  unfold createInitialCorridor.
  destruct (generateCorridorChunk_drift 0 w) as [C1 _].
  set (w1 := upd_env (fun g => set_zOffset (zOffset g - chunkSize) g)
               (generateCorridorChunk 0 w)).
  assert (C2 : calm w w1).
  { eapply calm_trans; [exact C1|]. apply calm_upd_env. }
  destruct (generateCorridorChunk_drift (zOffset (env w1)) w1) as [C3 D3].
  split.
  - eapply calm_trans; [exact C2|]. eapply calm_trans; [exact C3|].
    apply calm_upd_env.
  - change (driftInRange (drift (env (generateCorridorChunk (zOffset (env w1)) w1)))).
    rewrite D3. apply driftStep_in_range.
Qed.

Lemma generatorUpdate_drift z delta w :
  calm w (FacilityGenerator.update z delta w) /\
  (drift (env (FacilityGenerator.update z delta w)) = drift (env w) \/
   driftInRange (drift (env (FacilityGenerator.update z delta w)))).
Proof.
  unfold FacilityGenerator.update.
  pose proof (quiet_updateLights (sanitizeDelta delta) w) as Q0.
  set (w0 := updateLights (sanitizeDelta delta) w) in *.
  destruct (stopGeneration (env w0) || isEndgame (env w0)).
  - assert (Q : quiet w (cleanupChunks z (updateEndgame z w0))).
    { eapply quiet_trans; [exact Q0|].
      eapply quiet_trans; [apply quiet_updateEndgame|apply quiet_cleanupChunks]. }
    split; [apply quiet_calm; exact Q | left; apply Q].
  - destruct (Qabs (z - zOffset (env w0)) <? renderDistance).
    + destruct (generateCorridorChunk_drift (zOffset (env w0)) w0) as [C1 D1].
      set (w1 := generateCorridorChunk (zOffset (env w0)) w0) in *.
      set (w2 := upd_env (fun g => set_zOffset (zOffset g - chunkSize) g) w1).
      pose proof (quiet_cleanupChunks z w2) as Q2.
      split.
      * eapply calm_trans; [apply quiet_calm; exact Q0|].
        eapply calm_trans; [exact C1|].
        eapply calm_trans; [|apply quiet_calm; exact Q2]. apply calm_upd_env.
      * right. destruct Q2 as (_ & -> & _). change (driftInRange (drift (env w1))).
        rewrite D1. apply driftStep_in_range.
    + split; [apply quiet_calm; exact Q0 | left; apply Q0].
Qed.

(** ** The message scheduler *)

Lemma quiet_steady w w' : quiet w w' -> steady w w'.
Proof. intros (A1 & A2 & A3 & A4 & A5 & A6). repeat split; congruence. Qed.

Lemma steady_trans w1 w2 w3 : steady w1 w2 -> steady w2 w3 -> steady w1 w3.
Proof.
  unfold steady. intros (A1 & A2 & A3 & A4 & A5 & A6 & A7) (B1 & B2 & B3 & B4 & B5 & B6 & B7).
  repeat split; congruence.
Qed.

Lemma pickMessage_quiet n pool : forall msg w,
  quiet w (snd (pickMessage n pool msg w)).
Proof.
  induction n as [|n IH]; intros msg w; cbn [pickMessage]; [apply quiet_refl|].
  unfold Math_random. cbv beta iota zeta.
  match goal with |- context [if ?b then _ else _] => destruct b end.
  - repeat split.
  - match goal with |- context [pickMessage n pool ?m ?w0] =>
      pose proof (IH m w0) as Q end.
    eapply quiet_trans; [|exact Q]; repeat split.
Qed.

Lemma triggerMessage_effect time pool f w :
  steady w (triggerMessage time pool f w) /\
  lastMessageTime (sys (triggerMessage time pool f w)) = time /\
  shown (triggerMessage time pool f w) = S (shown w).
Proof.
  unfold triggerMessage, Math_random. cbv beta iota zeta.
  match goal with |- context [pickMessage ?n ?p ?m ?w0] =>
    pose proof (pickMessage_quiet n p m w0) as HQ;
    destruct (pickMessage n p m w0) as [msg w1] end.
  destruct HQ as (Q1 & Q2 & Q3 & Q4 & Q5 & Q6).
  simpl in *. unfold steady, shown, logMessage, firings in *.
  match goal with |- context [if ?b then _ else _] => destruct b end;
  simpl; rewrite ?Q1, ?Q2, ?Q3, ?Q4, ?Q5, ?Q6; simpl; repeat split.
Qed.

Lemma andRandomLt_quiet c p w : quiet w (snd (andRandomLt c p w)).
Proof. unfold andRandomLt. destruct c; repeat split. Qed.

(** Runs the next [andRandomLt] of the goal and names its outcome. *)
Ltac step_random :=
  match goal with
  | |- context [andRandomLt ?c ?p ?w] =>
      let HQ := fresh "HQ" in
      pose proof (andRandomLt_quiet c p w) as HQ;
      destruct (andRandomLt c p w) as [[|] ?]; cbn [snd] in HQ;
      cbv beta iota zeta
  end.

Lemma checkMessaging_cases time f w :
  (checkMessaging time f w = w /\
   (endgameTriggered (sys w) = true \/
    (Fin (time - lastMessageTime (sys w)) <? currentCooldown f)%js = true)) \/
  (endgameTriggered (sys w) = false /\
   (Fin (time - lastMessageTime (sys w)) <? currentCooldown f)%js = false /\
   exists w1, quiet w w1 /\
     (checkMessaging time f w = w1 \/
      exists pool, checkMessaging time f w = triggerMessage time pool f w1)).
Proof.
  unfold checkMessaging.
  destruct (endgameTriggered (sys w)) eqn:E1; [left; auto|].
  destruct (Fin (time - lastMessageTime (sys w)) <? currentCooldown f)%js eqn:E2;
    [left; auto|].
  right. split; [reflexivity|]. split; [reflexivity|].
  step_random.
  - eexists; split; [eassumption | right; eexists; reflexivity].
  - destruct (Nat.ltb 15 (List.length (zoneHistory (metrics (player w))))).
    + repeat step_random;
      (eexists; split;
       [repeat (eapply quiet_trans; [eassumption|]); apply quiet_refl
       | first [left; reflexivity | right; eexists; reflexivity]]).
    + repeat step_random;
      (eexists; split;
       [repeat (eapply quiet_trans; [eassumption|]); apply quiet_refl
       | first [left; reflexivity | right; eexists; reflexivity]]).
Qed.

Lemma steady_refl w : steady w w.
Proof. repeat split. Qed.

Lemma checkMessaging_steady time f w : steady w (checkMessaging time f w).
Proof.
  destruct (checkMessaging_cases time f w)
    as [[-> _] | (_ & _ & w1 & HQ & [-> | [pool ->]])].
  - apply steady_refl.
  - apply quiet_steady, HQ.
  - eapply steady_trans; [apply quiet_steady, HQ | apply triggerMessage_effect].
Qed.

Lemma checkMessaging_shown time f w :
  (shown (checkMessaging time f w) <= S (shown w))%nat.
Proof.
  destruct (checkMessaging_cases time f w)
    as [[-> _] | (_ & _ & w1 & HQ & [-> | [pool ->]])].
  - lia.
  - unfold shown. destruct HQ as (_ & _ & _ & _ & _ & ->). lia.
  - destruct (triggerMessage_effect time pool f w1) as (_ & _ & ->).
    unfold shown. destruct HQ as (_ & _ & _ & _ & _ & ->). lia.
Qed.

Lemma Qmax_compat a b a' b' : a == a' -> b == b' -> Qmax a b == Qmax a' b'.
Proof.
  intros Ha Hb.
  destruct (Qmax_spec a b) as [[? ->]|[? ->]];
  destruct (Qmax_spec a' b') as [[? ->]|[? ->]]; lra.
Qed.

(** C7.  The message cooldown is [max(8, 15 - 7 factor)] seconds, and two
    calls of [checkMessaging] whose times are less than the cooldown of the
    later call apart show at most one message between them.  Between the
    calls the world may change in any way that shows no message. *)
Theorem message_cooldown (f : Q) :
  (exists c, currentCooldown (Fin f) = Fin c /\ c == Qmax 8 (15 - f * 7)) /\
  forall (w w1' : World) (t1 t2 : Q) (f1 : num),
    lastMessageTime (sys w1') = lastMessageTime (sys (checkMessaging t1 f1 w)) ->
    overlay w1' = overlay (checkMessaging t1 f1 w) ->
    t2 - t1 < Qmax 8 (15 - f * 7) ->
    (shown (checkMessaging t2 (Fin f) w1') <= S (shown w))%nat.
Proof.
  assert (Hc : currentCooldown (Fin f) = Fin (Qmax 8.0 (baseMessageCooldown - f * 7.0)))
    by reflexivity.
  assert (He : Qmax 8.0 (baseMessageCooldown - f * 7.0) == Qmax 8 (15 - f * 7)).
  { apply Qmax_compat; unfold baseMessageCooldown; lra. }
  split; [eexists; split; [exact Hc | exact He]|].
  intros w w1' t1 t2 f1 Hlast Hov Hlt.
  destruct (checkMessaging_cases t1 f1 w)
    as [[E _] | (_ & _ & w1 & HQ & [E | [pool E]])]; rewrite E in *.
  - pose proof (checkMessaging_shown t2 (Fin f) w1') as H.
    unfold shown in *. rewrite Hov in H. exact H.
  - pose proof (checkMessaging_shown t2 (Fin f) w1') as H.
    unfold shown in *. rewrite Hov in H.
    destruct HQ as (_ & _ & _ & _ & _ & Ho). rewrite Ho in H. exact H.
  - destruct (triggerMessage_effect t1 pool f1 w1) as (_ & Ht & Hs).
    rewrite Ht in Hlast.
    assert (Hw : shown w1' = S (shown w)).
    { unfold shown in *. rewrite Hov, Hs.
      destruct HQ as (_ & _ & _ & _ & _ & ->). reflexivity. }
    destruct (checkMessaging_cases t2 (Fin f) w1')
      as [[E2 _] | (_ & Hcd & _)].
    + rewrite E2, Hw. lia.
    + exfalso. rewrite Hlast, Hc in Hcd. simpl in Hcd.
      apply Qltb_ge in Hcd. lra.
Qed.

Lemma message_cooldown_witness :
  25 - 20 < Qmax 8 (15 - 0 * 7) /\
  (shown (checkMessaging 25 (Fin 0) (checkMessaging 20 (Fin 0) lookingBackWorld))
   <= S (shown lookingBackWorld))%nat.
Proof.
  split; [vm_compute; reflexivity|].
  apply (proj2 (message_cooldown 0) lookingBackWorld _ 20 25 (Fin 0));
    [reflexivity | reflexivity | vm_compute; reflexivity].
Defined.

(** ** The event scheduler *)

Lemma handleRandomEvents_steady time delta f w :
  steady w (handleRandomEvents time delta f w).
Proof.
  unfold handleRandomEvents.
  destruct (endgameTriggered (sys w)); [apply steady_refl|].
  destruct (f <? Fin 0.1)%js; [apply steady_refl|].
  destruct (boActive (blackout (sys w))).
  - unfold showMirage, hideMirage, updateMirageEffect, Math_random.
    break_tests; repeat split.
  - unfold Math_random. cbv beta iota zeta.
    match goal with
    | |- context [if ?c then flickerLights ?W else _] =>
        assert (HW : steady w W);
        [ break_tests; repeat split
        | destruct c;
          [ pose proof (quiet_steady _ _ (quiet_flickerLights W)) as HF;
            generalize dependent (flickerLights W); intros W' HF
          | ];
          (eapply steady_trans; [eassumption|]) ]
    end.
    + eapply steady_trans; [exact HF|]. break_tests; repeat split.
    + break_tests; repeat split.
Qed.

(** ** The endgame latch *)

Ltac hold_cases w delta :=
  unfold endgameHold, fires, holdTimer, enterEndgame, createDistantSun, fresh, firings;
  destruct w as [[pl pa lm ci bo st rm mt ll et nt nc] g p z j c o r n];
  cbn [sys env maxParanoiaTimer paranoiaLevel endgameTriggered];
  destruct (pl >=? Fin 99)%js; destruct mt as [t|]; destruct et; simpl;
  repeat match goal with
  | |- context [holdLogDue ?a ?b] => destruct (holdLogDue a b); simpl
  | |- context [(?a >? ?b)%js] => destruct (a >? b)%js; simpl
  | |- context [if isEndgame ?x then _ else _] => destruct (isEndgame x) eqn:?; simpl
  end.

Lemma endgameHold_fires delta w :
  fires delta w = true ->
  let w' := endgameHold delta w in
  endgameTriggered (sys w') = true /\
  boActive (blackout (sys w')) = false /\
  ciActive (cameraInversion (sys w')) = false /\
  forceBlackout (env w') = false /\
  isEndgame (env w') = true /\
  firings w' = S (firings w).
Proof.
  hold_cases w delta; intros H; try discriminate H; repeat split; first [reflexivity | assumption].
Qed.

Lemma endgameHold_idle delta w :
  fires delta w = false ->
  let w' := endgameHold delta w in
  endgameTriggered (sys w') = endgameTriggered (sys w) /\
  blackout (sys w') = blackout (sys w) /\
  cameraInversion (sys w') = cameraInversion (sys w) /\
  env w' = env w /\
  firings w' = firings w.
Proof.
  hold_cases w delta; intros H; try discriminate H; repeat split.
Qed.

Lemma endgameHold_timer delta w :
  maxParanoiaTimer (sys (endgameHold delta w)) =
  if (paranoiaLevel (sys w) >=? Fin 99)%js then
    Some (holdTimer w + ToNumber delta)%js
  else
    match maxParanoiaTimer (sys w) with
    | Some t =>
        if (t >? Fin 0)%js then Some (t - ToNumber delta * Fin 0.5)%js else Some t
    | None => None
    end.
Proof.
  hold_cases w delta; reflexivity.
Qed.

Lemma endgameHold_rest delta w :
  let w' := endgameHold delta w in
  paranoiaLevel (sys w') = paranoiaLevel (sys w) /\
  drift (env w') = drift (env w) /\
  currentZone w' = currentZone w /\
  rnd w' = rnd w /\
  overlay w' = overlay w /\
  player w' = player w.
Proof.
  hold_cases w delta; repeat split.
Qed.

Lemma atMax_level w : atMax w = (paranoiaLevel (sys w) >=? Fin 99)%js.
Proof.
  unfold atMax, getParanoiaFactor, maxParanoia.
  destruct (paranoiaLevel (sys w)) as [q|]; [|reflexivity]. simpl.
  destruct (Qle_bool 0.99 (q / 100)) eqn:E1; destruct (Qle_bool 99 q) eqn:E2;
    try reflexivity; reflect_tests; exfalso.
  - assert (q / 100 == q * (1 # 100)) by (unfold Qdiv; reflexivity). lra.
  - assert (q / 100 == q * (1 # 100)) by (unfold Qdiv; reflexivity). lra.
Qed.

(** The first three parts of [monitorParanoia] only write the level and the
    status line. *)
Lemma estimate_rest delta w :
  let w1 := reportStatus (clampLevel (accrue delta w)) in
  env w1 = env w /\
  endgameTriggered (sys w1) = endgameTriggered (sys w) /\
  maxParanoiaTimer (sys w1) = maxParanoiaTimer (sys w) /\
  blackout (sys w1) = blackout (sys w) /\
  cameraInversion (sys w1) = cameraInversion (sys w) /\
  firings w1 = firings w /\
  currentZone w1 = currentZone w /\
  rnd w1 = rnd w /\
  overlay w1 = overlay w /\
  player w1 = player w.
Proof.
  unfold reportStatus, clampLevel, accrue, updateStatus.
  break_tests; repeat split.
Qed.

Lemma monitorParanoia_rest delta w :
  let w' := monitorParanoia delta w in
  drift (env w') = drift (env w) /\
  currentZone w' = currentZone w /\
  rnd w' = rnd w /\
  overlay w' = overlay w /\
  (endgameTriggered (sys w) = true ->
   endgameTriggered (sys w') = true /\ firings w' = firings w).
Proof.
  unfold monitorParanoia.
  destruct (estimate_rest delta w) as (E1 & E2 & E3 & E4 & E5 & E6 & E7 & E8 & E9 & E10).
  set (w1 := reportStatus (clampLevel (accrue delta w))) in *.
  destruct (endgameHold_rest delta w1) as (R1 & R2 & R3 & R4 & R5 & R6).
  cbv zeta. rewrite R2, R3, R4, R5, E1, E7, E8, E9.
  do 4 (split; [reflexivity|]).
  intros Ht.
  assert (Hf : fires delta w1 = false).
  { unfold fires. rewrite E2, Ht. simpl. apply andb_false_r. }
  destruct (endgameHold_idle delta w1 Hf) as (I1 & _ & _ & _ & I5).
  rewrite I1, I5, E2, E6. split; [exact Ht | reflexivity].
Qed.

Lemma monitorParanoia_level_cases delta w :
  paranoiaLevel (sys (monitorParanoia delta w)) = NaN \/
  exists l, paranoiaLevel (sys (monitorParanoia delta w)) = Fin l /\
            0 <= l <= maxParanoia.
Proof.
  rewrite monitorParanoia_level.
  destruct (paranoiaLevel (sys (accrue delta w))) as [a|]; [right|left; reflexivity].
  simpl. eexists. split; [reflexivity|]. unfold maxParanoia.
  destruct (Qmin_spec a 100) as [[? ->]|[? ->]].
  - destruct (Qmax_spec 0 a) as [[? ->]|[? ->]]; lra.
  - destruct (Qmax_spec 0 100) as [[? ->]|[? ->]]; lra.
Qed.

Lemma systemUpdate_unfold time delta w :
  FacilitySystem.update time delta w =
  handleRandomEvents time delta (getParanoiaFactor (monitorParanoia delta w))
    (checkMessaging time (getParanoiaFactor (monitorParanoia delta w))
       (setDriftIntensity
          (driftIntensityOf (getParanoiaFactor (monitorParanoia delta w)))
          (monitorParanoia delta w))).
Proof. reflexivity. Qed.

Lemma systemUpdate_rest time delta w :
  let w' := FacilitySystem.update time delta w in
  drift (env w') =
    set_pillarOffset
      (driftIntensityOf (getParanoiaFactor (monitorParanoia delta w)) * 1.5)
      (drift (env w)) /\
  currentZone w' = currentZone w /\
  rnd w' = rnd w /\
  (endgameTriggered (sys w) = true ->
   endgameTriggered (sys w') = true /\ firings w' = firings w).
Proof.
  cbv zeta. rewrite systemUpdate_unfold.
  destruct (monitorParanoia_rest delta w) as (M1 & M2 & M3 & M4 & M5).
  generalize dependent (monitorParanoia delta w). intros w1 M1 M2 M3 M4 M5.
  generalize (getParanoiaFactor w1). intros f.
  assert (S2 : drift (env (setDriftIntensity (driftIntensityOf f) w1)) =
               set_pillarOffset (driftIntensityOf f * 1.5) (drift (env w1)) /\
               calm w1 (setDriftIntensity (driftIntensityOf f) w1)).
  { split; [reflexivity | apply calm_upd_env]. }
  generalize dependent (setDriftIntensity (driftIntensityOf f) w1).
  intros w2 (D2 & S2 & F2 & Z2 & R2 & O2).
  destruct (checkMessaging_steady time f w2) as (C1 & C2 & C3 & C4 & C5 & C6 & C7).
  generalize dependent (checkMessaging time f w2). intros w3 C1 C2 C3 C4 C5 C6 C7.
  destruct (handleRandomEvents_steady time delta f w3) as (H1 & H2 & H3 & H4 & H5 & H6 & H7).
  rewrite H1, H6, H7, C1, C6, C7, H3, H2, C3, C2, D2, Z2, R2, S2, F2, M1, M2, M3.
  do 3 (split; [reflexivity|]). exact M5.
Qed.

(** ** The game loop *)

Lemma mild_trans w1 w2 w3 : mild w1 w2 -> mild w2 w3 -> mild w1 w3.
Proof.
  unfold mild. intros (A1 & A2 & A3 & A4 & A5) (B1 & B2 & B3 & B4 & B5).
  repeat apply conj; try congruence.
  destruct B5 as [B5|B5]; [|right; exact B5].
  destruct A5 as [A5|A5]; [left; congruence | right; rewrite B5; exact A5].
Qed.

Lemma calm_mild w w' :
  calm w w' ->
  drift (env w') = drift (env w) \/ driftInRange (drift (env w')) ->
  mild w w'.
Proof.
  intros (A1 & A2 & A3 & A4 & A5) D.
  unfold mild. repeat apply conj; try congruence; exact D.
Qed.

Lemma steady_mild w w' : steady w w' -> mild w w'.
Proof.
  intros (A1 & A2 & A3 & A4 & A5 & A6 & A7).
  unfold mild. repeat apply conj; try congruence; left; exact A1.
Qed.

Lemma quiet_mild w w' : quiet w w' -> mild w w'.
Proof. intros H. apply steady_mild, quiet_steady, H. Qed.

Lemma generatorUpdate_mild z delta w : mild w (FacilityGenerator.update z delta w).
Proof.
  destruct (generatorUpdate_drift z delta w) as [C D].
  apply calm_mild; assumption.
Qed.

Lemma generatorUpdate_zone z delta w :
  currentZone (FacilityGenerator.update z delta w) = currentZone w.
Proof. apply (generatorUpdate_drift z delta w). Qed.

Lemma updateClock_mild delta w : mild w (updateClock delta w).
Proof. repeat split. left. reflexivity. Qed.

Lemma set_player_mild p w : mild w (set_player p w).
Proof. repeat split. left. reflexivity. Qed.

Lemma triggerJumpscare_mild w : mild w (triggerJumpscare w).
Proof.
  unfold triggerJumpscare. destruct (jumpscareActive w); repeat split;
    left; reflexivity.
Qed.

Lemma frameTail_mild f w :
  mild w (frameTail f w) /\ currentZone (frameTail f w) = currentZone w.
Proof.
  unfold frameTail. cbv zeta.
  set (w1 := set_player (frPlayer f) w).
  set (w2 := updateClock (frDelta f) w1).
  set (w3 := FacilityGenerator.update (posZ (player w2)) (frDelta f) w2).
  split.
  - eapply mild_trans; [apply (set_player_mild (frPlayer f) w)|].
    eapply mild_trans; [apply (updateClock_mild (frDelta f) w1)|].
    eapply mild_trans; [apply (generatorUpdate_mild (posZ (player w2)) (frDelta f) w2)|].
    apply quiet_mild, quiet_updateLights.
  - destruct (quiet_updateLights (frDelta f) w3) as (_ & _ & _ & -> & _).
    subst w3. rewrite generatorUpdate_zone. reflexivity.
Qed.

Lemma set_paranoia_mild v w : mild w (upd_sys (set_paranoia v) w).
Proof. repeat split. left. reflexivity. Qed.

Lemma set_paranoia_zone v w :
  currentZone (upd_sys (set_paranoia v) w) = currentZone w.
Proof. reflexivity. Qed.

Lemma enterCorridor_mild w :
  mild w (enterCorridor w) /\ currentZone (enterCorridor w) = CORRIDOR.
Proof.
  unfold enterCorridor. destruct (currentZone w) eqn:Z.
  - set (w1 := destroyIntroRoom (set_currentZone CORRIDOR (log MainZoneCorridor w))).
    assert (Q1 : mild w w1 /\ currentZone w1 = CORRIDOR).
    { subst w1. unfold destroyIntroRoom. simpl.
      destruct (introRoom (env w)); repeat split; left; reflexivity. }
    destruct Q1 as [Q1 Z1].
    destruct (createInitialCorridor_drift w1) as [C D].
    split.
    + eapply mild_trans; [exact Q1|].
      eapply mild_trans; [apply calm_mild; [exact C | right; exact D]|].
      apply set_paranoia_mild.
    + destruct C as (_ & _ & C & _). rewrite <- Z1, <- C. apply set_paranoia_zone.
  - split; [|exact Z]. repeat split. left. reflexivity.
Qed.

Lemma driftInRange_bounds d : driftInRange d -> driftBounds d.
Proof. unfold driftInRange, driftBounds. intros (H1 & H2 & H3). lra. Qed.

Lemma mild_bounds w w' :
  mild w w' -> driftBounds (drift (env w)) -> driftBounds (drift (env w')).
Proof.
  intros (_ & _ & _ & _ & [->|D]) H; [exact H | apply driftInRange_bounds, D].
Qed.

Lemma driftIntensityOf_range delta w :
  0 <= driftIntensityOf (getParanoiaFactor (monitorParanoia delta w)) <= 1.
Proof.
  unfold getParanoiaFactor.
  destruct (monitorParanoia_level_cases delta w) as [-> | (l & -> & Hl)];
    simpl; [lra|].
  unfold maxParanoia in *.
  assert (l / 100 == l * (1 # 100)) by (unfold Qdiv; reflexivity).
  destruct (0.5 <? l / 100) eqn:E; reflect_tests; lra.
Qed.

Lemma systemUpdate_bounds time delta w :
  driftBounds (drift (env w)) ->
  driftBounds (drift (env (FacilitySystem.update time delta w))).
Proof.
  intros (H1 & H2 & H3).
  destruct (systemUpdate_rest time delta w) as (-> & _).
  pose proof (driftIntensityOf_range delta w) as Hi.
  unfold driftBounds. simpl. lra.
Qed.

Lemma systemUpdate_zone time delta w :
  currentZone (FacilitySystem.update time delta w) = currentZone w.
Proof. apply (systemUpdate_rest time delta w). Qed.

(** The corridor branch of the zone logic after [FacilitySystem.update]. *)
Lemma corridorRest_mild z delta w :
  let w1 := FacilityGenerator.update z delta (updateClock delta w) in
  mild w w1 /\ currentZone w1 = currentZone w.
Proof.
  cbv zeta. split.
  - eapply mild_trans; [apply updateClock_mild | apply generatorUpdate_mild].
  - rewrite generatorUpdate_zone. reflexivity.
Qed.

Lemma triggerJumpscare_zone w : currentZone (triggerJumpscare w) = currentZone w.
Proof. unfold triggerJumpscare. destruct (jumpscareActive w); reflexivity. Qed.

Lemma zoneLogic_cases f w :
  let w' := zoneLogic f w in
  (currentZone w = INTRO /\ w' = w) \/
  (currentZone w = INTRO /\ currentZone w' = CORRIDOR /\ mild w w') \/
  (currentZone w = CORRIDOR /\ currentZone w' = CORRIDOR /\
   mild (FacilitySystem.update (frTime f) (frDelta f) w) w').
Proof.
  unfold zoneLogic. cbv zeta. destruct (currentZone w) eqn:Z.
  - destruct (posZ (player w) <? 1.0).
    + right. left. destruct (enterCorridor_mild w) as [M C]. auto.
    + left. auto.
  - right. right. split; [reflexivity|].
    pose proof (systemUpdate_zone (frTime f) (frDelta f) w) as Z1.
    generalize dependent (FacilitySystem.update (frTime f) (frDelta f) w). intros w1 Z1.
    assert (P1 : player (updateClock (frDelta f) w1) = player w1) by reflexivity.
    rewrite P1.
    destruct (corridorRest_mild (posZ (player w1)) (frDelta f) w1) as [M C].
    generalize dependent (FacilityGenerator.update (posZ (player w1)) (frDelta f)
                            (updateClock (frDelta f) w1)).
    intros w2 M C.
    destruct (25.0 <? posZ (player w2)).
    + split; [rewrite triggerJumpscare_zone; congruence|].
      eapply mild_trans; [exact M | apply triggerJumpscare_mild].
    + split; [congruence | exact M].
Qed.

Lemma animate_latch f w :
  endgameTriggered (sys w) = true ->
  endgameTriggered (sys (animate f w)) = true /\
  firings (animate f w) = firings w.
Proof.
  intros Ht. unfold animate.
  destruct (frameTail_mild f (zoneLogic f w)) as [(T1 & T2 & _) _].
  rewrite T1, T2.
  destruct (zoneLogic_cases f w)
    as [[_ ->] | [(_ & _ & M1 & M2 & _) | (_ & _ & M1 & M2 & _)]].
  - auto.
  - rewrite M1, M2. auto.
  - rewrite M1, M2. apply (systemUpdate_rest (frTime f) (frDelta f) w), Ht.
Qed.

Lemma animate_bounds f w :
  driftBounds (drift (env w)) -> driftBounds (drift (env (animate f w))).
Proof.
  intros H. unfold animate.
  destruct (frameTail_mild f (zoneLogic f w)) as [T _].
  apply (mild_bounds _ _ T).
  destruct (zoneLogic_cases f w) as [[_ ->] | [(_ & _ & M) | (_ & _ & M)]].
  - exact H.
  - apply (mild_bounds _ _ M), H.
  - apply (mild_bounds _ _ M), systemUpdate_bounds, H.
Qed.

Lemma animate_intro f w :
  currentZone (animate f w) = INTRO ->
  currentZone w = INTRO /\
  paranoiaLevel (sys (animate f w)) = paranoiaLevel (sys w).
Proof.
  unfold animate.
  destruct (frameTail_mild f (zoneLogic f w)) as [(_ & _ & T & _) ->].
  rewrite T.
  destruct (zoneLogic_cases f w) as [[Z ->] | [(_ & Z & _) | (_ & Z & _)]];
    [auto | congruence | congruence].
Qed.

Lemma run_cons f fs w : run (f :: fs) w = run fs (animate f w).
Proof. reflexivity. Qed.

Lemma run_latch fs : forall w,
  endgameTriggered (sys w) = true ->
  endgameTriggered (sys (run fs w)) = true /\ firings (run fs w) = firings w.
Proof.
  induction fs as [|f fs IH]; intros w Ht; [auto|].
  rewrite run_cons. destruct (animate_latch f w Ht) as [H1 H2].
  destruct (IH _ H1) as [H3 H4]. split; congruence.
Qed.

Lemma run_bounds fs : forall w,
  driftBounds (drift (env w)) -> driftBounds (drift (env (run fs w))).
Proof.
  induction fs as [|f fs IH]; intros w H; [exact H|].
  rewrite run_cons. apply IH, animate_bounds, H.
Qed.

Lemma run_intro fs : forall w,
  currentZone (run fs w) = INTRO ->
  paranoiaLevel (sys (run fs w)) = paranoiaLevel (sys w).
Proof.
  induction fs as [|f fs IH]; intros w H; [reflexivity|].
  rewrite run_cons in *. rewrite (IH _ H).
  assert (Z : currentZone (animate f w) = INTRO).
  { clear IH. revert H. generalize (animate f w). induction fs as [|g gs IH]; intros v H; [exact H|].
    rewrite run_cons in H. apply IH in H. apply animate_intro in H. apply H. }
  apply animate_intro, Z.
Qed.

(** C2.  The endgame trigger is a one-way latch.  With [w'] the state after
    one paranoia update of time step [dt]:
    - while the factor is at least 0.99 the hold timer grows by [dt];
    - when it then exceeds 20 s and the latch is open, the transition fires:
      blackout, forced blackout and camera inversion are cleared, the latch
      closes, the generator enters the endgame, and the firing is logged once;
    - in every other case nothing fires and the latch keeps its value;
    - once the latch is closed, no sequence of later frames opens it or fires
      again, whatever the factor does;
    - while the factor is below 0.99, a positive hold timer goes down by
      [0.5 dt] instead of being reset. *)
Theorem endgame_latch (w : World) (dt : Q) :
  let w' := monitorParanoia (Number (Fin dt)) w in
  (atMax w' = true ->
   maxParanoiaTimer (sys w') = Some (holdTimer w + Fin dt)%js) /\
  (atMax w' = true ->
   (holdTimer w + Fin dt >? Fin 20.0)%js = true ->
   endgameTriggered (sys w) = false ->
   endgameTriggered (sys w') = true /\
   boActive (blackout (sys w')) = false /\
   ciActive (cameraInversion (sys w')) = false /\
   forceBlackout (env w') = false /\
   isEndgame (env w') = true /\
   firings w' = S (firings w)) /\
  (atMax w' = false \/
   (holdTimer w + Fin dt >? Fin 20.0)%js = false \/
   endgameTriggered (sys w) = true ->
   endgameTriggered (sys w') = endgameTriggered (sys w) /\
   firings w' = firings w) /\
  (endgameTriggered (sys w) = true ->
   forall fs : list Frame,
     endgameTriggered (sys (run fs w)) = true /\
     firings (run fs w) = firings w) /\
  (atMax w' = false ->
   forall t : Q,
     maxParanoiaTimer (sys w) = Some (Fin t) -> 0 < t ->
     maxParanoiaTimer (sys w') = Some (Fin (t - dt * 0.5))).
Proof.
  cbv zeta. rewrite atMax_level. unfold monitorParanoia.
  destruct (estimate_rest (Number (Fin dt)) w)
    as (E1 & E2 & E3 & E4 & E5 & E6 & _).
  set (w1 := reportStatus (clampLevel (accrue (Number (Fin dt)) w))) in *.
  destruct (endgameHold_rest (Number (Fin dt)) w1) as (R1 & _).
  rewrite R1.
  assert (Hh : holdTimer w1 = holdTimer w) by (unfold holdTimer; rewrite E3; reflexivity).
  pose proof (endgameHold_timer (Number (Fin dt)) w1) as Ht.
  rewrite Hh, E3 in Ht. simpl ToNumber in Ht.
  assert (Hf : fires (Number (Fin dt)) w1 =
               (paranoiaLevel (sys w1) >=? Fin 99)%js &&
               (holdTimer w + Fin dt >? Fin 20.0)%js &&
               negb (endgameTriggered (sys w))).
  { unfold fires. rewrite Hh, E2. reflexivity. }
  repeat apply conj.
  - intros Hm. rewrite Ht, Hm. reflexivity.
  - intros Hm Hgt Hn.
    assert (F : fires (Number (Fin dt)) w1 = true)
      by (rewrite Hf, Hm, Hgt, Hn; reflexivity).
    destruct (endgameHold_fires _ _ F) as (A1 & A2 & A3 & A4 & A5 & A6).
    rewrite A6, E6. repeat split; assumption.
  - intros Hc.
    assert (F : fires (Number (Fin dt)) w1 = false).
    { rewrite Hf. destruct Hc as [-> | [-> | ->]];
        [reflexivity | apply andb_false_iff; left; apply andb_false_r
        | apply andb_false_r]. }
    destruct (endgameHold_idle _ _ F) as (A1 & _ & _ & _ & A5).
    rewrite A1, A5, E2, E6. split; reflexivity.
  - intros Hl fs. apply run_latch, Hl.
  - intros Hm t Hs Hpos. rewrite Ht, Hm, Hs. simpl.
    assert (G : (0 <? t) = true) by (apply Qltb_lt; exact Hpos).
    rewrite G. reflexivity.
Qed.

Lemma endgame_latch_witness :
  (let w' := monitorParanoia (Number (Fin 1)) holdWorld in
   maxParanoiaTimer (sys w') = Some (holdTimer holdWorld + Fin 1)%js /\
   endgameTriggered (sys w') = true /\
   firings w' = S (firings holdWorld) /\
   endgameTriggered (sys (run [idleFrame; idleFrame] w')) = true /\
   firings (run [idleFrame; idleFrame] w') = firings w') /\
  (let w' := monitorParanoia (Number (Fin 1)) bleedWorld in
   endgameTriggered (sys w') = false /\
   maxParanoiaTimer (sys w') = Some (Fin (10 - 1 * 0.5))).
Proof.
  split; cbv zeta.
  - destruct (endgame_latch holdWorld 1) as (Hacc & Hfire & _).
    destruct Hfire as (A1 & _ & _ & _ & _ & A6);
      [vm_compute; reflexivity | vm_compute; reflexivity | reflexivity|].
    destruct (endgame_latch (monitorParanoia (Number (Fin 1)) holdWorld) 1)
      as (_ & _ & _ & Hlatch & _).
    destruct (Hlatch A1 [idleFrame; idleFrame]) as [L1 L2].
    split; [apply Hacc; vm_compute; reflexivity|].
    repeat apply conj; assumption.
  - destruct (endgame_latch bleedWorld 1) as (_ & _ & Hidle & _ & Hbleed).
    split.
    + destruct Hidle as [B1 _]; [left; vm_compute; reflexivity|].
      rewrite B1. reflexivity.
    + apply Hbleed; [vm_compute; reflexivity | reflexivity | reflexivity].
Defined.

(** ** Drift *)

(** C4, as stated, fails: eight frames of looking back drive the factor to
    1, and [setDriftIntensity] then stores 1.5 in [pillarOffset], outside
    its clamp range. *)
Lemma drift_range_counterexample :
  reachable spinWorld /\
  pillarOffset (drift (env spinWorld)) == 1.5 /\
  ~ driftInRange (drift (env spinWorld)).
Proof.
  split; [exists (fun _ => 1 # 2), (repeat spinFrame 8); reflexivity|].
  split; [vm_compute; reflexivity|].
  intros (_ & _ & _ & H). vm_compute in H. apply H. reflexivity.
Qed.

Lemma reachable_bounds w : reachable w -> driftBounds (drift (env w)).
Proof.
  intros (oracle & fs & ->). apply run_bounds.
  unfold driftBounds. simpl. lra.
Qed.

(** ** The random walk of the drift *)

Lemma walked_refl d :
  -1.0 <= heightOffset d <= 1.5 -> -0.5 <= lightDimming d <= 0.8 -> walked 0 d d.
Proof.
  intros H L. unfold walked. change (inject_Z (Z.of_nat 0)) with 0.
  rewrite Nat.add_0_r. repeat split; lra.
Qed.

Lemma walked_trans n m d1 d2 d3 :
  walked n d1 d2 -> walked m d2 d3 -> walked (n + m) d1 d3.
Proof.
  unfold walked. rewrite Nat2Z.inj_add, inject_Z_plus.
  generalize (inject_Z (Z.of_nat n)) (inject_Z (Z.of_nat m)). intros a b.
  intros (A1 & A2 & A3 & _) (B1 & B2 & B3 & B4 & B5).
  repeat split; try lra. rewrite B1, A1. lia.
Qed.

Lemma walked_same n d0 d d' :
  loopCount d' = loopCount d -> heightOffset d' = heightOffset d ->
  lightDimming d' = lightDimming d -> walked n d0 d -> walked n d0 d'.
Proof. unfold walked. intros -> -> ->. trivial. Qed.

Lemma walked_eq n d0 d d' : d' = d -> walked n d0 d -> walked n d0 d'.
Proof. intros ->. trivial. Qed.

Lemma driftStep_walked w :
  -1.0 <= heightOffset (drift (env w)) <= 1.5 ->
  -0.5 <= lightDimming (drift (env w)) <= 0.8 ->
  walked 1 (drift (env w)) (driftStep w).
Proof.
  intros H L. unfold walked, driftStep. simpl.
  change (inject_Z 1) with 1.
  pose proof (frac_range (rnd w (rndPos w + 0))) as R0.
  pose proof (frac_range (rnd w (rndPos w + 1))) as R1.
  unfold draw.
  pose proof (clamp_step_between (heightOffset (drift (env w)))
                ((frac (rnd w (rndPos w + 0)) - 0.5) * 0.1) (-(0.05)) 0.05 (-1.0) 1.5 H) as S0.
  pose proof (clamp_step_between (lightDimming (drift (env w)))
                ((frac (rnd w (rndPos w + 1)) - 0.3) * 0.1) (-(0.03)) 0.07 (-0.5) 0.8 L) as S1.
  pose proof (clamp_range (heightOffset (drift (env w)) + (frac (rnd w (rndPos w + 0)) - 0.5) * 0.1) (-1.0) 1.5) as C0.
  pose proof (clamp_range (lightDimming (drift (env w)) + (frac (rnd w (rndPos w + 1)) - 0.3) * 0.1) (-0.5) 0.8) as C1.
  assert (S0' := S0 ltac:(lra) ltac:(lra) ltac:(lra)).
  assert (S1' := S1 ltac:(lra) ltac:(lra) ltac:(lra)).
  assert (C0' := C0 ltac:(lra)). assert (C1' := C1 ltac:(lra)).
  clear S0 S1 C0 C1.
  split; [lia|]. repeat split; lra.
Qed.

Lemma generateCorridorChunk_walked n d0 z w :
  walked n d0 (drift (env w)) ->
  walked (n + 1) d0 (drift (env (generateCorridorChunk z w))).
Proof.
  intros W. destruct (generateCorridorChunk_drift z w) as [_ ->].
  apply walked_trans with (1 := W). apply driftStep_walked; apply W.
Qed.

Lemma drift_step_zOffset w :
  drift (env (upd_env (fun g => set_zOffset (zOffset g - chunkSize) g) w)) = drift (env w).
Proof. reflexivity. Qed.

Lemma generatorUpdate_walked n d0 z delta w :
  walked n d0 (drift (env w)) ->
  exists m, (m <= 1)%nat /\
    walked (n + m) d0 (drift (env (FacilityGenerator.update z delta w))).
Proof.
  intros W. unfold FacilityGenerator.update.
  pose proof (quiet_updateLights (sanitizeDelta delta) w) as Q0.
  set (w0 := updateLights (sanitizeDelta delta) w) in *.
  assert (W0 : walked n d0 (drift (env w0))).
  { apply walked_eq with (2 := W). destruct Q0 as (_ & D & _). exact D. }
  clearbody w0. clear Q0 W.
  destruct (stopGeneration (env w0) || isEndgame (env w0)).
  - exists 0%nat. split; [lia|]. rewrite Nat.add_0_r.
    apply walked_eq with (2 := W0).
    assert (Q : quiet w0 (cleanupChunks z (updateEndgame z w0))).
    { eapply quiet_trans; [apply quiet_updateEndgame|apply quiet_cleanupChunks]. }
    destruct Q as (_ & D & _). exact D.
  - destruct (Qabs (z - zOffset (env w0)) <? renderDistance).
    + exists 1%nat. split; [lia|].
      pose proof (generateCorridorChunk_walked n d0 (zOffset (env w0)) w0 W0) as W1.
      generalize dependent (generateCorridorChunk (zOffset (env w0)) w0).
      intros w1 W1.
      set (w2 := upd_env (fun g => set_zOffset (zOffset g - chunkSize) g) w1).
      pose proof (quiet_cleanupChunks z w2) as Q2.
      apply walked_eq with (2 := W1). destruct Q2 as (_ & -> & _).
      apply drift_step_zOffset.
    + exists 0%nat. split; [lia|]. rewrite Nat.add_0_r. exact W0.
Qed.

Lemma systemUpdate_walked n d0 time delta w :
  walked n d0 (drift (env w)) ->
  walked n d0 (drift (env (FacilitySystem.update time delta w))).
Proof.
  intros W. destruct (systemUpdate_rest time delta w) as (-> & _).
  generalize (driftIntensityOf (getParanoiaFactor (monitorParanoia delta w)) * 1.5).
  intros v. apply walked_same with (4 := W); reflexivity.
Qed.

Lemma createInitialCorridor_walked n d0 w :
  walked n d0 (drift (env w)) ->
  walked (n + 2) d0 (drift (env (createInitialCorridor w))).
Proof.
  intros W. unfold createInitialCorridor.
  pose proof (generateCorridorChunk_walked n d0 0 w W) as W1.
  set (w1 := upd_env (fun g => set_zOffset (zOffset g - chunkSize) g)
               (generateCorridorChunk 0 w)).
  assert (W1' : walked (n + 1) d0 (drift (env w1))).
  { apply walked_eq with (2 := W1). apply drift_step_zOffset. }
  pose proof (generateCorridorChunk_walked (n + 1) d0 (zOffset (env w1)) w1 W1') as W2.
  replace (n + 2)%nat with (n + 1 + 1)%nat by lia.
  apply walked_eq with (2 := W2). apply drift_step_zOffset.
Qed.

Lemma destroyIntroRoom_drift w : drift (env (destroyIntroRoom w)) = drift (env w).
Proof. unfold destroyIntroRoom. destruct (introRoom (env w)); reflexivity. Qed.

Lemma enterCorridor_intro w :
  currentZone w = INTRO ->
  enterCorridor w =
  upd_sys (set_paranoia (Some (Fin 0)))
    (createInitialCorridor
       (destroyIntroRoom (set_currentZone CORRIDOR (log MainZoneCorridor w)))).
Proof. intros Z. unfold enterCorridor. rewrite Z. reflexivity. Qed.

Lemma enterCorridor_corridor w : currentZone w = CORRIDOR -> enterCorridor w = w.
Proof. intros Z. unfold enterCorridor. rewrite Z. reflexivity. Qed.

Lemma drift_upd_sys f w : drift (env (upd_sys f w)) = drift (env w).
Proof. reflexivity. Qed.

Lemma enterCorridor_walked n d0 w :
  walked n d0 (drift (env w)) ->
  exists m, (m <= 2)%nat /\ walked (n + m) d0 (drift (env (enterCorridor w))).
Proof.
  intros W. destruct (currentZone w) eqn:Z.
  - exists 2%nat. split; [lia|]. rewrite (enterCorridor_intro w Z), drift_upd_sys.
    apply createInitialCorridor_walked.
    apply walked_eq with (2 := W). rewrite destroyIntroRoom_drift. reflexivity.
  - exists 0%nat. split; [lia|]. rewrite (enterCorridor_corridor w Z), Nat.add_0_r.
    exact W.
Qed.

Lemma zoneLogic_walked n d0 f w :
  walked n d0 (drift (env w)) ->
  exists m, (m <= 2)%nat /\ walked (n + m) d0 (drift (env (zoneLogic f w))).
Proof.
  intros W. unfold zoneLogic. cbv zeta. destruct (currentZone w) eqn:Z.
  - destruct (posZ (player w) <? 1.0).
    + apply enterCorridor_walked, W.
    + exists 0%nat. split; [lia|]. rewrite Nat.add_0_r. exact W.
  - pose proof (systemUpdate_walked n d0 (frTime f) (frDelta f) w W) as W1.
    generalize dependent (FacilitySystem.update (frTime f) (frDelta f) w). intros w1 W1.
    assert (P1 : player (updateClock (frDelta f) w1) = player w1) by reflexivity.
    rewrite P1.
    assert (W2 : walked n d0 (drift (env (updateClock (frDelta f) w1)))) by exact W1.
    destruct (generatorUpdate_walked n d0 (posZ (player w1)) (frDelta f) _ W2)
      as (m & Hm & W3).
    generalize dependent (FacilityGenerator.update (posZ (player w1)) (frDelta f)
                            (updateClock (frDelta f) w1)).
    intros w2 W3. exists m. split; [lia|].
    destruct (25.0 <? posZ (player w2)); [|exact W3].
    apply walked_eq with (2 := W3).
    unfold triggerJumpscare. destruct (jumpscareActive w2); reflexivity.
Qed.

Lemma frameTail_walked n d0 f w :
  walked n d0 (drift (env w)) ->
  exists m, (m <= 1)%nat /\ walked (n + m) d0 (drift (env (frameTail f w))).
Proof.
  intros W. unfold frameTail. cbv zeta.
  set (w1 := set_player (frPlayer f) w).
  set (w2 := updateClock (frDelta f) w1).
  assert (W2 : walked n d0 (drift (env w2))) by exact W.
  destruct (generatorUpdate_walked n d0 (posZ (player w2)) (frDelta f) w2 W2)
    as (m & Hm & W3).
  exists m. split; [exact Hm|]. apply walked_eq with (2 := W3).
  generalize dependent (FacilityGenerator.update (posZ (player w2)) (frDelta f) w2).
  intros w3 _. destruct (quiet_updateLights (frDelta f) w3) as (_ & D & _). exact D.
Qed.

Lemma animate_walked f w :
  -1.0 <= heightOffset (drift (env w)) <= 1.5 ->
  -0.5 <= lightDimming (drift (env w)) <= 0.8 ->
  exists n, (n <= 3)%nat /\ walked n (drift (env w)) (drift (env (animate f w))).
Proof.
  intros H L. unfold animate.
  destruct (zoneLogic_walked 0 (drift (env w)) f w (walked_refl _ H L)) as (a & Ha & Wa).
  destruct (frameTail_walked _ _ f _ Wa) as (b & Hb & Wb).
  exists (0 + a + b)%nat. split; [lia | exact Wb].
Qed.

Lemma run_walked fs : forall w,
  -1.0 <= heightOffset (drift (env w)) <= 1.5 ->
  -0.5 <= lightDimming (drift (env w)) <= 0.8 ->
  exists n, (n <= 3 * List.length fs)%nat /\
    walked n (drift (env w)) (drift (env (run fs w))).
Proof.
  induction fs as [|f fs IH]; intros w H L.
  - exists 0%nat. split; [simpl; lia | apply walked_refl; assumption].
  - rewrite run_cons.
    destruct (animate_walked f w H L) as (a & Ha & Wa).
    destruct (IH (animate f w)) as (b & Hb & Wb); [apply Wa | apply Wa|].
    exists (a + b)%nat. split; [simpl; lia|].
    apply walked_trans with (1 := Wa), Wb.
Qed.

(** C4, amended.  In every state of the game loop [heightOffset] and
    [lightDimming] are in their clamp ranges and [pillarOffset] is in
    [-1, 1.5].  A new chunk leaves all three fields in their clamp ranges,
    and it computes each from its value before: the loop count grows by one,
    and the fields take a clamped random step from where they were, of at
    most 0.05 for [heightOffset] and of between -0.03 and 0.07 for
    [lightDimming].  [FacilitySystem.update] writes [1.5 * intensity],
    between 0 and 1.5, to [pillarOffset] on every tick and leaves the other
    fields alone.  So [heightOffset] and [lightDimming] are never reset:
    over any frames of the game loop, from a state it reaches, the loop
    count grows by some [n], at most three per frame, [heightOffset] moves
    by at most [0.05 n] and [lightDimming] by between [-0.03 n] and
    [0.07 n]. *)
Theorem drift_invariant :
  (forall w, reachable w -> driftBounds (drift (env w))) /\
  (forall z w, driftInRange (drift (env (generateCorridorChunk z w)))) /\
  (forall time delta w,
     let d := drift (env w) in
     let d' := drift (env (FacilitySystem.update time delta w)) in
     loopCount d' = loopCount d /\
     heightOffset d' = heightOffset d /\
     lightDimming d' = lightDimming d /\
     pillarOffset d' =
       driftIntensityOf (getParanoiaFactor (monitorParanoia delta w)) * 1.5 /\
     0 <= pillarOffset d' <= 1.5) /\
  (forall z w,
     let d := drift (env w) in
     let d' := drift (env (generateCorridorChunk z w)) in
     loopCount d' = S (loopCount d) /\
     heightOffset d' = clamp (heightOffset d + (draw w 0 - 0.5) * 0.1) (-1.0) 1.5 /\
     lightDimming d' = clamp (lightDimming d + (draw w 1 - 0.3) * 0.1) (-0.5) 0.8 /\
     pillarOffset d' = clamp (pillarOffset d + (draw w 2 - 0.5) * 0.2) (-1.0) 1.0 /\
     (-1.0 <= heightOffset d <= 1.5 ->
      -0.05 <= heightOffset d' - heightOffset d <= 0.05) /\
     (-0.5 <= lightDimming d <= 0.8 ->
      -0.03 <= lightDimming d' - lightDimming d <= 0.07)) /\
  (forall fs w, reachable w ->
     let d := drift (env w) in
     let d' := drift (env (run fs w)) in
     exists n : nat,
       (n <= 3 * List.length fs)%nat /\
       loopCount d' = (loopCount d + n)%nat /\
       - (0.05 * inject_Z (Z.of_nat n)) <= heightOffset d' - heightOffset d
         <= 0.05 * inject_Z (Z.of_nat n) /\
       - (0.03 * inject_Z (Z.of_nat n)) <= lightDimming d' - lightDimming d
         <= 0.07 * inject_Z (Z.of_nat n)).
Proof.
  split; [exact reachable_bounds|]. split; [|split; [|split]].
  - intros z w. destruct (generateCorridorChunk_drift z w) as [_ ->].
    apply driftStep_in_range.
  - intros time delta w. cbv zeta.
    destruct (systemUpdate_rest time delta w) as (-> & _).
    pose proof (driftIntensityOf_range delta w) as Hi.
    simpl. repeat split; lra.
  - intros z w. cbv zeta. destruct (generateCorridorChunk_drift z w) as [_ ->].
    unfold driftStep. simpl.
    split; [reflexivity|]. split; [reflexivity|]. split; [reflexivity|].
    split; [reflexivity|]. unfold draw.
    pose proof (frac_range (rnd w (rndPos w + 0))) as R0.
    pose proof (frac_range (rnd w (rndPos w + 1))) as R1.
    split; intros H.
    + assert (S0 := clamp_step_between (heightOffset (drift (env w)))
                      ((frac (rnd w (rndPos w + 0)) - 0.5) * 0.1) (-0.05) 0.05
                      (-1.0) 1.5 H ltac:(lra) ltac:(lra) ltac:(lra)).
      exact S0.
    + assert (S1 := clamp_step_between (lightDimming (drift (env w)))
                      ((frac (rnd w (rndPos w + 1)) - 0.3) * 0.1) (-0.03) 0.07
                      (-0.5) 0.8 H ltac:(lra) ltac:(lra) ltac:(lra)).
      exact S1.
  - intros fs w R. cbv zeta.
    destruct (reachable_bounds w R) as (H & L & _).
    destruct (run_walked fs w H L) as (n & Hn & W1 & W2 & W3 & _).
    exists n. repeat split; try assumption; try apply W2; apply W3.
Qed.

Lemma drift_invariant_witness :
  reachable spinWorld /\ driftBounds (drift (env spinWorld)).
Proof.
  assert (R : reachable spinWorld)
    by (exists (fun _ => 1 # 2), (repeat spinFrame 8); reflexivity).
  split; [exact R | apply (proj1 drift_invariant), R].
Defined.

(** ** The zone transition *)

Lemma enterCorridor_level w :
  paranoiaLevel (sys (enterCorridor w)) = paranoiaLevel (sys w).
Proof. apply (enterCorridor_mild w). Qed.

(** While the game loop is in the intro zone the estimator has not run. *)
Lemma reachable_intro_level w :
  reachable w -> currentZone w = INTRO -> paranoiaLevel (sys w) = Fin 0.
Proof.
  intros (oracle & fs & ->) Z. rewrite (run_intro fs _ Z). reflexivity.
Qed.

Lemma paranoia_upd_sys v w : paranoia (sys (upd_sys (set_paranoia v) w)) = v.
Proof. destruct w as [s ? ? ? ? ? ? ? ?]. destruct s. reflexivity. Qed.

(** C9.  When the game loop leaves the intro zone, the transition stores 0
    in the system's [paranoia], and the level of the estimator is 0 right
    after it and at the end of the frame whose trigger ran it: the level
    starts at 0 and its only writer, [monitorParanoia], does not run in the
    intro zone. *)
Theorem transition_level_zero (w : World) :
  reachable w ->
  currentZone w = INTRO ->
  currentZone (enterCorridor w) = CORRIDOR /\
  paranoia (sys (enterCorridor w)) = Some (Fin 0) /\
  paranoiaLevel (sys (enterCorridor w)) = Fin 0 /\
  (forall f, posZ (player w) < 1.0 ->
     currentZone (animate f w) = CORRIDOR /\
     paranoiaLevel (sys (animate f w)) = Fin 0).
Proof.
  intros R Z.
  assert (L : paranoiaLevel (sys (enterCorridor w)) = Fin 0).
  { rewrite enterCorridor_level. apply reachable_intro_level; assumption. }
  split; [apply enterCorridor_mild|].
  split; [rewrite (enterCorridor_intro w Z); apply paranoia_upd_sys|].
  split; [exact L|].
  intros f Hz.
  assert (E : zoneLogic f w = enterCorridor w).
  { unfold zoneLogic. cbv zeta. rewrite Z.
    assert (T : (posZ (player w) <? 1.0) = true) by (apply Qltb_lt; exact Hz).
    rewrite T. reflexivity. }
  unfold animate. rewrite E.
  destruct (frameTail_mild f (enterCorridor w)) as [(_ & _ & T & _) ->].
  rewrite T. split; [apply enterCorridor_mild | exact L].
Qed.

Lemma transition_level_zero_witness :
  currentZone doorstepWorld = INTRO /\
  paranoiaLevel (sys (enterCorridor doorstepWorld)) = Fin 0 /\
  currentZone (animate spinFrame doorstepWorld) = CORRIDOR /\
  paranoiaLevel (sys (animate spinFrame doorstepWorld)) = Fin 0.
Proof.
  assert (Z : currentZone doorstepWorld = INTRO) by (vm_compute; reflexivity).
  destruct (transition_level_zero doorstepWorld) as (_ & _ & L & F);
    [exists (fun _ => 1 # 2), [spinFrame]; reflexivity | exact Z |].
  split; [exact Z|]. split; [exact L|].
  apply F. vm_compute. reflexivity.
Defined.

(** ** Invalid frame deltas *)


Lemma sanitizeDelta_invalid :
  sanitizeDelta Undefined = Number (Fin 0.016) /\
  sanitizeDelta (Number NaN) = Number (Fin 0.016).
Proof. split; reflexivity. Qed.

(** A [NaN] level never recovers. *)
Lemma monitorParanoia_NaN_stays delta w :
  paranoiaLevel (sys w) = NaN ->
  paranoiaLevel (sys (monitorParanoia delta w)) = NaN.
Proof.
  intros H. rewrite monitorParanoia_level.
  assert (A : paranoiaLevel (sys (accrue delta w)) = NaN).
  { unfold accrue.
    destruct (isLookingBack (metrics (player w)));
    destruct (isStationary (metrics (player w)));
    destruct (3.0 <? continuousForwardTime (metrics (player w)));
    destruct (continuousForwardTime (metrics (player w)) <? 3.0);
    simpl; rewrite H; reflexivity. }
  rewrite A. reflexivity.
Qed.

(** C8 on the code: the generator replaces an invalid delta by 0.016, but
    the estimator, reached from the same frame, uses it as it is, and the
    level and the survival time become [NaN]. *)
Theorem invalid_delta_reaches_level :
  paranoiaLevel (sys lookingBackWorld) = Fin 0 /\
  paranoiaLevel (sys (monitorParanoia Undefined lookingBackWorld)) = NaN /\
  paranoiaLevel (sys (monitorParanoia (Number NaN) lookingBackWorld)) = NaN /\
  paranoiaLevel (sys (animate nanFrame lookingBackWorld)) = NaN /\
  survivalTime (sys (animate nanFrame lookingBackWorld)) = NaN.
Proof. repeat split; vm_compute; reflexivity. Qed.

(** ** Flicker under blackout *)

(** C10.  While the blackout is forced, [flickerLights] changes nothing: no
    light, no mesh, and no draw from the oracle. *)
Theorem flickerLights_blackout_noop (w : World) :
  forceBlackout (env w) = true -> flickerLights w = w.
Proof. intros H. unfold flickerLights. rewrite H. reflexivity. Qed.

Lemma flickerLights_blackout_noop_witness :
  forceBlackout (env darkWorld) = true /\
  lights (env darkWorld) <> [] /\
  flickerLights darkWorld = darkWorld.
Proof.
  split; [reflexivity|]. split; [vm_compute; discriminate|].
  apply (flickerLights_blackout_noop darkWorld). reflexivity.
Defined.

(** ** Eviction *)

Lemma removeChunk_chunks c w : chunks (env (removeChunk c w)) = chunks (env w).
Proof.
  unfold removeChunk, removeLightsInChunk.
  match goal with
  | |- chunks (env (upd_env _ (fold_left ?f ?l ?w0))) = _ =>
      assert (H : chunks (env (fold_left f l w0)) = chunks (env w))
  end.
  - match goal with |- chunks (env (fold_left _ _ ?w0)) = _ =>
      assert (H0 : chunks (env w0) = chunks (env w)) by reflexivity;
      revert H0; generalize w0 end.
    induction (cchildren c) as [|o os IH]; intros w0 H0; simpl; [exact H0|].
    apply IH. exact H0.
  - exact H.
Qed.

Lemma splice1_firstn_skipn {A} (l : list A) : forall j,
  splice1 j l = firstn j l ++ skipn (S j) l.
Proof.
  induction l as [|x l IH]; intros [|j]; simpl; try reflexivity.
  rewrite IH. reflexivity.
Qed.

Lemma nth_error_split {A} (l : list A) : forall j x,
  nth_error l j = Some x ->
  firstn (S j) l = firstn j l ++ [x] /\ skipn j l = x :: skipn (S j) l.
Proof.
  induction l as [|y l IH]; intros [|j] x H; simpl in *; try discriminate.
  - injection H as ->. auto.
  - destruct (IH j x H) as [H1 H2]. rewrite H1. split; [reflexivity|exact H2].
Qed.

Lemma chunks_splice j w :
  chunks (env (upd_env (fun g => set_chunks (splice1 j (chunks g)) g) w)) =
  splice1 j (chunks (env w)).
Proof. reflexivity. Qed.

Lemma cleanupLoop_chunks thr i : forall w,
  chunks (env (cleanupLoop thr i w)) =
  filter (kept thr) (firstn i (chunks (env w))) ++ skipn i (chunks (env w)).
Proof.
  induction i as [|j IH]; intros w; [reflexivity|].
  cbn [cleanupLoop].
  destruct (nth_error (chunks (env w)) j) as [c|] eqn:N.
  - destruct (nth_error_split _ _ _ N) as [HF HS].
    destruct (thr <? cz c) eqn:T.
    + rewrite IH, chunks_splice, removeChunk_chunks.
      rewrite splice1_firstn_skipn.
      assert (L : List.length (firstn j (chunks (env w))) = j).
      { apply firstn_length_le. apply Nat.lt_le_incl, nth_error_Some. congruence. }
      rewrite firstn_app, L, Nat.sub_diag, firstn_O, app_nil_r.
      rewrite firstn_firstn, Nat.min_id.
      rewrite skipn_app, L, Nat.sub_diag, skipn_O.
      rewrite (skipn_all2 (firstn j (chunks (env w)))) by lia.
      assert (K : kept thr c = false) by (unfold kept; rewrite T; reflexivity).
      rewrite HF, filter_app. cbn [filter]. rewrite K, app_nil_r. reflexivity.
    + assert (K : kept thr c = true) by (unfold kept; rewrite T; reflexivity).
      rewrite IH, HF, HS, filter_app. cbn [filter]. rewrite K, <- app_assoc.
      reflexivity.
  - rewrite IH. apply nth_error_None in N.
    rewrite !firstn_all2 by lia. rewrite !skipn_all2 by lia. reflexivity.
Qed.

Lemma cleanupLoop_fixed thr i : forall w,
  forallb (kept thr) (chunks (env w)) = true -> cleanupLoop thr i w = w.
Proof.
  induction i as [|j IH]; intros w H; [reflexivity|].
  cbn [cleanupLoop].
  destruct (nth_error (chunks (env w)) j) as [c|] eqn:N; [|apply IH, H].
  assert (K : kept thr c = true).
  { rewrite forallb_forall in H. apply H. eapply nth_error_In, N. }
  unfold kept in K. apply negb_true_iff in K. rewrite K. apply IH, H.
Qed.

(** C6.  Eviction is idempotent: a second [cleanupChunks] at the same player
    position changes nothing at all, so in particular not the chunk list,
    the lights, the interactables and the pillar positions. *)
Theorem cleanupChunks_idempotent (playerZ : Q) (w : World) :
  cleanupChunks playerZ (cleanupChunks playerZ w) = cleanupChunks playerZ w.
Proof.
  unfold cleanupChunks at 1. apply cleanupLoop_fixed.
  unfold cleanupChunks. rewrite cleanupLoop_chunks.
  rewrite firstn_all, skipn_all, app_nil_r.
  apply forallb_forall. intros c Hc. apply filter_In in Hc. apply Hc.
Qed.

(** Evicting everything behind a far-away player empties the chunk list;
    the filter of [removeLightsInChunk] finds no light without a parent. *)
Example cleanupChunks_far :
  List.length (chunks (env spinWorld)) = 4%nat /\
  chunks (env (cleanupChunks (-200) spinWorld)) = [] /\
  List.length (lights (env (cleanupChunks (-200) spinWorld))) =
    List.length (lights (env spinWorld)).
Proof.
  split; [vm_compute; reflexivity|]. split; vm_compute; reflexivity.
Qed.

(** ** Obstacle alignment *)

Lemma createPillar_positions c rw rh zPos cwz w :
  exists (i j : nat) (x1 x2 : Q),
    pillarPositions (env (snd (createPillar c rw rh zPos cwz w))) =
    pillarPositions (env w) ++
      [ mkPillar x1 ((zPos + jitter (rnd w) i (pillarOffset (drift (env w)))) + cwz);
        mkPillar x2 ((zPos + jitter (rnd w) j (pillarOffset (drift (env w)))) + cwz) ].
Proof. do 4 eexists. reflexivity. Qed.

Lemma pillarLoop_positions fuel : forall gZ limit c rw rh cwz w c' w' lo k,
  gZ == 8 * inject_Z k ->
  lo <= gZ ->
  pillarLoop fuel gZ limit 8 c rw rh cwz w = Some (c', w') ->
  exists new,
    pillarPositions (env w') = pillarPositions (env w) ++ new /\
    pairsOnGrid (rnd w) (pillarOffset (drift (env w))) lo limit new /\
    (gZ < limit -> new <> []).
Proof.
  induction fuel as [|fuel IH]; intros gZ limit c rw rh cwz w c' w' lo k Hk Hlo H;
    cbn [pillarLoop] in H; [discriminate|].
  destruct (gZ <? limit) eqn:G; reflect_tests.
  - destruct (createPillar_positions c rw rh (gZ - cwz) cwz w)
      as (i & j & x1 & x2 & P).
    pose proof (quiet_createPillar c rw rh (gZ - cwz) cwz w) as HQ.
    destruct (createPillar c rw rh (gZ - cwz) cwz w) as [c1 w1].
    cbn [snd] in P, HQ. destruct HQ as (_ & D & _ & _ & R & _).
    destruct (IH (gZ + 8) limit c1 rw rh cwz w1 c' w' lo (k + 1)%Z) as (new & N1 & N2 & _).
    + rewrite inject_Z_plus. change (inject_Z 1) with 1. lra.
    + lra.
    + exact H.
    + eexists. split; [|split].
      * rewrite N1, P, <- app_assoc. reflexivity.
      * simpl. apply pairs_cons; [|rewrite <- D, <- R; exact N2].
        exists k, i, j. simpl. repeat split; lra.
      * intros _. discriminate.
  - injection H as _ <-. exists []. split; [rewrite app_nil_r; reflexivity|].
    split; [constructor | intros C; lra].
Qed.

Lemma pillarLoop_completes n : forall gZ limit spacing c rw rh cwz w,
  0 < spacing ->
  limit - gZ <= inject_Z (Z.of_nat n) * spacing ->
  pillarLoop (S n) gZ limit spacing c rw rh cwz w <> None.
Proof.
  induction n as [|n IH]; intros gZ limit spacing c rw rh cwz w Hs Hb;
    cbn [pillarLoop]; destruct (gZ <? limit) eqn:G; reflect_tests;
    try discriminate.
  - change (inject_Z (Z.of_nat 0)) with 0 in Hb. lra.
  - destruct (createPillar c rw rh (gZ - cwz) cwz w) as [c1 w1].
    apply IH; [exact Hs|].
    rewrite Nat2Z.inj_succ, <- Z.add_1_r, inject_Z_plus in Hb.
    change (inject_Z 1) with 1 in Hb. lra.
Qed.

Lemma pairsOnGrid_weaken oracle off lo hi lo' hi' ps :
  lo' <= lo -> hi <= hi' ->
  pairsOnGrid oracle off lo hi ps -> pairsOnGrid oracle off lo' hi' ps.
Proof.
  intros Hl Hh H. induction H as [|p1 p2 ps (k & i & j & B & E) _ IH];
    constructor; [|exact IH].
  exists k, i, j. split; [lra | exact E].
Qed.

(** The first grid point of a chunk. *)
Lemma alignBase_grid (x : Q) :
  let a := inject_Z (Qceiling (x / 8)) * 8 in
  a == 8 * inject_Z (Qceiling (x / 8)) /\ x <= a /\ a < x + 8.
Proof.
  cbv zeta.
  assert (E : x / 8 == x * (1 # 8)) by (unfold Qdiv; reflexivity).
  revert E. generalize (x / 8). intros y E.
  pose proof (Qle_ceiling y) as H1.
  pose proof (Qceiling_lt y) as H2.
  replace (Qceiling y - 1)%Z with (Qceiling y + (-1))%Z in H2 by lia.
  rewrite inject_Z_plus in H2. change (inject_Z (-1)) with (-1) in H2.
  repeat split; lra.
Qed.

(** C5.  Every pillar pair that a new chunk adds to [pillarPositions] sits,
    before its jitter, on a multiple of 8 inside the chunk, wherever the
    chunk starts; and a chunk adds at least one pair. *)
Theorem obstacles_on_grid (zStart : Q) (w : World) :
  let w' := generateCorridorChunk zStart w in
  exists new,
    pillarPositions (env w') = pillarPositions (env w) ++ new /\
    new <> [] /\
    pairsOnGrid (rnd w) (pillarOffset (drift (env w')))
      (zStart - chunkSize) zStart new.
Proof.
  cbv zeta.
  destruct (generateCorridorChunk_drift zStart w) as [_ D]. rewrite D. clear D.
  unfold generateCorridorChunk.
  unfold Math_random, fresh. cbv beta iota zeta.
  match goal with |- context [pillarLoop ?a ?b ?c ?d ?e ?f ?g ?h ?i] =>
    pose proof (pillarLoop_positions 
                  (Datatypes.S (Z.to_nat (Qceiling (chunkSize / 8)))) b c e f g h i) as HP;
    pose proof (pillarLoop_completes (Z.to_nat (Qceiling (chunkSize / 8))) b c d e f g h i) as HC;
    change a with (Datatypes.S (Z.to_nat (Qceiling (chunkSize / 8)))) in *;
    destruct (pillarLoop (Datatypes.S (Z.to_nat (Qceiling (chunkSize / 8)))) b c d e f g h i)
      as [[c' w']|]
  end.
  - destruct (alignBase_grid (zStart - chunkSize / 2 - chunkSize / 2))
      as (A1 & A2 & A3).
    destruct (HP c' w' (zStart - chunkSize / 2 - chunkSize / 2) _ A1 A2 eq_refl)
      as (new & N1 & N2 & N3).
    exists new. simpl in N1, N2 |- *. split; [exact N1|]. split.
    + apply N3. unfold chunkSize in *. lra.
    + unfold driftStep, draw. simpl.
      replace (rndPos w + 2)%nat with (Datatypes.S (Datatypes.S (rndPos w))) by lia.
      assert (E2 : 20 / 2 == 10) by reflexivity.
      eapply pairsOnGrid_weaken; [| |exact N2]; unfold chunkSize; rewrite E2; lra.
  - exfalso. apply HC; [lra| |reflexivity].
    destruct (alignBase_grid (zStart - chunkSize / 2 - chunkSize / 2))
      as (A1 & A2 & A3).
    change (inject_Z (Z.of_nat (Z.to_nat (Qceiling (chunkSize / 8))))) with 3.
    unfold chunkSize in *. lra.
Qed.

(** With the oracle at one half there is no jitter: the chunk that starts at
    -40 puts its pillar pairs at -56 and -48. *)
Example obstacles_at_minus_40 :
  map (fun p => Qred (pz p))
    (pillarPositions (env (generateCorridorChunk (-40) (initWorld (fun _ => 1 # 2)))))
  = [-56; -56; -48; -48].
Proof. vm_compute. reflexivity. Qed.

(** ** More on the estimator *)

Lemma monitorParanoia_finite w dt l :
  paranoiaLevel (sys w) = Fin l ->
  exists a,
    a == l + paranoiaChange (metrics (player w)) dt /\
    paranoiaLevel (sys (monitorParanoia (Number (Fin dt)) w)) =
      Fin (Qmax 0 (Qmin a maxParanoia)).
Proof.
  intros Hl. destruct (accrue_level w dt l Hl) as (a & Ha & Hc).
  exists a. split; [exact Hc|]. rewrite monitorParanoia_level, Ha. reflexivity.
Qed.

(** X1.  The trend of the level in one update of step [dt > 0]: it rises
    while the player looks back or has run forward for more than 3 s,
    stationary or not (unless it is at the maximum); it falls when the
    player does not look back, has run forward for at most 3 s, and is
    stationary or has run for under 3 s (unless it is at 0); and it is kept
    when the player does not look back and moves with exactly 3 s of forward
    time. *)
Theorem paranoia_trend (w : World) (dt l : Q) :
  paranoiaLevel (sys w) = Fin l ->
  0 <= l <= maxParanoia ->
  0 < dt ->
  let p := metrics (player w) in
  exists l',
    paranoiaLevel (sys (monitorParanoia (Number (Fin dt)) w)) = Fin l' /\
    (isLookingBack p = true \/ 3 < continuousForwardTime p ->
     l < maxParanoia -> l < l') /\
    (isLookingBack p = false ->
     continuousForwardTime p <= 3 ->
     isStationary p = true \/ continuousForwardTime p < 3 ->
     0 < l -> l' < l) /\
    (isLookingBack p = false ->
     isStationary p = false ->
     continuousForwardTime p == 3 -> l' == l).
Proof.
  intros Hl Hr Hdt. cbv zeta.
  destruct (monitorParanoia_finite w dt l Hl) as (a & Ha & ->).
  eexists. split; [reflexivity|].
  unfold paranoiaChange, maxParanoia in *.
  destruct (isLookingBack (metrics (player w)));
  destruct (isStationary (metrics (player w)));
  destruct (3 <? continuousForwardTime (metrics (player w))) eqn:E1;
  destruct (continuousForwardTime (metrics (player w)) <? 3) eqn:E2;
  reflect_tests; simpl in Ha;
  destruct (Qmin_spec a 100) as [[? ->]|[? ->]];
  (destruct (Qmax_spec 0 a) as [[? ->]|[? ->]] ||
   destruct (Qmax_spec 0 100) as [[? ->]|[? ->]]);
  repeat split; intros; try discriminate;
  repeat match goal with H : _ \/ _ |- _ => destruct H end;
  try discriminate; lra.
Qed.

Lemma paranoia_trend_witness :
  let w := upd_sys (set_paranoiaLevel (Fin 50))
             (set_player runningPlayer (initWorld (fun _ => 0))) in
  exists l',
    paranoiaLevel (sys (monitorParanoia (Number (Fin 1)) w)) = Fin l' /\
    50 < l'.
Proof.
  cbv zeta.
  destruct (paranoia_trend
              (upd_sys (set_paranoiaLevel (Fin 50))
                 (set_player runningPlayer (initWorld (fun _ => 0)))) 1 50)
    as (l' & E & Hup & _);
    [reflexivity | split; unfold Qle; simpl; lia | reflexivity |].
  exists l'. split; [exact E|]. apply Hup.
  - right. reflexivity.
  - reflexivity.
Defined.


(** What one update does to the latch, the timer and the firing count, in
    terms of the state before it and the level after it. *)
Lemma monitorParanoia_hold delta w :
  let w' := monitorParanoia delta w in
  let fired :=
    (paranoiaLevel (sys w') >=? Fin 99)%js &&
    (holdTimer w + ToNumber delta >? Fin 20.0)%js &&
    negb (endgameTriggered (sys w)) in
  endgameTriggered (sys w') = endgameTriggered (sys w) || fired /\
  firings w' = (if fired then S (firings w) else firings w) /\
  maxParanoiaTimer (sys w') =
    if (paranoiaLevel (sys w') >=? Fin 99)%js then
      Some (holdTimer w + ToNumber delta)%js
    else
      match maxParanoiaTimer (sys w) with
      | Some t =>
          if (t >? Fin 0)%js then Some (t - ToNumber delta * Fin 0.5)%js
          else Some t
      | None => None
      end.
Proof.
  cbv zeta. unfold monitorParanoia.
  destruct (estimate_rest delta w) as (E1 & E2 & E3 & E4 & E5 & E6 & _).
  set (w1 := reportStatus (clampLevel (accrue delta w))) in *.
  destruct (endgameHold_rest delta w1) as (R1 & _). rewrite R1.
  assert (Hh : holdTimer w1 = holdTimer w)
    by (unfold holdTimer; rewrite E3; reflexivity).
  pose proof (endgameHold_timer delta w1) as Ht. rewrite Hh, E3 in Ht.
  assert (Hf : fires delta w1 =
               (paranoiaLevel (sys w1) >=? Fin 99)%js &&
               (holdTimer w + ToNumber delta >? Fin 20.0)%js &&
               negb (endgameTriggered (sys w)))
    by (unfold fires; rewrite Hh, E2; reflexivity).
  rewrite <- Hf.
  destruct (fires delta w1) eqn:F.
  - destruct (endgameHold_fires _ _ F) as (A1 & _ & _ & _ & _ & A6).
    rewrite A1, A6, E6, orb_true_r. repeat apply conj; [reflexivity..|exact Ht].
  - destruct (endgameHold_idle _ _ F) as (A1 & _ & _ & _ & A5).
    rewrite A1, A5, E2, E6, orb_false_r. repeat apply conj; [reflexivity..|exact Ht].
Qed.

(** X2.  While the latch is open the hold timer never stays above 20 s: if
    it was at most 20 before an update of step [dt >= 0] and the update did
    not close the latch, it is at most 20 after it. *)
Theorem open_latch_timer_bound (w : World) (dt t : Q) :
  holdTimer w = Fin t ->
  t <= 20 ->
  0 <= dt ->
  endgameTriggered (sys (monitorParanoia (Number (Fin dt)) w)) = false ->
  exists t',
    holdTimer (monitorParanoia (Number (Fin dt)) w) = Fin t' /\ t' <= 20.
Proof.
  intros Hh Ht Hdt Hopen.
  destruct (monitorParanoia_hold (Number (Fin dt)) w) as (L & _ & T).
  cbv zeta in *. rewrite Hopen in L. symmetry in L.
  apply orb_false_iff in L. destruct L as [L1 L2].
  unfold holdTimer at 1. rewrite T. rewrite Hh in *. simpl in *.
  destruct (paranoiaLevel (sys (monitorParanoia (Number (Fin dt)) w)) >=? Fin 99)%js.
  - eexists. split; [reflexivity|]. rewrite L1 in L2. simpl in L2.
    unfold Qltb in L2. apply andb_false_iff in L2. destruct L2 as [L2|L2];
      [|discriminate].
    apply negb_false_iff, Qle_bool_iff in L2. lra.
  - unfold holdTimer in Hh. destruct (maxParanoiaTimer (sys w)) as [t0|].
    + subst t0. simpl. destruct (0 <? t) eqn:G; reflect_tests;
        eexists; (split; [reflexivity|]); lra.
    + injection Hh as <-. exists 0. split; [reflexivity|lra].
Qed.


Lemma Qltb_compat a b a' b' : a == a' -> b == b' -> (a <? b) = (a' <? b').
Proof. intros Ha Hb. unfold Qltb. rewrite Ha, Hb. reflexivity. Qed.


Lemma open_latch_timer_bound_witness :
  holdTimer bleedWorld = Fin 10 /\
  10 <= 20 /\ 0 <= 1 /\
  endgameTriggered (sys (monitorParanoia (Number (Fin 1)) bleedWorld)) = false /\
  exists t',
    holdTimer (monitorParanoia (Number (Fin 1)) bleedWorld) = Fin t' /\ t' <= 20.
Proof.
  split; [reflexivity|]. split; [unfold Qle; simpl; lia|].
  split; [unfold Qle; simpl; lia|]. split; [vm_compute; reflexivity|].
  apply (open_latch_timer_bound bleedWorld 1 10);
    [reflexivity | unfold Qle; simpl; lia | unfold Qle; simpl; lia
    | vm_compute; reflexivity].
Defined.


(** ** More on the game loop *)

Lemma systemUpdate_level time delta w :
  paranoiaLevel (sys (FacilitySystem.update time delta w)) =
  paranoiaLevel (sys (monitorParanoia delta w)).
Proof.
  rewrite systemUpdate_unfold.
  generalize (getParanoiaFactor (monitorParanoia delta w)). intros f.
  generalize (monitorParanoia delta w). intros w1.
  assert (S2 : paranoiaLevel (sys (setDriftIntensity (driftIntensityOf f) w1)) =
               paranoiaLevel (sys w1)) by reflexivity.
  revert S2. generalize (setDriftIntensity (driftIntensityOf f) w1). intros w2 S2.
  destruct (checkMessaging_steady time f w2) as (_ & _ & _ & C & _).
  destruct (handleRandomEvents_steady time delta f (checkMessaging time f w2))
    as (_ & _ & _ & H & _).
  congruence.
Qed.

Lemma animate_level f w :
  paranoiaLevel (sys (animate f w)) =
  match currentZone w with
  | INTRO => paranoiaLevel (sys w)
  | CORRIDOR => paranoiaLevel (sys (monitorParanoia (frDelta f) w))
  end.
Proof.
  unfold animate.
  destruct (frameTail_mild f (zoneLogic f w)) as [(_ & _ & T & _) _].
  rewrite T.
  destruct (zoneLogic_cases f w)
    as [[Z ->] | [(Z & _ & _ & _ & M & _) | (Z & _ & _ & _ & M & _)]];
    rewrite Z; [reflexivity | exact M | rewrite M; apply systemUpdate_level].
Qed.

Lemma animate_zone f w :
  currentZone w = CORRIDOR -> currentZone (animate f w) = CORRIDOR.
Proof.
  intros Z. destruct (currentZone (animate f w)) eqn:E; [|reflexivity].
  apply animate_intro in E. destruct E as [E _]. congruence.
Qed.

(** X4.  Over any sequence of frames whose clock deltas are numbers, a level
    in range stays in range (and so does the factor it yields). *)
Theorem run_level_in_range (fs : list Frame) (w : World) (l : Q) :
  Forall finiteFrame fs ->
  paranoiaLevel (sys w) = Fin l ->
  0 <= l <= maxParanoia ->
  exists l',
    paranoiaLevel (sys (run fs w)) = Fin l' /\ 0 <= l' <= maxParanoia.
Proof.
  intros Hfs. revert w l.
  induction Hfs as [|f fs (d & Hd) _ IH]; intros w l Hl Hr; [exists l; auto|].
  rewrite run_cons.
  assert (A : exists l1, paranoiaLevel (sys (animate f w)) = Fin l1 /\
                         0 <= l1 <= maxParanoia).
  { rewrite animate_level. destruct (currentZone w); [exists l; auto|].
    rewrite Hd. destruct (monitorParanoia_finite w d l Hl) as (a & _ & ->).
    eexists. split; [reflexivity|]. unfold maxParanoia.
    destruct (Qmin_spec a 100) as [[? ->]|[? ->]].
    - destruct (Qmax_spec 0 a) as [[? ->]|[? ->]]; lra.
    - destruct (Qmax_spec 0 100) as [[? ->]|[? ->]]; lra. }
  destruct A as (l1 & A1 & A2). apply (IH _ l1 A1 A2).
Qed.

Lemma run_level_in_range_witness :
  Forall finiteFrame (repeat spinFrame 8) /\
  exists l',
    paranoiaLevel (sys spinWorld) = Fin l' /\ 0 <= l' <= maxParanoia.
Proof.
  assert (F : Forall finiteFrame (repeat spinFrame 8)).
  { repeat constructor; exists 1; reflexivity. }
  split; [exact F|].
  apply (run_level_in_range (repeat spinFrame 8) (initWorld (fun _ => 1 # 2)) 0 F);
    [reflexivity | split; unfold Qle; simpl; lia].
Defined.

(** X5.  The corridor zone is never left: once [currentZone] is CORRIDOR it
    stays so over every sequence of frames. *)
Theorem corridor_is_absorbing (fs : list Frame) (w : World) :
  currentZone w = CORRIDOR -> currentZone (run fs w) = CORRIDOR.
Proof.
  revert w. induction fs as [|f fs IH]; intros w Z; [exact Z|].
  rewrite run_cons. apply IH, animate_zone, Z.
Qed.

Lemma corridor_is_absorbing_witness :
  currentZone lookingBackWorld = CORRIDOR /\
  currentZone (run [idleFrame; nanFrame; spinFrame] lookingBackWorld) = CORRIDOR.
Proof.
  split; [reflexivity|]. apply corridor_is_absorbing. reflexivity.
Defined.

(** ** More on eviction *)

Lemma removeChunk_pillars c w :
  pillarPositions (env (removeChunk c w)) =
  filter (fun p => clearOf p c) (pillarPositions (env w)).
Proof.
  unfold removeChunk, removeLightsInChunk.
  match goal with
  | |- pillarPositions (env (upd_env _ (fold_left ?f ?l ?w0))) = _ =>
      assert (H : pillarPositions (env (fold_left f l w0)) =
                  pillarPositions (env w))
  end.
  - match goal with |- pillarPositions (env (fold_left _ _ ?w0)) = _ =>
      assert (H0 : pillarPositions (env w0) = pillarPositions (env w))
        by reflexivity;
      revert H0; generalize w0 end.
    induction (cchildren c) as [|o os IH]; intros w0 H0; simpl; [exact H0|].
    apply IH. exact H0.
  - match goal with
    | |- pillarPositions (env (upd_env _ ?w1)) = _ =>
        revert H; generalize w1; intros w2 H
    end.
    simpl. rewrite H. reflexivity.
Qed.

Lemma filter_filter {A} (f g : A -> bool) (l : list A) :
  filter g (filter f l) = filter (fun x => f x && g x) l.
Proof.
  induction l as [|x l IH]; [reflexivity|]. simpl.
  destruct (f x); simpl; [destruct (g x)|]; rewrite IH; reflexivity.
Qed.

Lemma pillars_splice j w :
  pillarPositions
    (env (upd_env (fun g => set_chunks (splice1 j (chunks g)) g) w)) =
  pillarPositions (env w).
Proof. reflexivity. Qed.

Lemma firstn_splice1 {A} (l : list A) : forall j,
  firstn j (splice1 j l) = firstn j l.
Proof.
  induction l as [|x l IH]; intros [|j]; simpl; try reflexivity.
  rewrite IH. reflexivity.
Qed.

Lemma cleanupLoop_pillars thr i : forall w,
  pillarPositions (env (cleanupLoop thr i w)) =
  filter (fun p =>
            forallb (clearOf p)
              (filter (fun c => thr <? cz c) (firstn i (chunks (env w)))))
    (pillarPositions (env w)).
Proof.
  induction i as [|j IH]; intros w.
  - simpl. induction (pillarPositions (env w)) as [|p ps IHp]; [reflexivity|].
    simpl. rewrite <- IHp. reflexivity.
  - cbn [cleanupLoop].
    destruct (nth_error (chunks (env w)) j) as [c|] eqn:N.
    + destruct (nth_error_split _ _ _ N) as [HF _]. rewrite HF, filter_app.
      cbn [filter]. destruct (thr <? cz c) eqn:T.
      * rewrite IH, pillars_splice, removeChunk_pillars, chunks_splice,
          removeChunk_chunks, firstn_splice1, filter_filter.
        apply filter_ext. intros p. rewrite forallb_app. simpl.
        rewrite andb_true_r. apply andb_comm.
      * rewrite IH, app_nil_r. reflexivity.
    + rewrite IH. apply nth_error_None in N.
      rewrite !firstn_all2 by lia. reflexivity.
Qed.

(** X6.  What [cleanupChunks] leaves: exactly the chunks whose centre is at
    most 40 units behind the player, in their order; and exactly the pillar
    positions that lie less than 20 units behind the centre of every
    evicted chunk. *)
Theorem cleanupChunks_result (playerZ : Q) (w : World) :
  chunks (env (cleanupChunks playerZ w)) =
    filter (fun c => cz c <=? playerZ + 40) (chunks (env w)) /\
  pillarPositions (env (cleanupChunks playerZ w)) =
    filter (fun p => forallb (clearOf p) (evicted playerZ (chunks (env w))))
      (pillarPositions (env w)).
Proof.
  unfold cleanupChunks, evicted. split.
  - rewrite cleanupLoop_chunks, firstn_all, skipn_all, app_nil_r.
    apply filter_ext. intros c. unfold kept, Qltb. apply negb_involutive.
  - rewrite cleanupLoop_pillars, firstn_all. reflexivity.
Qed.

(** ** Lights *)

Lemma random_range w : 0 <= fst (Math_random w) < 1.
Proof. apply frac_range. Qed.

Lemma flickerLight_flickered l w :
  flickered l (fst (flickerLight l w)) /\
  exists n, snd (flickerLight l w) = set_rndPos n w.
Proof.
  unfold flickerLight, Math_random. cbv beta iota zeta.
  destruct (frac (rnd w (rndPos w)) <? 0.3);
    [|split; [repeat split; left; reflexivity | eexists; reflexivity]].
  cbn [rnd rndPos set_rndPos].
  destruct (frac (rnd w (S (rndPos w))) <? 0.5).
  - unfold flickered, flickerHit.
    destruct l as [i p x v o [m|]]; cbn;
      (split; [|eexists; reflexivity]); repeat split; right;
      exists 0.0; (split; [reflexivity|]); left; (split; [reflexivity|]);
      repeat split.
  - pose proof (frac_range (rnd w (S (S (rndPos w))))) as R.
    set (r3 := frac (rnd w (S (S (rndPos w))))) in *.
    assert (M : (0.1 + r3 * 1.1 <? 0.05) = false) by (apply Qltb_ge; lra).
    unfold flickered, flickerHit.
    destruct l as [i p x v o [m|]]; cbn; rewrite ?M; cbn;
      (split; [|eexists; reflexivity]); repeat split; right;
      exists (0.1 + r3 * 1.1); (split; [reflexivity|]); right;
      (split; [lra|]); repeat split.
Qed.

Lemma set_rndPos_twice n m w : set_rndPos n (set_rndPos m w) = set_rndPos n w.
Proof. reflexivity. Qed.

Lemma flickerEach_flickered ls : forall w,
  Forall2 flickered ls (fst (flickerEach ls w)) /\
  exists n, snd (flickerEach ls w) = set_rndPos n w.
Proof.
  induction ls as [|l ls IH]; intros w; cbn [flickerEach].
  - split; [constructor | exists (rndPos w); destruct w; reflexivity].
  - destruct (flickerLight_flickered l w) as [F [n E]].
    destruct (flickerLight l w) as [l' w1]. cbn [fst snd] in F, E. subst w1.
    destruct (IH (set_rndPos n w)) as [F2 [n2 E2]].
    destruct (flickerEach ls (set_rndPos n w)) as [ls' w2].
    cbn [fst snd] in *. subst w2.
    split; [constructor; assumption | exists n2; apply set_rndPos_twice].
Qed.

(** X7.  Outside a blackout [flickerLights] only rewrites the light list and
    moves the oracle: it keeps the number, identity, parent and original
    intensity of the lights, and each light is either untouched or set to 0
    with its mesh hidden, or to between 10% and 120% of its original
    intensity with its mesh shown. *)
Theorem flickerLights_spec (w : World) :
  forceBlackout (env w) = false ->
  exists ls n,
    flickerLights w = upd_env (set_lights ls) (set_rndPos n w) /\
    Forall2 flickered (lights (env w)) ls.
Proof.
  intros H. unfold flickerLights. rewrite H.
  destruct (flickerEach_flickered (lights (env w)) w) as [F [n E]].
  destruct (flickerEach (lights (env w)) w) as [ls w1]. cbn [fst snd] in *.
  subst w1. exists ls, n. split; [reflexivity | exact F].
Qed.

Lemma flickerLights_spec_witness :
  forceBlackout (env spinWorld) = false /\
  exists ls n,
    flickerLights spinWorld = upd_env (set_lights ls) (set_rndPos n spinWorld) /\
    Forall2 flickered (lights (env spinWorld)) ls.
Proof.
  split; [reflexivity|]. apply flickerLights_spec. reflexivity.
Defined.

Lemma Forall2_map_r {A B} (R : A -> B -> Prop) (f : A -> B) (l : list A) :
  (forall x, R x (f x)) -> Forall2 R l (map f l).
Proof. intros H. induction l; simpl; constructor; auto. Qed.

(** X8.  [updateLights].  Under a forced blackout every light goes to 0 and
    every mesh is hidden.  Otherwise, for a numeric step [dt], every light
    with a non-zero original intensity moves the fraction [5 dt] of the way
    back to it, so a step of 0.2 s restores it exactly; identity, parent and
    original intensity are kept in both cases. *)
Theorem updateLights_spec (w : World) :
  (forceBlackout (env w) = true ->
   forall delta,
     Forall2 blackedOut (lights (env w))
       (lights (env (updateLights delta w)))) /\
  (forceBlackout (env w) = false ->
   forall dt,
     Forall (fun l => ~ originalIntensity l == 0) (lights (env w)) ->
     Forall2 (restored dt) (lights (env w))
       (lights (env (updateLights (Number (Fin dt)) w)))).
Proof.
  split; intros H; unfold updateLights; rewrite H.
  - intros delta. cbn. apply Forall2_map_r. intros [i p x v o [m|]]; cbn;
      repeat split.
  - intros dt Hnz. cbn.
    induction Hnz as [|l ls Hl _ IH]; cbn; constructor; [|exact IH].
    unfold restoreLight.
    assert (E : Qeq_bool (originalIntensity l) 0 = false).
    { destruct (Qeq_bool (originalIntensity l) 0) eqn:E; [|reflexivity].
      apply Qeq_bool_iff in E. contradiction. }
    rewrite E. destruct l as [i p x v o [m|]]; cbn; repeat split;
      intros x0 Hx; cbn in Hx; subst x; cbn; eexists; (split; [reflexivity|]); ring.
Qed.

Lemma updateLights_spec_witness :
  forceBlackout (env darkWorld) = true /\
  Forall2 blackedOut (lights (env darkWorld))
    (lights (env (updateLights Undefined darkWorld))) /\
  forceBlackout (env spinWorld) = false /\
  Forall2 (restored 0.2) (lights (env spinWorld))
    (lights (env (updateLights (Number (Fin 0.2)) spinWorld))).
Proof.
  destruct (updateLights_spec darkWorld) as [B _].
  destruct (updateLights_spec spinWorld) as [_ R].
  split; [reflexivity|]. split; [apply B; reflexivity|].
  split; [reflexivity|]. apply R; [reflexivity|].
  vm_compute. repeat constructor; discriminate.
Defined.

(** ** Chunk generation *)

Lemma createPillar_env c rw rh zPos cwz w :
  let r := createPillar c rw rh zPos cwz w in
  cid (fst r) = cid c /\
  chunks (env (snd r)) = chunks (env w) /\
  zOffset (env (snd r)) = zOffset (env w) /\
  List.length (pillarPositions (env (snd r))) =
    S (S (List.length (pillarPositions (env w)))) /\
  exists l,
    lights (env (snd r)) = lights (env w) ++ [l] /\
    freshLight (cid c) (lightDimming (drift (env w))) l.
Proof.
  cbv zeta. unfold createPillar, Math_random, fresh. cbn.
  split; [reflexivity|]. split; [reflexivity|]. split; [reflexivity|].
  split; [rewrite length_app; cbn; lia|].
  eexists. split; [reflexivity|].
  unfold freshLight. cbn. repeat split. eexists. repeat split.
Qed.

Lemma pillarLoop_env fuel : forall gZ limit c rw rh cwz w c' w',
  pillarLoop fuel gZ limit 8 c rw rh cwz w = Some (c', w') ->
  cid c' = cid c /\
  chunks (env w') = chunks (env w) /\
  zOffset (env w') = zOffset (env w) /\
  exists new,
    lights (env w') = lights (env w) ++ new /\
    Forall (freshLight (cid c) (lightDimming (drift (env w)))) new /\
    List.length (pillarPositions (env w')) =
      (List.length (pillarPositions (env w)) + 2 * List.length new)%nat /\
    limit - gZ <= 8 * inject_Z (Z.of_nat (List.length new)) /\
    (gZ < limit ->
     8 * inject_Z (Z.of_nat (List.length new)) < limit - gZ + 8) /\
    (limit <= gZ -> new = []).
Proof.
  induction fuel as [|fuel IH]; intros gZ limit c rw rh cwz w c' w' H;
    cbn [pillarLoop] in H; [discriminate|].
  destruct (gZ <? limit) eqn:G; reflect_tests.
  - destruct (createPillar_env c rw rh (gZ - cwz) cwz w)
      as (P1 & P2 & P3 & P4 & l & P5 & P6).
    pose proof (quiet_createPillar c rw rh (gZ - cwz) cwz w) as HQ.
    destruct (createPillar c rw rh (gZ - cwz) cwz w) as [c1 w1].
    cbn [fst snd] in *. destruct HQ as (_ & D & _).
    destruct (IH _ _ _ _ _ _ _ _ _ H)
      as (I1 & I2 & I3 & new & I4 & I5 & I6 & I7 & I8 & I9).
    split; [congruence|]. split; [congruence|]. split; [congruence|].
    exists (l :: new). split; [rewrite I4, P5, <- app_assoc; reflexivity|].
    split; [constructor; [exact P6 | rewrite <- D, <- P1; exact I5]|].
    split; [rewrite I6, P4; cbn [List.length]; lia|].
    cbn [List.length]. rewrite Nat2Z.inj_succ, <- Z.add_1_r, inject_Z_plus.
    change (inject_Z 1) with 1. split; [lra|]. split; [|intros C; lra].
    intros _.
    destruct (Qlt_le_dec (gZ + 8) limit) as [L|L]; [specialize (I8 L); lra|].
    rewrite (I9 L). change (inject_Z (Z.of_nat (@List.length Light []))) with 0. lra.
  - injection H as <- <-. do 3 (split; [reflexivity|]).
    exists []. rewrite app_nil_r. split; [reflexivity|].
    split; [constructor|]. split; [cbn; lia|].
    change (inject_Z (Z.of_nat (@List.length Light []))) with 0.
    split; [lra|]. split; [intros C; lra | reflexivity].
Qed.


(** ** The generator's update *)

Lemma sameSite_refl w : sameSite w w.
Proof. repeat split. Qed.

Lemma sameSite_trans w1 w2 w3 : sameSite w1 w2 -> sameSite w2 w3 -> sameSite w1 w3.
Proof.
  unfold sameSite. intros (A1 & A2 & A3 & A4 & A5 & A6) (B1 & B2 & B3 & B4 & B5 & B6).
  repeat split; congruence.
Qed.

Lemma sameSite_updateLights delta w : sameSite w (updateLights delta w).
Proof. unfold updateLights. destruct (forceBlackout (env w)); repeat split. Qed.

Lemma sameSite_removeChunk c w : sameSite w (removeChunk c w).
Proof.
  unfold removeChunk, removeLightsInChunk.
  match goal with
  | |- sameSite _ (upd_env _ (fold_left ?f ?l ?w0)) =>
      assert (H : sameSite w (fold_left f l w0))
  end.
  - match goal with |- sameSite _ (fold_left _ _ ?w0) =>
      assert (H0 : sameSite w w0) by (repeat split); revert H0; generalize w0 end.
    induction (cchildren c) as [|o os IH]; intros w0 H0; simpl; [exact H0|].
    apply IH. eapply sameSite_trans; [exact H0|]. repeat split.
  - eapply sameSite_trans; [exact H|]. repeat split.
Qed.

Lemma sameSite_cleanupLoop thr i : forall w, sameSite w (cleanupLoop thr i w).
Proof.
  induction i as [|j IH]; intros w; simpl; [apply sameSite_refl|].
  destruct (nth_error (chunks (env w)) j) as [c|]; [|apply IH].
  destruct (thr <? cz c); [|apply IH].
  eapply sameSite_trans; [apply (sameSite_removeChunk c w)|].
  eapply sameSite_trans; [|apply IH]. repeat split.
Qed.

Lemma sameSite_spawn n : forall w, sameSite w (spawn n w).
Proof.
  induction n as [|n IH]; intros w; simpl; [apply sameSite_refl|].
  eapply sameSite_trans; [|apply IH]. repeat split.
Qed.

Lemma spawn_chunks n : forall w, chunks (env (spawn n w)) = chunks (env w).
Proof. induction n as [|n IH]; intros w; simpl; [reflexivity|]. rewrite IH. reflexivity. Qed.

Lemma spawn_lights n : forall w, lights (env (spawn n w)) = lights (env w).
Proof. induction n as [|n IH]; intros w; simpl; [reflexivity|]. rewrite IH. reflexivity. Qed.

Lemma spawn_marks n : forall w,
  blackHole (env (spawn n w)) = blackHole (env w) /\
  endgameTargetZ (env (spawn n w)) = endgameTargetZ (env w) /\
  corridorEndZ (env (spawn n w)) = corridorEndZ (env w).
Proof.
  induction n as [|n IH]; intros w; simpl; [auto|].
  destruct (IH (scene_add (nextId (env w)) (snd (fresh w)))) as (A & B & C).
  unfold fresh in *. simpl in *. auto.
Qed.

Lemma updateEndgame_frame p w :
  let w' := updateEndgame p w in
  sameSite w w' /\
  chunks (env w') = chunks (env w) /\
  lights (env w') = lights (env w).
Proof.
  cbv zeta. unfold updateEndgame.
  destruct (blackHole (env w)); [split; [apply sameSite_refl|auto]|].
  destruct (truthy (endgameTargetZ (env w))); [split; [apply sameSite_refl|auto]|].
  destruct (rev (chunks (env w))) as [|lastChunk ?]; cbv beta iota zeta;
    unfold log;
    match goal with
    | |- context [spawn 2 (spawn 4 (upd_env ?f (spawn 1 ?w0)))] =>
        pose proof (sameSite_spawn 2 (spawn 4 (upd_env f (spawn 1 w0)))) as S2;
        pose proof (sameSite_spawn 4 (upd_env f (spawn 1 w0))) as S4;
        pose proof (sameSite_spawn 1 w0) as S1;
        pose proof (spawn_chunks 2 (spawn 4 (upd_env f (spawn 1 w0)))) as C2;
        pose proof (spawn_chunks 4 (upd_env f (spawn 1 w0))) as C4;
        pose proof (spawn_chunks 1 w0) as C1;
        pose proof (spawn_lights 2 (spawn 4 (upd_env f (spawn 1 w0)))) as L2;
        pose proof (spawn_lights 4 (upd_env f (spawn 1 w0))) as L4;
        pose proof (spawn_lights 1 w0) as L1;
        generalize dependent (spawn 2 (spawn 4 (upd_env f (spawn 1 w0))));
        intros w2 S2 C2 L2;
        generalize dependent (spawn 4 (upd_env f (spawn 1 w0)));
        intros w4 S4 C4 L4 S2 C2 L2;
        generalize dependent (spawn 1 w0);
        intros w1 S1 C1 L1 S4 C4 L4
    end;
    unfold sameSite in *; simpl in *;
    (split; [|split; [rewrite C2, C4; exact C1 | rewrite L2, L4; exact L1]]);
    destruct S1 as (? & ? & ? & ? & ? & ?), S2 as (? & ? & ? & ? & ? & ?),
             S4 as (? & ? & ? & ? & ? & ?);
    repeat split; congruence.
Qed.

Lemma updateEndgame_marks p w :
  blackHole (env w) = None ->
  truthy (endgameTargetZ (env w)) = false ->
  let w' := updateEndgame p w in
  let edge :=
    match rev (chunks (env w)) with
    | c :: _ => cz c - chunkSize / 2
    | [] => p
    end in
  corridorEndZ (env w') = Some edge /\
  endgameTargetZ (env w') = Some (edge - 200) /\
  blackHole (env w') = Some (edge - 200).
Proof.
  intros B T. cbv zeta. unfold updateEndgame. rewrite B, T.
  destruct (rev (chunks (env w))) as [|lastChunk ?]; cbv beta iota zeta;
    unfold log;
    match goal with
    | |- context [spawn 2 (spawn 4 (upd_env ?f (spawn 1 ?w0)))] =>
        destruct (spawn_marks 2 (spawn 4 (upd_env f (spawn 1 w0)))) as (A2 & B2 & C2);
        destruct (spawn_marks 4 (upd_env f (spawn 1 w0))) as (A4 & B4 & C4);
        destruct (spawn_marks 1 w0) as (A1 & B1 & C1);
        generalize dependent (spawn 2 (spawn 4 (upd_env f (spawn 1 w0))));
        intros w2 A2 B2 C2;
        generalize dependent (spawn 4 (upd_env f (spawn 1 w0)));
        intros w4 A4 B4 C4 A2 B2 C2;
        generalize dependent (spawn 1 w0);
        intros w1 A1 B1 C1 A4 B4 C4
    end;
    simpl in *; rewrite C2, C4, C1, B2, B4, B1, A2, A4; repeat split.
Qed.

(** X9.  The endgame assets are spawned once: the first call of
    [updateEndgame] that finds neither a void nor a target puts the corridor
    end at the far end of the newest chunk (at the player when there is no
    chunk) and the void exactly 200 units beyond it; every other call, and
    every call after that one, changes nothing.  The chunks and the frontier
    are never touched. *)
Theorem updateEndgame_once (p1 p2 : Q) (w : World) :
  let w' := updateEndgame p1 w in
  updateEndgame p2 w' = w' /\
  chunks (env w') = chunks (env w) /\
  zOffset (env w') = zOffset (env w) /\
  match blackHole (env w) with
  | Some _ => w' = w
  | None =>
      if truthy (endgameTargetZ (env w)) then w' = w
      else
        let edge :=
          match rev (chunks (env w)) with
          | c :: _ => cz c - chunkSize / 2
          | [] => p1
          end in
        corridorEndZ (env w') = Some edge /\
        endgameTargetZ (env w') = Some (edge - 200) /\
        blackHole (env w') = Some (edge - 200)
  end.
Proof.
  cbv zeta.
  destruct (updateEndgame_frame p1 w) as ((Z & _) & C & _).
  split; [|split; [exact C|split; [exact Z|]]].
  - destruct (blackHole (env w)) as [b|] eqn:B.
    + unfold updateEndgame. rewrite B. unfold updateEndgame. rewrite B. reflexivity.
    + destruct (truthy (endgameTargetZ (env w))) eqn:T.
      * unfold updateEndgame. rewrite B, T. unfold updateEndgame. rewrite B, T.
        reflexivity.
      * destruct (updateEndgame_marks p1 w B T) as (_ & _ & H).
        generalize dependent (updateEndgame p1 w). intros w' _ _ H.
        unfold updateEndgame. rewrite H. reflexivity.
  - destruct (blackHole (env w)) as [b|] eqn:B.
    + unfold updateEndgame. rewrite B. reflexivity.
    + destruct (truthy (endgameTargetZ (env w))) eqn:T.
      * unfold updateEndgame. rewrite B, T. reflexivity.
      * apply updateEndgame_marks; assumption.
Qed.

Lemma sameSite_createPillar c rw rh z cwz w :
  sameSite w (snd (createPillar c rw rh z cwz w)).
Proof. repeat split. Qed.

Lemma sameSite_pillarLoop fuel : forall gZ limit spacing c rw rh cwz w c' w',
  pillarLoop fuel gZ limit spacing c rw rh cwz w = Some (c', w') -> sameSite w w'.
Proof.
  induction fuel as [|fuel IH]; intros gZ limit spacing c rw rh cwz w c' w' H;
    cbn [pillarLoop] in H; [discriminate|].
  destruct (gZ <? limit).
  - pose proof (sameSite_createPillar c rw rh (gZ - cwz) cwz w) as Q1.
    destruct (createPillar c rw rh (gZ - cwz) cwz w) as [c1 w1]. simpl in Q1.
    eapply sameSite_trans; [exact Q1|]. eapply IH; eassumption.
  - injection H as _ <-. apply sameSite_refl.
Qed.

(** The shape of the world after one chunk: the new chunk and its lights,
    with the dimming of the drift step. *)
Lemma generateCorridorChunk_shape (zStart : Q) (w : World) :
  let w' := generateCorridorChunk zStart w in
  sameSite w w' /\
  exists c new,
    chunks (env w') = chunks (env w) ++ [c] /\
    cid c = nextId (env w) /\
    cz c = zStart - chunkSize / 2 /\
    lights (env w') = lights (env w) ++ new /\
    (List.length new = 2 \/ List.length new = 3)%nat /\
    List.length (pillarPositions (env w')) =
      (List.length (pillarPositions (env w)) + 2 * List.length new)%nat /\
    Forall (freshLight (cid c) (lightDimming (driftStep w))) new.
Proof.
  cbv zeta.
  destruct w as [s [sc fg ch li it pp zo fb [lc ho ld po] mi ir ie sg bh et ce ds ni] p z j c o r n].
  unfold generateCorridorChunk.
  cbv -[pillarLoop Qplus Qminus Qmult Qdiv Qopp Qceiling Qfloor inject_Z Qle_bool
        Qltb frac clamp Qmax Qmin app pillarFuel chunkSize Qle Qlt Qeq
        List.length Nat.add Nat.mul freshLight originalIntensity].
  match goal with |- context [pillarLoop ?a ?b ?c ?d ?e ?f ?g ?h ?i] =>
    pose proof (pillarLoop_env
                  (Datatypes.S (Z.to_nat (Qceiling (chunkSize / 8)))) b c e f g h i) as HP;
    pose proof (sameSite_pillarLoop
                  (Datatypes.S (Z.to_nat (Qceiling (chunkSize / 8)))) b c d e f g h i) as HS;
    pose proof (pillarLoop_completes (Z.to_nat (Qceiling (chunkSize / 8))) b c d e f g h i) as HC;
    change a with (Datatypes.S (Z.to_nat (Qceiling (chunkSize / 8)))) in *;
    destruct (pillarLoop (Datatypes.S (Z.to_nat (Qceiling (chunkSize / 8)))) b c d e f g h i)
      as [[c' w']|]
  end.
  - destruct (alignBase_grid (zStart - chunkSize / 2 - chunkSize / 2))
      as (_ & A2 & A3).
    destruct (HP c' w' eq_refl) as (I1 & I2 & I3 & new & I4 & I5 & I6 & I7 & I8 & _).
    specialize (HS c' w' eq_refl).
    clear HP HC.
    destruct c' as [ci czz cc].
    destruct w' as [s' [sc' fg' ch' li' it' pp' zo' fb' dr' mi' ir' ie' sg' bh' et' ce' ds' ni'] p' z' j' c' o' r' n'].
    unfold sameSite in *.
    cbn [cid env chunks zOffset lights pillarPositions drift lightDimming
         stopGeneration isEndgame forceBlackout introRoom player] in I1, I2, I3, I4, I5, I6, HS |- *.
    split; [exact HS|].
    eexists. exists new. split; [rewrite I2; reflexivity|].
    cbn [cid cz]. split; [exact I1|]. split; [reflexivity|]. split; [exact I4|].
    unfold chunkSize in *.
    set (h := 20 / 2) in *.
    assert (E2 : h == 10) by reflexivity. clearbody h.
    assert (N : (1 < Z.of_nat (List.length new) < 4)%Z).
    { assert (B1 : inject_Z 1 < inject_Z (Z.of_nat (List.length new)))
        by (change (inject_Z 1) with 1; lra).
      assert (B2 : inject_Z (Z.of_nat (List.length new)) < inject_Z 4).
      { change (inject_Z 4) with 4.
        assert (G : inject_Z (Qceiling ((zStart - h - h) / 8)) * 8 <
                    zStart - h - h + 20) by lra.
        specialize (I8 G). lra. }
      rewrite <- Zlt_Qlt in B1, B2. lia. }
    split; [lia|]. split; [exact I6|].
    replace (n + 1)%nat with (Datatypes.S n) in * by lia.
    rewrite I1. exact I5.
  - exfalso. apply HC; [lra| |reflexivity].
    destruct (alignBase_grid (zStart - chunkSize / 2 - chunkSize / 2))
      as (A1 & A2 & A3).
    change (inject_Z (Z.of_nat (Z.to_nat (Qceiling (chunkSize / 8))))) with 3.
    unfold chunkSize in *. lra.
Qed.

(** X10.  One call of [generateCorridorChunk] appends exactly one chunk, whose
    centre is half a chunk behind [zStart], leaves the frontier to its
    caller, and adds two or three pillar pairs with one light each.  Every
    new light hangs under the new chunk, is on at its original intensity,
    and that intensity is [1.5 - lightDimming], between 0.7 and 2.0: the
    floor of 0.1 is never reached. *)
Theorem generateCorridorChunk_spec (zStart : Q) (w : World) :
  let w' := generateCorridorChunk zStart w in
  zOffset (env w') = zOffset (env w) /\
  exists c new,
    chunks (env w') = chunks (env w) ++ [c] /\
    cid c = nextId (env w) /\
    cz c = zStart - chunkSize / 2 /\
    lights (env w') = lights (env w) ++ new /\
    (List.length new = 2 \/ List.length new = 3)%nat /\
    List.length (pillarPositions (env w')) =
      (List.length (pillarPositions (env w)) + 2 * List.length new)%nat /\
    Forall (fun l =>
              freshLight (cid c) (lightDimming (drift (env w'))) l /\
              originalIntensity l == 1.5 - lightDimming (drift (env w')) /\
              0.7 <= originalIntensity l <= 2.0) new.
Proof.
  cbv zeta.
  destruct (generateCorridorChunk_drift zStart w) as [_ D]. rewrite D.
  pose proof (driftStep_in_range w) as (_ & (R1 & R2) & _).
  destruct (generateCorridorChunk_shape zStart w)
    as ((Z & _) & c & new & H1 & H2 & H3 & H4 & H5 & H6 & H7).
  split; [exact Z|]. exists c, new. do 6 (split; [assumption|]).
  eapply Forall_impl; [|exact H7].
  intros l F. split; [exact F|].
  destruct F as (_ & _ & _ & -> & _).
  destruct (Qmax_spec 0.1 (1.5 - lightDimming (driftStep w))) as [[? ->]|[? ->]];
    split; lra.
Qed.

Lemma cleanupChunks_retained playerZ w :
  chunks (env (cleanupChunks playerZ w)) = retained playerZ (chunks (env w)).
Proof.
  unfold cleanupChunks, retained.
  rewrite cleanupLoop_chunks, firstn_all, skipn_all, app_nil_r.
  apply filter_ext. intros c. unfold kept, Qltb. apply negb_involutive.
Qed.

Lemma removeChunk_lights c w :
  lights (env (removeChunk c w)) = filter attached (lights (env w)).
Proof.
  unfold removeChunk, removeLightsInChunk.
  match goal with
  | |- lights (env (upd_env _ (fold_left ?f ?l ?w0))) = _ =>
      assert (H : lights (env (fold_left f l w0)) = lights (env w0))
  end.
  - match goal with |- lights (env (fold_left _ _ ?w0)) = _ => generalize w0 end.
    induction (cchildren c) as [|o os IH]; intros w0; simpl; [reflexivity|].
    rewrite IH. reflexivity.
  - match goal with
    | |- lights (env (upd_env _ ?w1)) = _ =>
        revert H; generalize w1; intros w2 H
    end.
    simpl. rewrite H. reflexivity.
Qed.

Lemma filter_idem {A} (f : A -> bool) (l : list A) :
  filter f (filter f l) = filter f l.
Proof.
  induction l as [|a l IH]; simpl; [reflexivity|].
  destruct (f a) eqn:E; simpl; rewrite ?E, IH; reflexivity.
Qed.

Lemma cleanupLoop_lights thr i : forall w,
  lights (env (cleanupLoop thr i w)) = lights (env w) \/
  lights (env (cleanupLoop thr i w)) = filter attached (lights (env w)).
Proof.
  induction i as [|j IH]; intros w; simpl; [left; reflexivity|].
  destruct (nth_error (chunks (env w)) j) as [c|]; [|apply IH].
  destruct (thr <? cz c); [|apply IH].
  right.
  match goal with |- lights (env (cleanupLoop thr j ?w0)) = _ =>
    assert (E : lights (env w0) = filter attached (lights (env w)))
      by (change (lights (env w0)) with (lights (env (removeChunk c w)));
          apply removeChunk_lights);
    destruct (IH w0) as [-> | ->]; rewrite E, ?filter_idem; reflexivity
  end.
Qed.

Lemma updateLights_frame delta w :
  let w' := updateLights delta w in
  chunks (env w') = chunks (env w) /\
  nextId (env w') = nextId (env w) /\
  pillarPositions (env w') = pillarPositions (env w) /\
  rndPos w' = rndPos w.
Proof. unfold updateLights. destruct (forceBlackout (env w)); repeat split. Qed.

(** X11.  One call of [FacilityGenerator.update], whatever the delta.  Once
    generation has stopped, the frontier stays and the chunks are only
    evicted.  Otherwise, with the player less than 80 units from the
    frontier, exactly one chunk is appended, centred half a chunk beyond the
    old frontier, the frontier advances by one chunk, and then the chunks
    more than 40 units behind the player are evicted.  With the player 80
    units or more away nothing is built, nothing is evicted and no random
    number is drawn. *)
Theorem generatorUpdate_step (playerZ : Q) (delta : value) (w : World) :
  let w' := FacilityGenerator.update playerZ delta w in
  if stopGeneration (env w) || isEndgame (env w) then
    zOffset (env w') = zOffset (env w) /\
    chunks (env w') = retained playerZ (chunks (env w))
  else if Qabs (playerZ - zOffset (env w)) <? renderDistance then
    zOffset (env w') = zOffset (env w) - chunkSize /\
    exists c,
      cid c = nextId (env w) /\
      cz c = zOffset (env w) - chunkSize / 2 /\
      chunks (env w') = retained playerZ (chunks (env w) ++ [c])
  else
    zOffset (env w') = zOffset (env w) /\
    chunks (env w') = chunks (env w) /\
    pillarPositions (env w') = pillarPositions (env w) /\
    rndPos w' = rndPos w.
Proof.
  cbv zeta. unfold FacilityGenerator.update.
  destruct (sameSite_updateLights (sanitizeDelta delta) w) as (Z0 & S0 & E0 & _).
  destruct (updateLights_frame (sanitizeDelta delta) w) as (C0 & N0 & P0 & R0).
  generalize dependent (updateLights (sanitizeDelta delta) w).
  intros w0 Z0 S0 E0 C0 N0 P0 R0.
  rewrite S0, E0, Z0.
  destruct (stopGeneration (env w) || isEndgame (env w)).
  - destruct (updateEndgame_frame playerZ w0) as ((Z1 & _) & C1 & _).
    generalize dependent (updateEndgame playerZ w0). intros w1 Z1 C1.
    destruct (sameSite_cleanupLoop (playerZ + 40) (List.length (chunks (env w1))) w1)
      as (Z2 & _).
    rewrite cleanupChunks_retained. unfold cleanupChunks.
    split; congruence.
  - destruct (Qabs (playerZ - zOffset (env w)) <? renderDistance).
    + destruct (generateCorridorChunk_shape (zOffset (env w)) w0)
        as ((Z1 & _) & c & new & H1 & H2 & H3 & _).
      generalize dependent (generateCorridorChunk (zOffset (env w)) w0).
      intros w1 Z1 H1.
      match goal with |- context [cleanupChunks playerZ ?x] =>
        destruct (sameSite_cleanupLoop (playerZ + 40)
                    (List.length (chunks (env x))) x) as (Z2 & _);
        assert (C2 : chunks (env x) = chunks (env w1)) by reflexivity;
        assert (Z3 : zOffset (env x) = zOffset (env w1) - chunkSize) by reflexivity;
        generalize dependent x
      end.
      intros w2 Z2 C2 Z3.
      rewrite cleanupChunks_retained. unfold cleanupChunks.
      split; [congruence|].
      exists c. split; [congruence|]. split; [exact H3|]. congruence.
    + auto.
Qed.

(** ** Leaving the intro room *)

Lemma destroyIntroRoom_frame w :
  let w' := destroyIntroRoom w in
  introRoom (env w') = None /\
  chunks (env w') = chunks (env w) /\
  zOffset (env w') = zOffset (env w) /\
  lights (env w') = lights (env w).
Proof.
  unfold destroyIntroRoom. destruct (introRoom (env w)) eqn:E; repeat split.
  exact E.
Qed.

(** X12.  What [enterCorridor] does on the way out of the intro room: the
    zone becomes the corridor, the intro room is gone, and two chunks are
    appended.  The first is always centred at [-10], wherever the frontier
    is; the second is centred one and a half chunks beyond the frontier,
    which advances by two chunks.  A second call changes nothing. *)
Theorem enterCorridor_effect (w : World) :
  currentZone w = INTRO ->
  let w' := enterCorridor w in
  currentZone w' = CORRIDOR /\
  introRoom (env w') = None /\
  zOffset (env w') = zOffset (env w) - chunkSize - chunkSize /\
  (exists c1 c2,
     chunks (env w') = chunks (env w) ++ [c1; c2] /\
     cz c1 = 0 - chunkSize / 2 /\
     cz c2 = zOffset (env w) - chunkSize - chunkSize / 2) /\
  enterCorridor w' = w'.
Proof.
  intros Z. cbv zeta.
  assert (C : currentZone (enterCorridor w) = CORRIDOR)
    by apply (enterCorridor_mild w).
  split; [exact C|].
  split; [|split; [|split]].
  4: { revert C. generalize (enterCorridor w). intros w1 C.
       unfold enterCorridor. rewrite C. reflexivity. }
  all: unfold enterCorridor; rewrite Z; unfold createInitialCorridor;
    cbv beta iota zeta;
    match goal with |- context [destroyIntroRoom ?x] =>
      destruct (destroyIntroRoom_frame x) as (I0 & C0 & Z0 & _);
      change (chunks (env x)) with (chunks (env w)) in C0;
      change (zOffset (env x)) with (zOffset (env w)) in Z0;
      generalize dependent (destroyIntroRoom x)
    end; intros w0 I0 C0 Z0;
    destruct (generateCorridorChunk_shape 0 w0)
      as ((Z1 & _ & _ & _ & I1 & _) & c1 & n1 & H1 & _ & K1 & _);
    generalize dependent (generateCorridorChunk 0 w0); intros w1 Z1 I1 H1;
    match goal with |- context [generateCorridorChunk ?a ?x] =>
      destruct (generateCorridorChunk_shape a x)
        as ((Z2 & _ & _ & _ & I2 & _) & c2 & n2 & H2 & _ & K2 & _);
      set (w2 := generateCorridorChunk a x) in *;
      change (chunks (env x)) with (chunks (env w1)) in H2;
      change (introRoom (env x)) with (introRoom (env w1)) in I2;
      change (zOffset (env x)) with (zOffset (env w1) - chunkSize) in Z2, K2;
      clearbody w2
    end; simpl.
  - congruence.
  - rewrite Z2, Z1, Z0. reflexivity.
  - exists c1, c2. rewrite H2, H1, C0, <- app_assoc. split; [reflexivity|].
    split; [exact K1|]. rewrite K2, Z1, Z0. reflexivity.
Qed.

Lemma enterCorridor_effect_witness :
  currentZone (initWorld (fun _ => 0)) = INTRO /\
  currentZone (enterCorridor (initWorld (fun _ => 0))) = CORRIDOR.
Proof.
  split; [reflexivity|].
  apply (enterCorridor_effect (initWorld (fun _ => 0))). reflexivity.
Defined.

(** ** What the system leaves to the generator *)

Lemma retuned_refl l : retuned l l.
Proof. repeat split. Qed.

Lemma retuned_trans l1 l2 l3 : retuned l1 l2 -> retuned l2 l3 -> retuned l1 l3.
Proof. intros (A & B & C) (D & E & F). repeat split; congruence. Qed.

Lemma Forall2_refl {A} (R : A -> A -> Prop) (l : list A) :
  (forall a, R a a) -> Forall2 R l l.
Proof. intros H. induction l; constructor; auto. Qed.

Lemma Forall2_trans {A} (R : A -> A -> Prop) :
  (forall a b c, R a b -> R b c -> R a c) ->
  forall l1 l2 l3, Forall2 R l1 l2 -> Forall2 R l2 l3 -> Forall2 R l1 l3.
Proof.
  intros T l1 l2 l3 H. revert l3.
  induction H; intros l3 H3; inversion H3; subst; constructor; eauto.
Qed.

Lemma sameCorridor_eq w w' :
  chunks (env w') = chunks (env w) ->
  zOffset (env w') = zOffset (env w) ->
  pillarPositions (env w') = pillarPositions (env w) ->
  interactables (env w') = interactables (env w) ->
  lights (env w') = lights (env w) ->
  sameCorridor w w'.
Proof.
  intros A B C D E. unfold sameCorridor. rewrite A, B, C, D, E.
  repeat apply conj; try reflexivity. apply Forall2_refl, retuned_refl.
Qed.

Lemma sameCorridor_of w w' : corridorOf w' = corridorOf w -> sameCorridor w w'.
Proof.
  unfold corridorOf. intros E. injection E as A B C D E.
  apply sameCorridor_eq; assumption.
Qed.

Lemma sameCorridor_refl w : sameCorridor w w.
Proof. apply sameCorridor_eq; reflexivity. Qed.

Lemma sameCorridor_trans w1 w2 w3 :
  sameCorridor w1 w2 -> sameCorridor w2 w3 -> sameCorridor w1 w3.
Proof.
  intros (A1 & A2 & A3 & A4 & A5) (B1 & B2 & B3 & B4 & B5).
  repeat apply conj; try congruence.
  eapply Forall2_trans; [apply retuned_trans | exact A5 | exact B5].
Qed.

Lemma sameCorridor_env w w' : env w' = env w -> sameCorridor w w'.
Proof. intros E. apply sameCorridor_eq; rewrite E; reflexivity. Qed.

Lemma endgameHold_corridor delta w : sameCorridor w (endgameHold delta w).
Proof.
  apply sameCorridor_of; unfold corridorOf; hold_cases w delta; reflexivity.
Qed.

Lemma monitorParanoia_corridor delta w : sameCorridor w (monitorParanoia delta w).
Proof.
  unfold monitorParanoia.
  destruct (estimate_rest delta w) as (E & _).
  eapply sameCorridor_trans; [apply sameCorridor_env; exact E|].
  apply endgameHold_corridor.
Qed.

(** The scheduler touches no part of the environment and no event. *)
Lemma talk_trans (w1 w2 w3 : World) :
  (env w2 = env w1 /\ blackout (sys w2) = blackout (sys w1) /\
   endgameTriggered (sys w2) = endgameTriggered (sys w1)) ->
  (env w3 = env w2 /\ blackout (sys w3) = blackout (sys w2) /\
   endgameTriggered (sys w3) = endgameTriggered (sys w2)) ->
  env w3 = env w1 /\ blackout (sys w3) = blackout (sys w1) /\
  endgameTriggered (sys w3) = endgameTriggered (sys w1).
Proof. intros (A & B & C) (D & E & F). repeat split; congruence. Qed.

Lemma andRandomLt_talk c p w :
  let w' := snd (andRandomLt c p w) in
  env w' = env w /\ blackout (sys w') = blackout (sys w) /\
  endgameTriggered (sys w') = endgameTriggered (sys w).
Proof. unfold andRandomLt. destruct c; repeat split. Qed.

Lemma pickMessage_talk n pool : forall msg w,
  let w' := snd (pickMessage n pool msg w) in
  env w' = env w /\ blackout (sys w') = blackout (sys w) /\
  endgameTriggered (sys w') = endgameTriggered (sys w).
Proof.
  induction n as [|n IH]; intros msg w; cbn [pickMessage]; [repeat split|].
  unfold Math_random. cbv beta iota zeta.
  match goal with |- context [if ?b then _ else _] => destruct b end.
  - repeat split.
  - match goal with |- context [pickMessage n pool ?m ?w0] =>
      pose proof (IH m w0) as HQ end.
    eapply talk_trans; [|exact HQ]; repeat split.
Qed.

Lemma triggerMessage_talk time pool f w :
  let w' := triggerMessage time pool f w in
  env w' = env w /\ blackout (sys w') = blackout (sys w) /\
  endgameTriggered (sys w') = endgameTriggered (sys w).
Proof.
  unfold triggerMessage, Math_random. cbv beta iota zeta.
  match goal with |- context [pickMessage ?n ?p ?m ?w0] =>
    pose proof (pickMessage_talk n p m w0) as HQ;
    destruct (pickMessage n p m w0) as [msg w1] end.
  destruct HQ as (Q1 & Q2 & Q3).
  simpl in *. unfold logMessage.
  match goal with |- context [if ?b then _ else _] => destruct b end;
  simpl; rewrite ?Q1, ?Q2, ?Q3; repeat split.
Qed.

Ltac step_talk :=
  match goal with
  | |- context [andRandomLt ?c ?p ?w] =>
      let HQ := fresh "HT" in
      pose proof (andRandomLt_talk c p w) as HQ;
      destruct (andRandomLt c p w) as [[|] ?]; cbn [snd] in HQ;
      cbv beta iota zeta
  end.

Lemma checkMessaging_talk time f w :
  let w' := checkMessaging time f w in
  env w' = env w /\ blackout (sys w') = blackout (sys w) /\
  endgameTriggered (sys w') = endgameTriggered (sys w).
Proof.
  cbv zeta. unfold checkMessaging.
  destruct (endgameTriggered (sys w)) eqn:E1; [repeat split; assumption|].
  destruct (Fin (time - lastMessageTime (sys w)) <? currentCooldown f)%js eqn:E2;
    [repeat split; assumption|].
  rewrite <- E1.
  step_talk.
  - eapply talk_trans; [eassumption | apply triggerMessage_talk].
  - destruct (Nat.ltb 15 (List.length (zoneHistory (metrics (player w)))));
      repeat step_talk;
      repeat (eapply talk_trans; [eassumption|]);
      first [apply triggerMessage_talk | repeat split].
Qed.

Lemma flickerLights_corridor w : sameCorridor w (flickerLights w).
Proof.
  unfold flickerLights. destruct (forceBlackout (env w)); [apply sameCorridor_refl|].
  destruct (flickerEach_flickered (lights (env w)) w) as (F & n & E).
  destruct (flickerEach (lights (env w)) w) as [ls w1]. cbn [fst snd] in *. subst w1.
  unfold sameCorridor. simpl. repeat apply conj; try reflexivity.
  eapply Forall2_impl; [|exact F].
  intros l l' (A & B & _ & D & _). repeat split; assumption.
Qed.

Lemma handleRandomEvents_corridor time delta f w :
  sameCorridor w (handleRandomEvents time delta f w).
Proof.
  unfold handleRandomEvents.
  destruct (endgameTriggered (sys w)); [apply sameCorridor_refl|].
  destruct (f <? Fin 0.1)%js; [apply sameCorridor_refl|].
  destruct (boActive (blackout (sys w))).
  - unfold showMirage, hideMirage, updateMirageEffect, Math_random.
    apply sameCorridor_of; unfold corridorOf; break_tests; reflexivity.
  - unfold Math_random. cbv beta iota zeta.
    match goal with
    | |- context [if ?c then flickerLights ?W else _] =>
        assert (HW : sameCorridor w W);
        [ apply sameCorridor_of; unfold corridorOf; break_tests; reflexivity
        | destruct c;
          [ pose proof (flickerLights_corridor W) as HF;
            generalize dependent (flickerLights W); intros W' HF
          | ];
          (eapply sameCorridor_trans; [eassumption|]) ]
    end.
    + eapply sameCorridor_trans; [exact HF|].
      apply sameCorridor_of; unfold corridorOf; break_tests; reflexivity.
    + apply sameCorridor_of; unfold corridorOf; break_tests; reflexivity.
Qed.

Lemma systemUpdate_built time delta w :
  sameCorridor w (FacilitySystem.update time delta w).
Proof.
  rewrite systemUpdate_unfold.
  pose proof (monitorParanoia_corridor delta w) as M.
  generalize dependent (monitorParanoia delta w). intros w1 M.
  generalize (getParanoiaFactor w1). intros f.
  eapply sameCorridor_trans; [exact M|].
  eapply sameCorridor_trans; [|apply handleRandomEvents_corridor].
  eapply sameCorridor_trans;
    [|apply sameCorridor_env; apply (checkMessaging_talk time f)].
  apply sameCorridor_of. reflexivity.
Qed.

(** X13.  [FacilitySystem.update] never builds or removes anything: the
    chunks, the frontier, the obstacle positions and the objects that can be
    looked at are the same after it, and so is every light, of which only
    what it emits may change. *)
Theorem systemUpdate_corridor (time : Q) (delta : value) (w : World) :
  let w' := FacilitySystem.update time delta w in
  chunks (env w') = chunks (env w) /\
  zOffset (env w') = zOffset (env w) /\
  pillarPositions (env w') = pillarPositions (env w) /\
  interactables (env w') = interactables (env w) /\
  Forall2 (fun l l' => lid l' = lid l /\ lparent l' = lparent l /\
                       originalIntensity l' = originalIntensity l)
    (lights (env w)) (lights (env w')).
Proof. exact (systemUpdate_built time delta w). Qed.

(** ** Invariants of the game loop *)

Lemma frameTail_invariant (P : World -> Prop) :
  (forall d w, P w -> P (updateClock d w)) ->
  (forall z d w, P w -> P (FacilityGenerator.update z d w)) ->
  (forall p w, P w -> P (set_player p w)) ->
  (forall d w, P w -> P (updateLights d w)) ->
  forall f w, P w -> P (frameTail f w).
Proof.
  intros HC HG HP HL f w H. unfold frameTail. cbv zeta. apply HL, HG, HC, HP, H.
Qed.

Lemma animate_invariant (P : World -> Prop) :
  (forall w, P w -> P (enterCorridor w)) ->
  (forall t d w, P w -> P (FacilitySystem.update t d w)) ->
  (forall d w, P w -> P (updateClock d w)) ->
  (forall z d w, P w -> P (FacilityGenerator.update z d w)) ->
  (forall w, P w -> P (triggerJumpscare w)) ->
  (forall p w, P w -> P (set_player p w)) ->
  (forall d w, P w -> P (updateLights d w)) ->
  forall f w, P w -> P (animate f w).
Proof.
  intros HE HS HC HG HJ HP HL f w H.
  unfold animate. apply frameTail_invariant; auto.
  unfold zoneLogic. cbv zeta.
  destruct (currentZone w).
  - destruct (posZ (player w) <? 1.0); auto.
  - match goal with |- P (if ?b then _ else _) => destruct b end; auto.
Qed.

Lemma run_invariant (P : World -> Prop) :
  (forall f w, P w -> P (animate f w)) ->
  forall fs w, P w -> P (run fs w).
Proof.
  intros HA fs. induction fs as [|f fs IH]; intros w H; [exact H|].
  rewrite run_cons. apply IH, HA, H.
Qed.

Lemma reachable_invariant (P : World -> Prop) :
  (forall oracle, P (initWorld oracle)) ->
  (forall f w, P w -> P (animate f w)) ->
  forall w, reachable w -> P w.
Proof.
  intros H0 HA w (oracle & fs & ->). apply run_invariant; auto.
Qed.

Lemma generatorUpdate_invariant (P : World -> Prop) (d : value) :
  (forall w, P w -> P (updateLights (sanitizeDelta d) w)) ->
  (forall z w, P w -> P (updateEndgame z w)) ->
  (forall z w, P w -> P (cleanupChunks z w)) ->
  (forall w, P w -> P (advance w)) ->
  forall z w, P w -> P (FacilityGenerator.update z d w).
Proof.
  intros HL HE HC HA z w H. unfold FacilityGenerator.update. cbv zeta.
  specialize (HL w H).
  generalize dependent (updateLights (sanitizeDelta d) w). intros w0 H0.
  destruct (stopGeneration (env w0) || isEndgame (env w0)); [auto|].
  destruct (Qabs (z - zOffset (env w0)) <? renderDistance); [|exact H0].
  apply HC. apply (HA w0 H0).
Qed.

Lemma enterCorridor_unfold w :
  currentZone w = INTRO ->
  enterCorridor w =
  upd_sys (set_paranoia (Some (Fin 0)))
    (advance
       (upd_env (fun g => set_zOffset (zOffset g - chunkSize) g)
          (generateCorridorChunk 0
             (destroyIntroRoom (set_currentZone CORRIDOR (log MainZoneCorridor w)))))).
Proof. intros Z. unfold enterCorridor. rewrite Z. reflexivity. Qed.

Lemma enterCorridor_invariant (P : World -> Prop) :
  (forall w, P w ->
     P (upd_env (fun g => set_zOffset (zOffset g - chunkSize) g)
          (generateCorridorChunk 0
             (destroyIntroRoom (set_currentZone CORRIDOR (log MainZoneCorridor w)))))) ->
  (forall w, P w -> P (advance w)) ->
  (forall w, P w -> P (upd_sys (set_paranoia (Some (Fin 0))) w)) ->
  forall w, P w -> P (enterCorridor w).
Proof.
  intros H1 H2 H3 w H. destruct (currentZone w) eqn:Z.
  - rewrite (enterCorridor_unfold w Z). auto.
  - unfold enterCorridor. rewrite Z. exact H.
Qed.

(** ** The lattice of chunks *)

Lemma inject_nat_S k : inject_Z (Z.of_nat (S k)) == inject_Z (Z.of_nat k) + 1.
Proof. rewrite Nat2Z.inj_succ, <- Z.add_1_r, inject_Z_plus. reflexivity. Qed.

Lemma latticeZ_inj j k : latticeZ j == latticeZ k -> j = k.
Proof.
  unfold latticeZ, chunkSize. intros E.
  set (h := 20 / 2) in *. clearbody h.
  assert (H : inject_Z (Z.of_nat j) == inject_Z (Z.of_nat k)) by lra.
  apply Nat2Z.inj, inject_Z_injective, H.
Qed.

Lemma latticed_same hole w w' :
  chunks (env w') = chunks (env w) ->
  zOffset (env w') = zOffset (env w) ->
  latticed hole w -> latticed hole w'.
Proof. unfold latticed. intros -> ->. auto. Qed.

Lemma latticed_upd_sys hole f w : latticed hole w -> latticed hole (upd_sys f w).
Proof. apply latticed_same; reflexivity. Qed.

Lemma Forall_filter_keep {A} (P : A -> Prop) (f : A -> bool) (l : list A) :
  Forall P l -> Forall P (filter f l).
Proof.
  induction 1 as [|a l H _ IH]; simpl; [constructor|].
  destruct (f a); [constructor|]; assumption.
Qed.

Lemma latticed_cleanupChunks hole z w :
  latticed hole w -> latticed hole (cleanupChunks z w).
Proof.
  intros (k & Z & H & F). exists k.
  rewrite cleanupChunks_retained.
  destruct (sameSite_cleanupLoop (z + 40) (List.length (chunks (env w))) w) as (Zc & _).
  change (zOffset (env (cleanupChunks z w)) = zOffset (env w)) in Zc. rewrite Zc.
  split; [exact Z|]. split; [exact H|]. apply Forall_filter_keep, F.
Qed.

(** A chunk generated [n] cells from the origin, followed by a move of the
    frontier. *)
Lemma latticed_generate hole zStart w k n :
  zOffset (env w) == - (chunkSize * inject_Z (Z.of_nat k)) ->
  match hole with Some h => (1 <= h < S k)%nat | None => True end ->
  Forall (fun c => exists j, (j < k)%nat /\ Some j <> hole /\ cz c == latticeZ j)
    (chunks (env w)) ->
  zStart == - (chunkSize * inject_Z (Z.of_nat n)) ->
  (n <= k)%nat ->
  Some n <> hole ->
  latticed hole (upd_env (fun g => set_zOffset (zOffset g - chunkSize) g)
                   (generateCorridorChunk zStart w)).
Proof.
  intros Z H F E L N.
  destruct (generateCorridorChunk_shape zStart w)
    as ((Z1 & _) & c & new & H1 & _ & H3 & _).
  generalize dependent (generateCorridorChunk zStart w). intros w1 Z1 H1.
  exists (S k).
  match goal with |- zOffset (env ?x) == _ /\ _ /\ Forall _ (chunks (env ?x)) =>
    change (zOffset (env x)) with (zOffset (env w1) - chunkSize);
    change (chunks (env x)) with (chunks (env w1))
  end.
  rewrite Z1, H1. split; [|split; [exact H|]].
  - rewrite Z, inject_nat_S. unfold chunkSize. lra.
  - apply Forall_app. split.
    + eapply Forall_impl; [|exact F]. intros c0 (j & J & A & B).
      exists j. split; [lia|]. split; assumption.
    + constructor; [|constructor].
      exists n. split; [lia|]. split; [exact N|]. rewrite H3, E. reflexivity.
Qed.

Lemma latticed_advance hole w : latticed hole w -> latticed hole (advance w).
Proof.
  intros (k & Z & H & F). unfold advance.
  apply (latticed_generate hole _ w k k); auto.
  - destruct hole; [lia|exact I].
  - destruct hole as [h|]; [|discriminate]. intros E. injection E as E. lia.
Qed.

Lemma latticed_updateEndgame hole z w :
  latticed hole w -> latticed hole (updateEndgame z w).
Proof.
  destruct (updateEndgame_frame z w) as ((Z & _) & C & _).
  apply latticed_same; assumption.
Qed.

Lemma latticed_updateLights hole d w :
  latticed hole w -> latticed hole (updateLights d w).
Proof.
  destruct (updateLights_frame d w) as (C & _).
  destruct (sameSite_updateLights d w) as (Z & _).
  apply latticed_same; assumption.
Qed.

Lemma latticed_generatorUpdate hole z d w :
  latticed hole w -> latticed hole (FacilityGenerator.update z d w).
Proof.
  revert z w. apply generatorUpdate_invariant.
  - intros w. apply latticed_updateLights.
  - apply latticed_updateEndgame.
  - apply latticed_cleanupChunks.
  - apply latticed_advance.
Qed.

(** The first chunk of [createInitialCorridor] and the move of the frontier
    that follows it. *)
Lemma latticed_first hole w :
  latticed hole w ->
  latticed hole
    (upd_env (fun g => set_zOffset (zOffset g - chunkSize) g)
       (generateCorridorChunk 0
          (destroyIntroRoom (set_currentZone CORRIDOR (log MainZoneCorridor w))))).
Proof.
  intros (k & Z & H & F).
  match goal with |- context [destroyIntroRoom ?x] =>
    destruct (destroyIntroRoom_frame x) as (_ & C0 & Z0 & _);
    change (chunks (env x)) with (chunks (env w)) in C0;
    change (zOffset (env x)) with (zOffset (env w)) in Z0;
    generalize dependent (destroyIntroRoom x)
  end. intros w1 C1 Z1.
  apply (latticed_generate hole 0 w1 k 0%nat); try rewrite Z1; try rewrite C1; auto.
  - destruct hole; [lia|exact I].
  - unfold chunkSize. reflexivity.
  - lia.
  - destruct hole as [h|]; [|discriminate]. intros E. injection E as E. lia.
Qed.

Lemma latticed_frameTail hole f w : latticed hole w -> latticed hole (frameTail f w).
Proof.
  apply frameTail_invariant.
  - intros d w0. apply latticed_same; reflexivity.
  - intros z d w0. apply latticed_generatorUpdate.
  - intros p w0. apply latticed_same; reflexivity.
  - intros d w0. apply latticed_updateLights.
Qed.

Lemma latticed_animate hole f w : latticed hole w -> latticed hole (animate f w).
Proof.
  apply animate_invariant.
  - apply enterCorridor_invariant.
    + apply latticed_first.
    + apply latticed_advance.
    + intros w0. apply latticed_upd_sys.
  - intros t d w0. destruct (systemUpdate_built t d w0) as (C & Z & _).
    apply latticed_same; assumption.
  - intros d w0. apply latticed_same; reflexivity.
  - intros z d w0. apply latticed_generatorUpdate.
  - intros w0. apply latticed_same; unfold triggerJumpscare;
      destruct (jumpscareActive w0); reflexivity.
  - intros p w0. apply latticed_same; reflexivity.
  - intros d w0. apply latticed_updateLights.
Qed.

Lemma reachable_latticed w : reachable w -> latticed None w.
Proof.
  revert w. apply reachable_invariant.
  - intros oracle. exists 0%nat. split; [reflexivity|]. split; [exact I|constructor].
  - apply latticed_animate.
Qed.

Lemma latticeZ_value j : latticeZ j == - (20 * inject_Z (Z.of_nat j)) - 10.
Proof.
  unfold latticeZ, chunkSize.
  assert (H : 20 / 2 == 10) by reflexivity. rewrite H. reflexivity.
Qed.

(** X14.  In every state that the game loop reaches, the frontier is a whole
    number of chunks from the origin, and every chunk is centred on the
    lattice [-10, -30, -50, ...], in a cell behind the frontier: no chunk is
    ever beyond the frontier or off the lattice. *)
Theorem reachable_gridded (w : World) :
  reachable w ->
  exists k : nat,
    zOffset (env w) == - (20 * inject_Z (Z.of_nat k)) /\
    Forall (fun c => exists j, (j < k)%nat /\
                       cz c == - (20 * inject_Z (Z.of_nat j)) - 10)
      (chunks (env w)).
Proof.
  intros R. destruct (reachable_latticed w R) as (k & Z & _ & F).
  exists k. split; [exact Z|].
  eapply Forall_impl; [|exact F]. intros c (j & J & _ & E). exists j.
  split; [exact J|]. rewrite E. apply latticeZ_value.
Qed.

Lemma reachable_gridded_witness :
  reachable spinWorld /\
  exists k : nat,
    zOffset (env spinWorld) == - (20 * inject_Z (Z.of_nat k)) /\
    Forall (fun c => exists j, (j < k)%nat /\
                       cz c == - (20 * inject_Z (Z.of_nat j)) - 10)
      (chunks (env spinWorld)).
Proof.
  assert (R : reachable spinWorld)
    by (exists (fun _ => 1 # 2), (repeat spinFrame 8); reflexivity).
  split; [exact R | apply (reachable_gridded spinWorld R)].
Defined.

(** X15.  Leaving the intro room leaves a hole in the corridor.  The
    generator already builds chunks while the player is in the intro room;
    when the player walks out, [createInitialCorridor] puts its first chunk
    at the origin again and its second one cell further than the frontier.
    So if the frontier has moved before the frame in which the player walks
    out, the cell just beyond that frontier has no chunk after this frame,
    and it never gets one. *)
Theorem corridor_hole (w : World) (f : Frame) (fs : list Frame) :
  reachable w ->
  currentZone w = INTRO ->
  posZ (player w) < 1 ->
  zOffset (env w) < 0 ->
  Forall (fun c => ~ cz c == zOffset (env w) - 10)
    (chunks (env (run (f :: fs) w))).
Proof.
  intros R Z P N.
  destruct (reachable_latticed w R) as (k & Zk & _ & F).
  assert (K : (1 <= k)%nat).
  { destruct k as [|k]; [|lia]. exfalso. rewrite Zk in N.
    change (inject_Z (Z.of_nat 0)) with 0 in N. unfold chunkSize in N. lra. }
  assert (L : latticed (Some k) (run (f :: fs) w)).
  { rewrite run_cons. apply run_invariant; [apply latticed_animate|].
    unfold animate. apply latticed_frameTail.
    unfold zoneLogic. cbv zeta. rewrite Z.
    assert (T : (posZ (player w) <? 1.0) = true).
    { destruct (posZ (player w) <? 1.0) eqn:T; [reflexivity|].
      reflect_tests. lra. }
    rewrite T, (enterCorridor_unfold w Z).
    apply latticed_upd_sys.
    match goal with |- context [destroyIntroRoom ?x] =>
      destruct (destroyIntroRoom_frame x) as (_ & C0 & Z0 & _);
      change (chunks (env x)) with (chunks (env w)) in C0;
      change (zOffset (env x)) with (zOffset (env w)) in Z0;
      generalize dependent (destroyIntroRoom x)
    end. intros w1 C1 Z1.
    destruct (generateCorridorChunk_shape 0 w1)
      as ((Z2 & _) & c1 & n1 & H1 & _ & K1 & _).
    generalize dependent (generateCorridorChunk 0 w1). intros w2 Z2 H1.
    match goal with |- latticed _ (advance ?x) =>
      assert (Z3 : zOffset (env x) = zOffset (env w2) - chunkSize) by reflexivity;
      assert (C3 : chunks (env x) = chunks (env w2)) by reflexivity;
      generalize dependent x
    end. intros w3 Z3 C3.
    unfold advance.
    apply (latticed_generate (Some k) _ w3 (S k) (S k)).
    - rewrite Z3, Z2, Z1, Zk, inject_nat_S. unfold chunkSize. lra.
    - lia.
    - rewrite C3, H1, C1. apply Forall_app. split.
      + eapply Forall_impl; [|exact F]. intros c0 (j & J & _ & E).
        exists j. split; [lia|]. split; [|exact E].
        intros A. injection A as A. lia.
      + constructor; [|constructor]. exists 0%nat. split; [lia|].
        split; [intros A; injection A as A; lia|].
        rewrite K1. unfold latticeZ, chunkSize. reflexivity.
    - rewrite Z3, Z2, Z1, Zk, inject_nat_S. unfold chunkSize. lra.
    - lia.
    - intros A. injection A as A. lia. }
  destruct L as (k' & _ & _ & G).
  eapply Forall_impl; [|exact G]. intros c (j & _ & J & E) A.
  apply J. f_equal. apply latticeZ_inj.
  rewrite <- E, A, Zk. unfold latticeZ, chunkSize.
  assert (H : 20 / 2 == 10) by reflexivity. rewrite H. reflexivity.
Qed.

Lemma corridor_hole_witness :
  reachable doorstepWorld /\
  currentZone doorstepWorld = INTRO /\
  posZ (player doorstepWorld) < 1 /\
  zOffset (env doorstepWorld) < 0 /\
  Forall (fun c => ~ cz c == zOffset (env doorstepWorld) - 10)
    (chunks (env (run [spinFrame; spinFrame] doorstepWorld))).
Proof.
  assert (R : reachable doorstepWorld)
    by (exists (fun _ => 1 # 2), [spinFrame]; reflexivity).
  assert (Z : currentZone doorstepWorld = INTRO) by (vm_compute; reflexivity).
  assert (P : posZ (player doorstepWorld) < 1) by (vm_compute; reflexivity).
  assert (N : zOffset (env doorstepWorld) < 0) by (vm_compute; reflexivity).
  repeat apply conj; try assumption.
  apply (corridor_hole doorstepWorld spinFrame [spinFrame] R Z P N).
Defined.

(** ** The lights *)

Lemma blackoutLight_retuned l : retuned l (blackoutLight l).
Proof. destruct l as [i p x v o [m|]]; repeat split. Qed.

Lemma restoreLight_retuned d l : retuned l (restoreLight d l).
Proof.
  unfold restoreLight. destruct l as [i p x v o [m|]]; simpl;
    destruct (negb (Qeq_bool o 0)); repeat split.
Qed.

Lemma updateLights_retuned d w :
  Forall2 retuned (lights (env w)) (lights (env (updateLights d w))).
Proof.
  unfold updateLights. destruct (forceBlackout (env w)); simpl;
    apply Forall2_map_r; intros l;
    [apply blackoutLight_retuned | apply restoreLight_retuned].
Qed.





Lemma freshLight_attached parent dim l : freshLight parent dim l -> attached l = true.
Proof. intros (P & _). unfold attached. rewrite P. reflexivity. Qed.

(** The lights after a step of corridor building, in terms of a property
    that new lights have. *)
Lemma lights_generate (P : Light -> Prop) zStart w :
  (forall parent dim l, freshLight parent dim l -> P l) ->
  Forall P (lights (env w)) ->
  Forall P (lights (env (generateCorridorChunk zStart w))).
Proof.
  intros HP F.
  destruct (generateCorridorChunk_shape zStart w)
    as (_ & c & new & _ & _ & _ & -> & _ & _ & N).
  apply Forall_app. split; [exact F|].
  eapply Forall_impl; [|exact N]. intros l. apply HP.
Qed.






Lemma grown_retuned n w w' :
  Forall2 retuned (lights (env w)) (lights (env w')) -> grown n w -> grown n w'.
Proof.
  unfold grown. intros F (A & L). rewrite <- (Forall2_length F). split; [|exact L].
  clear L. induction F as [|l l' ls ls' (_ & P & _) _ IH]; [constructor|].
  inversion A; subst. constructor; [|auto].
  unfold attached in *. rewrite P. assumption.
Qed.

Lemma grown_same n w w' : lights (env w') = lights (env w) -> grown n w -> grown n w'.
Proof. unfold grown. intros ->. auto. Qed.

Lemma filter_all {A} (f : A -> bool) (l : list A) :
  Forall (fun a => f a = true) l -> filter f l = l.
Proof.
  induction 1 as [|a l H _ IH]; simpl; [reflexivity|]. rewrite H, IH. reflexivity.
Qed.

Lemma cleanupChunks_attached z w :
  Forall (fun l => attached l = true) (lights (env w)) ->
  lights (env (cleanupChunks z w)) = lights (env w).
Proof.
  intros A. unfold cleanupChunks.
  destruct (cleanupLoop_lights (z + 40) (List.length (chunks (env w))) w)
    as [-> | ->]; [reflexivity | apply filter_all, A].
Qed.

Lemma grown_generate n zStart w :
  grown n w -> grown n (generateCorridorChunk zStart w).
Proof.
  intros (A & L). split.
  - apply lights_generate; [apply freshLight_attached | exact A].
  - destruct (generateCorridorChunk_shape zStart w)
      as (_ & c & new & _ & _ & _ & -> & _).
    rewrite length_app. lia.
Qed.

Lemma grown_move n w :
  grown n w -> grown n (upd_env (fun g => set_zOffset (zOffset g - chunkSize) g) w).
Proof. apply grown_same. reflexivity. Qed.

Lemma grown_advance n w : grown n w -> grown n (advance w).
Proof. intros H. apply grown_move, grown_generate, H. Qed.

Lemma grown_updateLights n d w : grown n w -> grown n (updateLights d w).
Proof. apply grown_retuned, updateLights_retuned. Qed.

Lemma grown_generatorUpdate n z d w :
  grown n w -> grown n (FacilityGenerator.update z d w).
Proof.
  revert z w. apply generatorUpdate_invariant.
  - intros w. apply grown_updateLights.
  - intros z w. apply grown_same. apply (updateEndgame_frame z w).
  - intros z w H. apply (grown_same n w); [|exact H].
    apply cleanupChunks_attached, H.
  - apply grown_advance.
Qed.

Lemma grown_animate n f w : grown n w -> grown n (animate f w).
Proof.
  revert f w. apply animate_invariant.
  - apply enterCorridor_invariant.
    + intros w H. apply grown_move, grown_generate.
      revert H. apply grown_same.
      apply (destroyIntroRoom_frame
               (set_currentZone CORRIDOR (log MainZoneCorridor w))).
    + apply grown_advance.
    + intros w. apply grown_same. reflexivity.
  - intros t d w. apply grown_retuned. apply (systemUpdate_built t d w).
  - intros d w. apply grown_same. reflexivity.
  - intros z d w. apply grown_generatorUpdate.
  - intros w. apply grown_same. unfold triggerJumpscare.
    destruct (jumpscareActive w); reflexivity.
  - intros p w. apply grown_same. reflexivity.
  - intros d w. apply grown_updateLights.
Qed.

(** X17.  The lights are never released.  In every state of the game loop
    every light of [this.lights] still has a parent, so the filter of
    [removeLightsInChunk] keeps them all: [cleanupChunks] leaves the list of
    lights as it is, whatever it evicts, and over any further frames the
    list never gets shorter. *)
Theorem lights_never_released (w : World) (playerZ : Q) (fs : list Frame) :
  reachable w ->
  Forall (fun l => lparent l <> None) (lights (env w)) /\
  lights (env (cleanupChunks playerZ w)) = lights (env w) /\
  (List.length (lights (env w)) <= List.length (lights (env (run fs w))))%nat.
Proof.
  intros R.
  assert (G : grown 0 w).
  { revert w R. apply reachable_invariant.
    - intros oracle. split; [constructor | apply Nat.le_0_l].
    - intros f w. apply grown_animate. }
  destruct G as (A & _).
  split; [|split].
  - eapply Forall_impl; [|exact A]. intros l H E. unfold attached in H.
    rewrite E in H. discriminate.
  - apply cleanupChunks_attached, A.
  - apply (run_invariant (grown (List.length (lights (env w))))).
    + intros f w0. apply grown_animate.
    + split; [exact A|lia].
Qed.

Lemma lights_never_released_witness :
  reachable spinWorld /\
  lights (env (cleanupChunks (-100) spinWorld)) = lights (env spinWorld).
Proof.
  assert (R : reachable spinWorld)
    by (exists (fun _ => 1 # 2), (repeat spinFrame 8); reflexivity).
  split; [exact R | apply (lights_never_released spinWorld (-100) [] R)].
Defined.

(** ** The blackout *)

Lemma sameSwitch_dark w w' : sameSwitch w w' -> darkInBlackout w -> darkInBlackout w'.
Proof. unfold darkInBlackout. intros (-> & ->). auto. Qed.

Lemma sameSwitch_refl w : sameSwitch w w.
Proof. split; reflexivity. Qed.

Lemma sameSwitch_trans w1 w2 w3 : sameSwitch w1 w2 -> sameSwitch w2 w3 -> sameSwitch w1 w3.
Proof. unfold sameSwitch. intros (A & B) (C & D). split; congruence. Qed.

Lemma sameSwitch_of w w' :
  forceBlackout (env w') = forceBlackout (env w) ->
  blackout (sys w') = blackout (sys w) ->
  endgameTriggered (sys w') = endgameTriggered (sys w) ->
  sameSwitch w w'.
Proof.
  unfold sameSwitch, forcedDark, inBlackout. intros -> -> ->. auto.
Qed.

Lemma sameSwitch_quiet w w' :
  quiet w w' -> forceBlackout (env w') = forceBlackout (env w) -> sameSwitch w w'.
Proof.
  intros (S & _) F. apply sameSwitch_of; [exact F | rewrite S; reflexivity ..].
Qed.

Lemma endgameHold_dark delta w :
  darkInBlackout w -> darkInBlackout (endgameHold delta w).
Proof.
  unfold darkInBlackout, forcedDark, inBlackout.
  hold_cases w delta; auto; intros; discriminate.
Qed.

Lemma monitorParanoia_dark delta w :
  darkInBlackout w -> darkInBlackout (monitorParanoia delta w).
Proof.
  unfold monitorParanoia. intros H. apply endgameHold_dark.
  destruct (estimate_rest delta w) as (E & T & _ & B & _).
  revert H. apply sameSwitch_dark, sameSwitch_of; cbv zeta in *; congruence.
Qed.

Lemma flickerLights_forced w :
  forceBlackout (env (flickerLights w)) = forceBlackout (env w).
Proof.
  unfold flickerLights. destruct (forceBlackout (env w)) eqn:F; [exact F|].
  destruct (flickerEach_flickered (lights (env w)) w) as (_ & n & E).
  destruct (flickerEach (lights (env w)) w) as [ls w1]. cbn [fst snd] in *. subst w1.
  exact F.
Qed.

Lemma handleRandomEvents_dark time delta f w :
  darkInBlackout w -> darkInBlackout (handleRandomEvents time delta f w).
Proof.
  unfold handleRandomEvents. intros H.
  destruct (endgameTriggered (sys w)) eqn:ET; [exact H|].
  destruct (f <? Fin 0.1)%js; [exact H|].
  destruct (boActive (blackout (sys w))) eqn:BA.
  - clear H.
    unfold darkInBlackout, forcedDark, inBlackout, showMirage, hideMirage,
      updateMirageEffect, Math_random.
    break_tests; simpl; rewrite ?ET, ?BA; auto; intros; discriminate.
  - assert (FB : forceBlackout (env w) = false).
    { destruct (forceBlackout (env w)) eqn:FB; [|reflexivity].
      unfold darkInBlackout, forcedDark, inBlackout in H.
      rewrite FB, BA in H. specialize (H eq_refl). discriminate. }
    clear H.
    match goal with |- darkInBlackout ?x =>
      assert (E : forceBlackout (env x) = forceBlackout (env w));
      [|unfold darkInBlackout, forcedDark; rewrite E, FB; intros; discriminate]
    end.
    unfold Math_random. cbv beta iota zeta.
    match goal with
    | |- context [if ?c then flickerLights ?W else _] =>
        assert (HW : forceBlackout (env W) = forceBlackout (env w));
        [ break_tests; reflexivity
        | destruct c;
          [ pose proof (flickerLights_forced W) as HF;
            generalize dependent (flickerLights W); intros W' HF
          | ] ]
    end.
    + rewrite <- HW, <- HF. break_tests; reflexivity.
    + rewrite <- HW. break_tests; reflexivity.
Qed.

Lemma systemUpdate_dark time delta w :
  darkInBlackout w -> darkInBlackout (FacilitySystem.update time delta w).
Proof.
  rewrite systemUpdate_unfold. intros H.
  apply (monitorParanoia_dark delta) in H.
  generalize dependent (monitorParanoia delta w). intros w1 H.
  generalize (getParanoiaFactor w1). intros f.
  apply handleRandomEvents_dark.
  destruct (checkMessaging_talk time f
              (setDriftIntensity (driftIntensityOf f) w1)) as (E & B & T).
  revert H. apply sameSwitch_dark.
  apply sameSwitch_of; [rewrite E; reflexivity | rewrite B; reflexivity
                       | rewrite T; reflexivity].
Qed.

Lemma sameSwitch_generate zStart w : sameSwitch w (generateCorridorChunk zStart w).
Proof.
  destruct (generateCorridorChunk_drift zStart w) as ((S & _) & _).
  destruct (generateCorridorChunk_shape zStart w) as ((_ & _ & _ & F & _) & _).
  apply sameSwitch_of; [exact F | rewrite S; reflexivity ..].
Qed.

Lemma sameSwitch_move w :
  sameSwitch w (upd_env (fun g => set_zOffset (zOffset g - chunkSize) g) w).
Proof. apply sameSwitch_of; reflexivity. Qed.

Lemma sameSwitch_advance w : sameSwitch w (advance w).
Proof.
  eapply sameSwitch_trans; [apply (sameSwitch_generate (zOffset (env w)))|].
  apply sameSwitch_move.
Qed.

Lemma sameSwitch_updateLights d w : sameSwitch w (updateLights d w).
Proof.
  apply sameSwitch_quiet; [apply quiet_updateLights | apply sameSite_updateLights].
Qed.

Lemma sameSwitch_generatorUpdate z d w :
  sameSwitch w (FacilityGenerator.update z d w).
Proof.
  revert z w.
  assert (H : forall w0 z w, sameSwitch w0 w ->
                sameSwitch w0 (FacilityGenerator.update z d w)).
  { intros w0. apply generatorUpdate_invariant.
    - intros w H. eapply sameSwitch_trans; [exact H|apply sameSwitch_updateLights].
    - intros z w H. eapply sameSwitch_trans; [exact H|].
      apply sameSwitch_quiet; [apply quiet_updateEndgame | apply updateEndgame_frame].
    - intros z w H. eapply sameSwitch_trans; [exact H|].
      apply sameSwitch_quiet; [apply quiet_cleanupChunks |].
      apply (sameSite_cleanupLoop (z + 40) (List.length (chunks (env w))) w).
    - intros w H. eapply sameSwitch_trans; [exact H|apply sameSwitch_advance]. }
  intros z w. apply H, sameSwitch_refl.
Qed.

Lemma destroyIntroRoom_forced w :
  forceBlackout (env (destroyIntroRoom w)) = forceBlackout (env w).
Proof. unfold destroyIntroRoom. destruct (introRoom (env w)); reflexivity. Qed.

Lemma dark_animate f w : darkInBlackout w -> darkInBlackout (animate f w).
Proof.
  revert f w. apply animate_invariant.
  - apply enterCorridor_invariant.
    + intros w. apply sameSwitch_dark.
      eapply sameSwitch_trans; [|apply sameSwitch_move].
      eapply sameSwitch_trans; [|apply sameSwitch_generate].
      destruct (quiet_destroyIntroRoom
                  (set_currentZone CORRIDOR (log MainZoneCorridor w))) as (S & _).
      apply sameSwitch_of;
        [rewrite destroyIntroRoom_forced; reflexivity | rewrite S; reflexivity ..].
    + intros w. apply sameSwitch_dark, sameSwitch_advance.
    + intros w. apply sameSwitch_dark, sameSwitch_of; reflexivity.
  - intros t d w. apply systemUpdate_dark.
  - intros d w. apply sameSwitch_dark, sameSwitch_of; reflexivity.
  - intros z d w. apply sameSwitch_dark, sameSwitch_generatorUpdate.
  - intros w. apply sameSwitch_dark, sameSwitch_of; unfold triggerJumpscare;
      destruct (jumpscareActive w); reflexivity.
  - intros p w. apply sameSwitch_dark, sameSwitch_of; reflexivity.
  - intros d w. apply sameSwitch_dark, sameSwitch_updateLights.
Qed.

(** X18.  In every state of the game loop the lights are forced dark only
    while a blackout event of the system is running, and never once the
    endgame has been triggered. *)
Theorem forced_dark_only_in_blackout (w : World) :
  reachable w ->
  forceBlackout (env w) = true ->
  boActive (blackout (sys w)) = true /\ endgameTriggered (sys w) = false.
Proof.
  intros R F.
  assert (D : darkInBlackout w).
  { revert w R F. intros w R _. revert w R. apply reachable_invariant.
    - intros oracle H. discriminate.
    - apply dark_animate. }
  specialize (D F). unfold inBlackout in D.
  apply andb_true_iff in D. destruct D as (B & T).
  split; [exact B|]. destruct (endgameTriggered (sys w)); [discriminate|reflexivity].
Qed.

Lemma forced_dark_only_in_blackout_witness :
  reachable blackoutWorld /\
  forceBlackout (env blackoutWorld) = true /\
  boActive (blackout (sys blackoutWorld)) = true /\
  endgameTriggered (sys blackoutWorld) = false.
Proof.
  assert (R : reachable blackoutWorld)
    by (exists (fun _ => 0), (repeat spinFrame 8); reflexivity).
  assert (F : forceBlackout (env blackoutWorld) = true) by (vm_compute; reflexivity).
  split; [exact R|]. split; [exact F|].
  apply (forced_dark_only_in_blackout blackoutWorld R F).
Defined.

(** ** The messages *)

Lemma sameTalk_said w w' : sameTalk w w' -> said w -> said w'.
Proof. unfold said. intros (-> & ->). auto. Qed.

Lemma sameTalk_refl w : sameTalk w w.
Proof. split; reflexivity. Qed.

Lemma sameTalk_trans w1 w2 w3 : sameTalk w1 w2 -> sameTalk w2 w3 -> sameTalk w1 w3.
Proof. unfold sameTalk. intros (A & B) (C & D). split; congruence. Qed.

Lemma sameTalk_quiet w w' : quiet w w' -> sameTalk w w'.
Proof. intros (S & _ & _ & _ & _ & O). split; [exact O | rewrite S; reflexivity]. Qed.

Lemma sameTalk_calm w w' : calm w w' -> sameTalk w w'.
Proof. intros (S & _ & _ & _ & O). split; [exact O | rewrite S; reflexivity]. Qed.

Lemma monitorParanoia_talk delta w : sameTalk w (monitorParanoia delta w).
Proof.
  unfold monitorParanoia.
  eapply (sameTalk_trans _ (reportStatus (clampLevel (accrue delta w)))).
  - unfold reportStatus, clampLevel, accrue, updateStatus, sameTalk.
    break_tests; split; reflexivity.
  - generalize (reportStatus (clampLevel (accrue delta w))). intros w1.
    unfold sameTalk. hold_cases w1 delta; split; reflexivity.
Qed.

Lemma handleRandomEvents_talk time delta f w :
  sameTalk w (handleRandomEvents time delta f w).
Proof.
  unfold handleRandomEvents.
  destruct (endgameTriggered (sys w)); [apply sameTalk_refl|].
  destruct (f <? Fin 0.1)%js; [apply sameTalk_refl|].
  destruct (boActive (blackout (sys w))).
  - unfold showMirage, hideMirage, updateMirageEffect, Math_random, sameTalk.
    break_tests; split; reflexivity.
  - unfold Math_random. cbv beta iota zeta.
    match goal with
    | |- context [if ?c then flickerLights ?W else _] =>
        assert (HW : sameTalk w W);
        [ unfold sameTalk; break_tests; split; reflexivity
        | destruct c;
          [ pose proof (sameTalk_quiet _ _ (quiet_flickerLights W)) as HF;
            generalize dependent (flickerLights W); intros W' HF
          | ];
          (eapply sameTalk_trans; [eassumption|]) ]
    end.
    + eapply sameTalk_trans; [exact HF|].
      unfold sameTalk; break_tests; split; reflexivity.
    + unfold sameTalk; break_tests; split; reflexivity.
Qed.

Lemma pick_in_range (r : Q) (len : nat) :
  0 <= r < 1 -> (0 < len)%nat ->
  (Z.to_nat (Qfloor (r * inject_Z (Z.of_nat len))) < len)%nat.
Proof.
  intros (R0 & R1) L.
  assert (P : 0 < inject_Z (Z.of_nat len)).
  { change 0 with (inject_Z 0). rewrite <- Zlt_Qlt. lia. }
  set (x := inject_Z (Z.of_nat len)) in *.
  assert (X0 : 0 <= r * x) by (apply Qmult_le_0_compat; lra).
  assert (X1 : r * x < x).
  { setoid_replace x with (1 * x) at 2 by ring.
    apply Qmult_lt_compat_r; assumption. }
  pose proof (Qfloor_le (r * x)) as F1.
  assert (F0 : (0 <= Qfloor (r * x))%Z).
  { change 0%Z with (Qfloor 0). apply Qfloor_resp_le, X0. }
  assert (F2 : (Qfloor (r * x) < Z.of_nat len)%Z).
  { rewrite Zlt_Qlt. fold x. lra. }
  lia.
Qed.

Lemma pickMessage_in n pool : forall msg w,
  pool <> [] ->
  (n <> 0%nat \/ In msg pool) ->
  In (fst (pickMessage n pool msg w)) pool.
Proof.
  induction n as [|n IH]; intros msg w NE H; cbn [pickMessage].
  - destruct H as [H|H]; [congruence|exact H].
  - unfold Math_random. cbv beta iota zeta.
    assert (M : In (nth (Z.to_nat (Qfloor (frac (rnd w (rndPos w)) *
                          inject_Z (Z.of_nat (List.length pool))))) pool EmptyString)
                   pool).
    { apply nth_In, pick_in_range; [apply frac_range|].
      destruct pool; [congruence|simpl; lia]. }
    match goal with |- context [if ?b then _ else _] => destruct b end.
    + exact M.
    + apply IH; [exact NE | right; exact M].
Qed.

Lemma triggerMessage_said time pool f w :
  said w -> said (triggerMessage time pool f w).
Proof.
  intros (O & L). unfold triggerMessage, Math_random. cbv beta iota zeta.
  match goal with |- context [pickMessage ?n ?p ?m ?w0] =>
    pose proof (pickMessage_in n p m w0) as HI;
    pose proof (pickMessage_quiet n p m w0) as HQ;
    destruct (pickMessage n p m w0) as [msg w1]
  end.
  cbn [fst snd] in *.
  assert (T : poolText msg).
  { match type of HI with _ -> _ -> In _ (messagePools ?name) =>
      exists name; apply HI; [|left; discriminate] end.
    match goal with |- messagePools ?x <> [] => destruct x end;
      try discriminate;
      match goal with |- messagePools ?x <> [] => destruct x; discriminate end. }
  destruct HQ as (S & _ & _ & _ & _ & Ov).
  assert (O1 : overlay w1 = overlay w) by (rewrite Ov; reflexivity).
  assert (R1 : recentMessages (sys w1) = recentMessages (sys w))
    by (rewrite S; reflexivity).
  clear S Ov HI.
  unfold said, logMessage.
  match goal with |- context [if ?b then _ else _] => destruct b eqn:B end;
    simpl; rewrite O1, R1; (split; [constructor; [exact T|exact O]|]).
  - destruct (recentMessages (sys w)) as [|m ms]; simpl in *; [lia|].
    rewrite length_app. simpl. lia.
  - simpl in B. rewrite R1 in B. apply Nat.ltb_ge in B. exact B.
Qed.

Lemma checkMessaging_said time f w : said w -> said (checkMessaging time f w).
Proof.
  intros H.
  destruct (checkMessaging_cases time f w)
    as [[-> _] | (_ & _ & w1 & HQ & [-> | [pool ->]])].
  - exact H.
  - revert H. apply sameTalk_said, sameTalk_quiet, HQ.
  - apply triggerMessage_said. revert H. apply sameTalk_said, sameTalk_quiet, HQ.
Qed.

Lemma systemUpdate_said time delta w :
  said w -> said (FacilitySystem.update time delta w).
Proof.
  rewrite systemUpdate_unfold. intros H.
  apply (sameTalk_said _ _ (monitorParanoia_talk delta w)) in H.
  generalize dependent (monitorParanoia delta w). intros w1 H.
  generalize (getParanoiaFactor w1). intros f.
  eapply sameTalk_said; [apply handleRandomEvents_talk|].
  apply checkMessaging_said. revert H. apply sameTalk_said. split; reflexivity.
Qed.

Lemma sameTalk_upd_env g w : sameTalk w (upd_env g w).
Proof. split; reflexivity. Qed.

Lemma sameTalk_advance w : sameTalk w (advance w).
Proof.
  unfold advance.
  eapply sameTalk_trans; [|apply sameTalk_upd_env].
  apply sameTalk_calm, generateCorridorChunk_drift.
Qed.

Lemma sameTalk_first w :
  sameTalk w
    (upd_env (fun g => set_zOffset (zOffset g - chunkSize) g)
       (generateCorridorChunk 0
          (destroyIntroRoom (set_currentZone CORRIDOR (log MainZoneCorridor w))))).
Proof.
  eapply sameTalk_trans; [|apply sameTalk_upd_env].
  eapply sameTalk_trans; [|apply sameTalk_calm, generateCorridorChunk_drift].
  apply (sameTalk_trans _ (set_currentZone CORRIDOR (log MainZoneCorridor w)));
    [split; reflexivity | apply sameTalk_quiet, quiet_destroyIntroRoom].
Qed.

Lemma said_animate f w : said w -> said (animate f w).
Proof.
  revert f w. apply animate_invariant.
  - apply enterCorridor_invariant.
    + intros w. apply sameTalk_said, sameTalk_first.
    + intros w. apply sameTalk_said, sameTalk_advance.
    + intros w. apply sameTalk_said. split; reflexivity.
  - intros t d w. apply systemUpdate_said.
  - intros d w. apply sameTalk_said. split; reflexivity.
  - intros z d w. apply sameTalk_said, sameTalk_calm, generatorUpdate_drift.
  - intros w. apply sameTalk_said. unfold triggerJumpscare.
    destruct (jumpscareActive w); split; reflexivity.
  - intros p w. apply sameTalk_said. split; reflexivity.
  - intros d w. apply sameTalk_said, sameTalk_quiet, quiet_updateLights.
Qed.

(** X19.  Every message that the game ever puts on the overlay is a text of
    one of the six pools: the index drawn by [triggerMessage] is always
    inside the pool.  And the anti-repetition queue never holds more than
    five messages. *)
Theorem messages_from_pools (w : World) :
  reachable w ->
  Forall (fun e => exists name, In (entryText e) (messagePools name)) (overlay w) /\
  (List.length (recentMessages (sys w)) <= 5)%nat.
Proof.
  revert w. apply (reachable_invariant said).
  - intros oracle. split; [constructor | simpl; lia].
  - apply said_animate.
Qed.

Lemma messages_from_pools_witness :
  reachable talkingWorld /\
  Forall (fun e => exists name, In (entryText e) (messagePools name))
    (overlay talkingWorld).
Proof.
  assert (R : reachable talkingWorld).
  { exists (fun _ => 0),
      [lookBackFrame 30; lookBackFrame 60; lookBackFrame 90; lookBackFrame 120].
    reflexivity. }
  split; [exact R | apply (messages_from_pools talkingWorld R)].
Defined.

(** ** The system after the endgame trigger *)

Lemma monitorParanoia_latched delta w :
  endgameTriggered (sys w) = true ->
  let w' := monitorParanoia delta w in
  endgameTriggered (sys w') = true /\
  env w' = env w /\
  overlay w' = overlay w /\
  rndPos w' = rndPos w /\
  blackout (sys w') = blackout (sys w) /\
  cameraInversion (sys w') = cameraInversion (sys w) /\
  lastMessageTime (sys w') = lastMessageTime (sys w).
Proof.
  intros T. cbv zeta. unfold monitorParanoia.
  assert (E : let w1 := reportStatus (clampLevel (accrue delta w)) in
              endgameTriggered (sys w1) = true /\
              env w1 = env w /\
              overlay w1 = overlay w /\
              rndPos w1 = rndPos w /\
              blackout (sys w1) = blackout (sys w) /\
              cameraInversion (sys w1) = cameraInversion (sys w) /\
              lastMessageTime (sys w1) = lastMessageTime (sys w)).
  { unfold reportStatus, clampLevel, accrue, updateStatus.
    break_tests; repeat apply conj; try reflexivity; exact T. }
  cbv zeta in E. destruct E as (E1 & E2 & E3 & E4 & E5 & E6 & E7).
  generalize dependent (reportStatus (clampLevel (accrue delta w))).
  intros w1 E1 E2 E3 E4 E5 E6 E7.
  rewrite <- E2, <- E3, <- E4, <- E5, <- E6, <- E7. clear E2 E3 E4 E5 E6 E7.
  revert E1. hold_cases w1 delta; intros E1; try discriminate;
    repeat apply conj; reflexivity.
Qed.

(** X20.  After the endgame trigger the system is silent.  One call of
    [FacilitySystem.update] then shows no message, draws no random number,
    starts or advances no blackout and no camera twist, and leaves the
    lights, the mirage and the forced blackout alone: of the environment
    only the pillar offset of the drift is written. *)
Theorem systemUpdate_after_trigger (time : Q) (delta : value) (w : World) :
  endgameTriggered (sys w) = true ->
  let w' := FacilitySystem.update time delta w in
  endgameTriggered (sys w') = true /\
  overlay w' = overlay w /\
  rndPos w' = rndPos w /\
  blackout (sys w') = blackout (sys w) /\
  cameraInversion (sys w') = cameraInversion (sys w) /\
  lastMessageTime (sys w') = lastMessageTime (sys w) /\
  lights (env w') = lights (env w) /\
  mirageMesh (env w') = mirageMesh (env w) /\
  forceBlackout (env w') = forceBlackout (env w) /\
  isEndgame (env w') = isEndgame (env w).
Proof.
  intros T. cbv zeta. rewrite systemUpdate_unfold.
  destruct (monitorParanoia_latched delta w T) as (M1 & M2 & M3 & M4 & M5 & M6 & M7).
  generalize dependent (monitorParanoia delta w).
  intros w1 M1 M2 M3 M4 M5 M6 M7.
  generalize (driftIntensityOf (getParanoiaFactor w1)).
  generalize (getParanoiaFactor w1). intros f d.
  assert (C : checkMessaging time f (setDriftIntensity d w1) = setDriftIntensity d w1).
  { unfold checkMessaging.
    change (endgameTriggered (sys (setDriftIntensity d w1)))
      with (endgameTriggered (sys w1)).
    rewrite M1. reflexivity. }
  rewrite C.
  assert (H : handleRandomEvents time delta f (setDriftIntensity d w1) =
              setDriftIntensity d w1).
  { unfold handleRandomEvents.
    change (endgameTriggered (sys (setDriftIntensity d w1)))
      with (endgameTriggered (sys w1)).
    rewrite M1. reflexivity. }
  rewrite H. unfold setDriftIntensity. simpl.
  rewrite M1, M2, M3, M4, M5, M6, M7. repeat apply conj; reflexivity.
Qed.

Lemma systemUpdate_after_trigger_witness :
  endgameTriggered (sys latchedWorld) = true /\
  overlay (FacilitySystem.update 30 (Number (Fin 1)) latchedWorld) =
    overlay latchedWorld.
Proof.
  assert (T : endgameTriggered (sys latchedWorld) = true) by (vm_compute; reflexivity).
  split; [exact T|].
  apply (systemUpdate_after_trigger 30 (Number (Fin 1)) latchedWorld T).
Defined.

(** ** The player's collisions *)

Lemma Qabs_cases (x : Q) : (0 <= x /\ Qabs x == x) \/ (x < 0 /\ Qabs x == - x).
Proof.
  destruct (Qlt_le_dec x 0) as [H|H].
  - right. split; [exact H|]. apply Qabs_neg. lra.
  - left. split; [exact H|]. apply Qabs_pos. exact H.
Qed.

Ltac body_simpl :=
  cbn [bodyX bodyZ velX velZ set_bodyX set_bodyZ set_velX set_velZ] in *.

Ltac body_tests :=
  body_simpl;
  repeat match goal with
  | |- context [if ?c then _ else _] => destruct c eqn:?; body_simpl
  end.

Ltac abs_cases :=
  repeat match goal with
  | H : context [Qabs ?t] |- _ =>
      lazymatch goal with
      | _ : Qabs t == _ |- _ => fail
      | _ => destruct (Qabs_cases t) as [[? ?]|[? ?]]
      end
  | |- context [Qabs ?t] =>
      lazymatch goal with
      | _ : Qabs t == _ |- _ => fail
      | _ => destruct (Qabs_cases t) as [[? ?]|[? ?]]
      end
  end.

Lemma introRoomCollision_inside b : inIntroRoom (introRoomCollision b).
Proof.
  destruct b as [x z vx vz]. unfold introRoomCollision, inIntroRoom.
  body_tests; reflect_tests; repeat apply conj; try lra; intros; abs_cases; lra.
Qed.

Lemma introRoomCollision_fixed b : inIntroRoom b -> introRoomCollision b = b.
Proof.
  destruct b as [x z vx vz]. unfold introRoomCollision, inIntroRoom.
  body_simpl. intros (A & (B & C) & D).
  body_tests; reflect_tests; try reflexivity; try lra;
    specialize (D ltac:(assumption)); lra.
Qed.

Lemma introRoomCollision_vel b :
  velX (introRoomCollision b) = velX b /\ velZ (introRoomCollision b) = velZ b.
Proof.
  destruct b as [x z vx vz]. unfold introRoomCollision.
  body_tests; split; reflexivity.
Qed.

(** X21.  The intro room is closed except for its doorway: after the
    collision block the player is at most 1.8 from the centre line and at
    most at [z = 5.8], and is in front of [z = 2.2], where the exit lies,
    only within 0.6 of the centre line.  The velocity is kept, the block
    changes nothing when run again on its result, and every player who is
    already within these bounds is left as they are. *)
Theorem intro_room_is_closed (b : Body) :
  let b' := introRoomCollision b in
  bodyZ b' <= 5.8 /\
  -1.8 <= bodyX b' <= 1.8 /\
  (bodyZ b' < 2.2 -> Qabs (bodyX b') <= 0.6) /\
  velX b' = velX b /\ velZ b' = velZ b /\
  introRoomCollision b' = b' /\
  (bodyZ b <= 5.8 ->
   -1.8 <= bodyX b <= 1.8 ->
   (bodyZ b < 2.2 -> Qabs (bodyX b) <= 0.6) ->
   b' = b).
Proof.
  cbv zeta. pose proof (introRoomCollision_inside b) as H.
  destruct (introRoomCollision_vel b) as (V1 & V2).
  pose proof (introRoomCollision_fixed _ H) as F.
  destruct H as (A & B & C).
  repeat apply conj; try assumption; try apply B.
  intros I1 I2 I3. apply introRoomCollision_fixed.
  repeat split; try assumption; apply I2.
Qed.

Lemma intro_room_is_closed_witness :
  introRoomCollision (mkBody 1 3 0.5 (-2)) = mkBody 1 3 0.5 (-2) /\
  introRoomCollision (mkBody 0.25 1.5 0 (-2)) = mkBody 0.25 1.5 0 (-2).
Proof.
  split.
  - apply (intro_room_is_closed (mkBody 1 3 0.5 (-2))).
    + unfold Qle. simpl. lia.
    + split; unfold Qle; simpl; lia.
    + intros H. unfold Qlt in H. simpl in H. lia.
  - apply (intro_room_is_closed (mkBody 0.25 1.5 0 (-2))).
    + unfold Qle. simpl. lia.
    + split; unfold Qle; simpl; lia.
    + intros _. unfold Qle. simpl. lia.
Defined.


Lemma pillarCollision_cases p b :
  (~ inside p b /\ pillarCollision p b = b) \/
  (inside p b /\
   ((bodyZ (pillarCollision p b) = bodyZ b /\
     velZ (pillarCollision p b) = velZ b /\
     velX (pillarCollision p b) = 0 /\
     Qabs (bodyX (pillarCollision p b) - px p) == 1.05) \/
    (bodyX (pillarCollision p b) = bodyX b /\
     velX (pillarCollision p b) = velX b /\
     velZ (pillarCollision p b) = 0 /\
     Qabs (bodyZ (pillarCollision p b) - pz p) == 1.3))).
Proof.
  destruct b as [x z vx vz], p as [qx qz]. unfold pillarCollision, inside.
  cbn [px pz]. body_simpl.
  destruct (0 <? 1.05 - Qabs (x - qx)) eqn:A;
    destruct (0 <? 1.3 - Qabs (z - qz)) eqn:B; cbn [andb]; reflect_tests;
    try (left; split; [intros (I1 & I2); lra | reflexivity]).
  right. split; [split; lra|].
  body_tests; reflect_tests; [left | left | right | right];
    (do 3 (split; [reflexivity|])); abs_cases; lra.
Qed.


(** ** The passage between the pillars *)

Lemma jitter_half (r off : Q) :
  0 <= r < 1 -> -1 <= off <= 1 -> -0.5 <= (r - 0.5) * off <= 0.5.
Proof.
  intros (R0 & R1) (O0 & O1).
  assert (A : 0 <= (0.5 - (r - 0.5)) * (1 - off)) by (apply Qmult_le_0_compat; lra).
  assert (B : 0 <= (0.5 + (r - 0.5)) * (1 - off)) by (apply Qmult_le_0_compat; lra).
  assert (C : 0 <= (0.5 - (r - 0.5)) * (1 + off)) by (apply Qmult_le_0_compat; lra).
  assert (D : 0 <= (0.5 + (r - 0.5)) * (1 + off)) by (apply Qmult_le_0_compat; lra).
  set (y := (r - 0.5) * off) in *.
  assert (EA : (0.5 - (r - 0.5)) * (1 - off) == 0.5 - (r - 0.5) - 0.5 * off + y)
    by (unfold y; ring).
  assert (EB : (0.5 + (r - 0.5)) * (1 - off) == 0.5 + (r - 0.5) - 0.5 * off - y)
    by (unfold y; ring).
  assert (EC : (0.5 - (r - 0.5)) * (1 + off) == 0.5 - (r - 0.5) + 0.5 * off - y)
    by (unfold y; ring).
  assert (ED : (0.5 + (r - 0.5)) * (1 + off) == 0.5 + (r - 0.5) + 0.5 * off + y)
    by (unfold y; ring).
  rewrite EA in A. rewrite EB in B. rewrite EC in C. rewrite ED in D.
  clearbody y. lra.
Qed.

Lemma createPillar_sides c rh zPos cwz w :
  -1 <= pillarOffset (drift (env w)) <= 1 ->
  exists p1 p2,
    pillarPositions (env (snd (createPillar c 6 rh zPos cwz w))) =
      pillarPositions (env w) ++ [p1; p2] /\
    atWall p1 /\ atWall p2.
Proof.
  intros O. unfold createPillar, Math_random, fresh. cbv beta iota zeta.
  do 2 eexists. split; [reflexivity|].
  cbn [rnd rndPos set_rndPos env drift pillarOffset upd_env set_env].
  unfold atWall. cbn [px].
  pose proof (jitter_half (frac (rnd w (rndPos w))) _ (frac_range _) O) as J1.
  pose proof (jitter_half (frac (rnd w (S (S (rndPos w))))) _ (frac_range _) O) as J2.
  set (j1 := (frac (rnd w (rndPos w)) - 0.5) * pillarOffset (drift (env w))) in *.
  set (j2 := (frac (rnd w (S (S (rndPos w)))) - 0.5) * pillarOffset (drift (env w))) in *.
  clearbody j1 j2.
  assert (E1 : - (6) / 2 + 0.5 + j1 == -2.5 + j1) by (field).
  assert (E2 : 6 / 2 - 0.5 + j2 == 2.5 + j2) by (field).
  split.
  - destruct (Qabs_cases (- (6) / 2 + 0.5 + j1)) as [[? ->]|[? ->]]; lra.
  - destruct (Qabs_cases (6 / 2 - 0.5 + j2)) as [[? ->]|[? ->]]; lra.
Qed.

Lemma pillarLoop_sides fuel : forall gZ limit spacing c rh cwz w c' w',
  -1 <= pillarOffset (drift (env w)) <= 1 ->
  Forall atWall (pillarPositions (env w)) ->
  pillarLoop fuel gZ limit spacing c 6 rh cwz w = Some (c', w') ->
  Forall atWall (pillarPositions (env w')).
Proof.
  induction fuel as [|fuel IH]; intros gZ limit spacing c rh cwz w c' w' O F H;
    cbn [pillarLoop] in H; [discriminate|].
  destruct (gZ <? limit).
  - destruct (createPillar_sides c rh (gZ - cwz) cwz w O) as (p1 & p2 & P & A1 & A2).
    pose proof (quiet_createPillar c 6 rh (gZ - cwz) cwz w) as (_ & D & _).
    destruct (createPillar c 6 rh (gZ - cwz) cwz w) as [c1 w1]. cbn [snd] in *.
    eapply IH; [| |exact H].
    + rewrite D. exact O.
    + rewrite P. apply Forall_app. split; [exact F|].
      constructor; [exact A1|]. constructor; [exact A2|constructor].
  - injection H as _ <-. exact F.
Qed.

Lemma flanked_generate zStart w :
  flanked w -> flanked (generateCorridorChunk zStart w).
Proof.
  unfold flanked.
  destruct w as [s [sc fg ch li it pp zo fb [lc ho ld po] mi ir ie sg bh et ce ds ni] p z j c o r n].
  cbn [env pillarPositions]. intros F.
  unfold generateCorridorChunk.
  cbv -[pillarLoop Qplus Qminus Qmult Qdiv Qopp Qceiling Qfloor inject_Z Qle_bool
        Qltb frac clamp Qmax Qmin app pillarFuel chunkSize Qle Qlt Qeq
        List.length Nat.add Nat.mul atWall].
  match goal with |- context [pillarLoop ?a ?b ?c ?d ?e ?f ?g ?h ?i] =>
    pose proof (pillarLoop_sides a b c d e g h i) as HP;
    destruct (pillarLoop a b c d e f g h i) as [[c' w']|]
  end.
  - specialize (HP c' w').
    cbn [env drift pillarOffset pillarPositions] in HP.
    match type of HP with -1 <= clamp ?v _ _ <= 1 -> _ =>
      pose proof (clamp_range v (-1.0) 1.0 ltac:(lra)) as CR end.
    assert (O : -1 <= clamp (po + (frac (r (S (S n))) - 0.5) * 0.2) (-1.0) 1.0 <= 1)
      by (generalize dependent (clamp (po + (frac (r (S (S n))) - 0.5) * 0.2) (-1.0) 1.0);
          intros; lra).
    specialize (HP O F eq_refl).
    destruct w' as [s' [sc' fg' ch' li' it' pp' zo' fb' dr' mi' ir' ie' sg' bh' et' ce' ds' ni'] p' z' j' c0 o' r' n'].
    exact HP.
  - exact F.
Qed.

Lemma spawn_pillars n : forall w,
  pillarPositions (env (spawn n w)) = pillarPositions (env w).
Proof.
  induction n as [|n IH]; intros w; simpl; [reflexivity|]. rewrite IH. reflexivity.
Qed.

Lemma updateEndgame_pillars z w :
  pillarPositions (env (updateEndgame z w)) = pillarPositions (env w).
Proof.
  unfold updateEndgame.
  destruct (blackHole (env w)); [reflexivity|].
  destruct (truthy (endgameTargetZ (env w))); [reflexivity|].
  destruct (rev (chunks (env w))) as [|lastChunk ?]; cbv beta iota zeta;
    unfold log;
    match goal with
    | |- context [spawn 2 (spawn 4 (upd_env ?f (spawn 1 ?w0)))] =>
        pose proof (spawn_pillars 2 (spawn 4 (upd_env f (spawn 1 w0)))) as P2;
        pose proof (spawn_pillars 4 (upd_env f (spawn 1 w0))) as P4;
        pose proof (spawn_pillars 1 w0) as P1;
        generalize dependent (spawn 2 (spawn 4 (upd_env f (spawn 1 w0))));
        intros w2 P2;
        generalize dependent (spawn 4 (upd_env f (spawn 1 w0)));
        intros w4 P4 P2;
        generalize dependent (spawn 1 w0);
        intros w1 P1 P4
    end;
    simpl in *; rewrite P2, P4; exact P1.
Qed.

Lemma flanked_same w w' :
  pillarPositions (env w') = pillarPositions (env w) -> flanked w -> flanked w'.
Proof. unfold flanked. intros ->. auto. Qed.

Lemma flanked_cleanupChunks z w : flanked w -> flanked (cleanupChunks z w).
Proof.
  unfold flanked, cleanupChunks. intros F.
  rewrite cleanupLoop_pillars. apply Forall_filter_keep, F.
Qed.

Lemma flanked_move w :
  flanked w -> flanked (upd_env (fun g => set_zOffset (zOffset g - chunkSize) g) w).
Proof. apply flanked_same. reflexivity. Qed.

Lemma flanked_advance w : flanked w -> flanked (advance w).
Proof. intros H. apply flanked_move, flanked_generate, H. Qed.

Lemma flanked_generatorUpdate z d w :
  flanked w -> flanked (FacilityGenerator.update z d w).
Proof.
  revert z w. apply generatorUpdate_invariant.
  - intros w. apply flanked_same. apply (updateLights_frame (sanitizeDelta d) w).
  - intros z w. apply flanked_same, updateEndgame_pillars.
  - apply flanked_cleanupChunks.
  - apply flanked_advance.
Qed.

Lemma flanked_animate f w : flanked w -> flanked (animate f w).
Proof.
  revert f w. apply animate_invariant.
  - apply enterCorridor_invariant.
    + intros w H. apply flanked_move, flanked_generate.
      revert H. apply flanked_same.
      unfold destroyIntroRoom. cbn [env set_currentZone log set_console].
      destruct (introRoom (env w)); reflexivity.
    + apply flanked_advance.
    + intros w. apply flanked_same. reflexivity.
  - intros t d w. apply flanked_same. apply (systemUpdate_built t d w).
  - intros d w. apply flanked_same. reflexivity.
  - intros z d w. apply flanked_generatorUpdate.
  - intros w. apply flanked_same. unfold triggerJumpscare.
    destruct (jumpscareActive w); reflexivity.
  - intros p w. apply flanked_same. reflexivity.
  - intros d w. apply flanked_same. apply (updateLights_frame d w).
Qed.

Lemma pillarCollision_clear p b :
  atWall p -> Qabs (bodyX b) <= 0.95 -> pillarCollision p b = b.
Proof.
  intros (A & _) B.
  destruct (pillarCollision_cases p b) as [[_ E]|[(I & _) _]]; [exact E|].
  exfalso. abs_cases; lra.
Qed.

(** X23.  The corridor can always be walked.  In every state of the game
    loop every pillar stands between 2 and 3 units from the centre line, so
    a player within 0.95 of the centre line is never moved or slowed by the
    walking collisions, whatever the drift has done to the pillars. *)
Theorem centre_line_is_free (w : World) (isIntro : bool) (b : Body) :
  reachable w ->
  Qabs (bodyX b) <= 0.95 ->
  Forall (fun p => 2 <= Qabs (px p) <= 3) (pillarPositions (env w)) /\
  walkingCollisions isIntro (pillarPositions (env w)) b = b.
Proof.
  intros R B.
  assert (F : flanked w).
  { revert w R. apply reachable_invariant.
    - intros oracle. constructor.
    - apply flanked_animate. }
  split; [exact F|].
  unfold walkingCollisions. cbv zeta.
  assert (X : -0.95 <= bodyX b <= 0.95) by (abs_cases; lra).
  assert (T1 : ((if isIntro then 1.8 else 2.5) <? bodyX b) = false)
    by (apply Qltb_ge; destruct isIntro; lra).
  rewrite T1.
  assert (T2 : (bodyX b <? - (if isIntro then 1.8 else 2.5)) = false)
    by (apply Qltb_ge; destruct isIntro; lra).
  rewrite T2.
  unfold flanked in F. induction F as [|p ps A _ IH]; [reflexivity|].
  simpl. rewrite (pillarCollision_clear p b A B). exact IH.
Qed.

Lemma centre_line_is_free_witness :
  reachable spinWorld /\
  Qabs (bodyX (mkBody 0.5 (-12) 0 (-5))) <= 0.95 /\
  walkingCollisions false (pillarPositions (env spinWorld))
    (mkBody 0.5 (-12) 0 (-5)) = mkBody 0.5 (-12) 0 (-5).
Proof.
  assert (R : reachable spinWorld)
    by (exists (fun _ => 1 # 2), (repeat spinFrame 8); reflexivity).
  assert (B : Qabs (bodyX (mkBody 0.5 (-12) 0 (-5))) <= 0.95)
    by (vm_compute; discriminate).
  split; [exact R|]. split; [exact B|].
  apply (centre_line_is_free spinWorld false (mkBody 0.5 (-12) 0 (-5)) R B).
Defined.

(** ** The zone history *)

Lemma round5_near (z : Q) :
  let zone := (Qfloor (z / 5 + 0.5) * 5)%Z in
  (zone mod 5 = 0)%Z /\ z - 2.5 < inject_Z zone <= z + 2.5.
Proof.
  cbv zeta. split; [apply Z.mod_mul; discriminate|].
  assert (E : z / 5 + 0.5 == z * (1 # 5) + 0.5) by (unfold Qdiv; reflexivity).
  revert E. generalize (z / 5 + 0.5). intros y E.
  pose proof (Qfloor_le y) as H1. pose proof (Qlt_floor y) as H2.
  rewrite inject_Z_plus in H2. change (inject_Z 1) with 1 in H2.
  rewrite inject_Z_mult. change (inject_Z 5) with 5.
  generalize dependent (inject_Z (Qfloor y)). intros q H1 H2. lra.
Qed.

(** X24.  The zone history is a window of the last 20 samples.  A sample is
    taken only when more than one second has accumulated, which resets the
    accumulator; it is the multiple of 5 nearest to the player's [z]; and a
    history of at most 20 entries stays at most 20 long, the oldest entry
    making room for the new one. *)
Theorem zoneTracking_window (delta z t : Q) (h : list Z) :
  (List.length h <= 20)%nat ->
  let r := zoneTracking delta z t h in
  (List.length (snd r) <= 20)%nat /\
  if 1 <? t + delta then
    fst r = 0 /\
    exists zone : Z,
      snd r = (if Nat.ltb (List.length h) 20 then h else tl h) ++ [zone] /\
      (zone mod 5 = 0)%Z /\
      z - 2.5 < inject_Z zone <= z + 2.5
  else r = (t + delta, h).
Proof.
  intros L. cbv zeta. unfold zoneTracking.
  assert (T : (1.0 <? t + delta) = (1 <? t + delta)) by (apply Qltb_compat; reflexivity).
  rewrite T. destruct (1 <? t + delta); [|split; [exact L|reflexivity]].
  cbn [fst snd]. rewrite length_app. cbn [List.length].
  destruct (round5_near z) as (M & N).
  destruct (Nat.ltb 20 (List.length h + 1)) eqn:A.
  - apply Nat.ltb_lt in A.
    assert (E : Nat.ltb (List.length h) 20 = false) by (apply Nat.ltb_ge; lia).
    rewrite E. destruct h as [|a h]; [simpl in *; lia|].
    cbn [app tl List.length] in *.
    split; [rewrite length_app; simpl; lia|].
    split; [reflexivity|]. eexists. split; [reflexivity|]. split; assumption.
  - apply Nat.ltb_ge in A.
    assert (E : Nat.ltb (List.length h) 20 = true) by (apply Nat.ltb_lt; lia).
    rewrite E. split; [rewrite length_app; simpl; lia|].
    split; [reflexivity|]. eexists. split; [reflexivity|]. split; assumption.
Qed.

Lemma zoneTracking_window_witness :
  (List.length (repeat 0%Z 20) <= 20)%nat /\
  (List.length (snd (zoneTracking 0.6 (-12) 0.5 (repeat 0%Z 20))) <= 20)%nat.
Proof.
  assert (L : (List.length (repeat 0%Z 20) <= 20)%nat) by (simpl; lia).
  split; [exact L|].
  apply (zoneTracking_window 0.6 (-12) 0.5 (repeat 0%Z 20) L).
Defined.

(** ** The end of generation *)

Lemma within_same w0 w w' :
  currentZone w' = currentZone w ->
  halted w' = halted w ->
  zOffset (env w') = zOffset (env w) ->
  chunks (env w') = chunks (env w) ->
  pillarPositions (env w') = pillarPositions (env w) ->
  within w0 w -> within w0 w'.
Proof. unfold within. intros -> -> -> -> ->. auto. Qed.

Lemma endgameHold_halted delta w :
  halted w = true -> halted (endgameHold delta w) = true.
Proof.
  unfold halted. hold_cases w delta; auto; intros H;
    repeat match goal with E : isEndgame _ = _ |- _ => rewrite E; clear E end;
    rewrite ?orb_true_r; try reflexivity; try assumption.
Qed.

Lemma monitorParanoia_halted delta w :
  halted w = true -> halted (monitorParanoia delta w) = true.
Proof.
  unfold monitorParanoia. intros H. apply endgameHold_halted.
  destruct (estimate_rest delta w) as (E & _). cbv zeta in E.
  unfold halted. rewrite E. exact H.
Qed.

Lemma flickerLights_halted w : halted (flickerLights w) = halted w.
Proof.
  unfold flickerLights. destruct (forceBlackout (env w)); [reflexivity|].
  destruct (flickerEach_flickered (lights (env w)) w) as (_ & n & E).
  destruct (flickerEach (lights (env w)) w) as [ls w1]. cbn [fst snd] in *. subst w1.
  reflexivity.
Qed.

Lemma handleRandomEvents_halted time delta f w :
  halted (handleRandomEvents time delta f w) = halted w.
Proof.
  unfold handleRandomEvents.
  destruct (endgameTriggered (sys w)); [reflexivity|].
  destruct (f <? Fin 0.1)%js; [reflexivity|].
  destruct (boActive (blackout (sys w))).
  - unfold showMirage, hideMirage, updateMirageEffect, Math_random, halted.
    break_tests; reflexivity.
  - unfold Math_random. cbv beta iota zeta.
    match goal with
    | |- context [if ?c then flickerLights ?W else _] =>
        assert (HW : halted W = halted w);
        [ unfold halted; break_tests; reflexivity
        | destruct c;
          [ pose proof (flickerLights_halted W) as HF;
            generalize dependent (flickerLights W); intros W' HF
          | ] ]
    end.
    + rewrite <- HW, <- HF. unfold halted. break_tests; reflexivity.
    + rewrite <- HW. unfold halted. break_tests; reflexivity.
Qed.

Lemma systemUpdate_halted time delta w :
  halted w = true -> halted (FacilitySystem.update time delta w) = true.
Proof.
  rewrite systemUpdate_unfold. intros H.
  apply (monitorParanoia_halted delta) in H.
  generalize dependent (monitorParanoia delta w). intros w1 H.
  generalize (getParanoiaFactor w1). intros f.
  rewrite handleRandomEvents_halted.
  destruct (checkMessaging_talk time f
              (setDriftIntensity (driftIntensityOf f) w1)) as (E & _).
  unfold halted. rewrite E. exact H.
Qed.

Lemma incl_filter_l {A} (f : A -> bool) (l l0 : list A) :
  incl l l0 -> incl (filter f l) l0.
Proof. intros H a I. apply H. apply filter_In in I. apply I. Qed.

Lemma within_generatorUpdate w0 z d w :
  within w0 w -> within w0 (FacilityGenerator.update z d w).
Proof.
  intros (Z & H & Zo & C & P). unfold FacilityGenerator.update. cbv zeta.
  destruct (sameSite_updateLights (sanitizeDelta d) w) as (Z0 & S0 & E0 & _).
  destruct (updateLights_frame (sanitizeDelta d) w) as (C0 & _ & P0 & _).
  destruct (quiet_updateLights (sanitizeDelta d) w) as (_ & _ & _ & Q0 & _).
  generalize dependent (updateLights (sanitizeDelta d) w).
  intros w1 Z1 S1 E1 C1 P1 Q1.
  unfold halted in H. rewrite S1, E1, H.
  destruct (updateEndgame_frame z w1) as ((Z2 & S2 & E2 & _) & C2 & _).
  pose proof (updateEndgame_pillars z w1) as P2.
  destruct (quiet_updateEndgame z w1) as (_ & _ & _ & Q2 & _).
  generalize dependent (updateEndgame z w1). intros w2 Z2 S2 E2 C2 P2 Q2.
  destruct (sameSite_cleanupLoop (z + 40) (List.length (chunks (env w2))) w2)
    as (Z3 & S3 & E3 & _).
  destruct (quiet_cleanupChunks z w2) as (_ & _ & _ & Q3 & _).
  pose proof (cleanupChunks_retained z w2) as C3.
  pose proof (cleanupLoop_pillars (z + 40) (List.length (chunks (env w2))) w2) as P3.
  change (cleanupLoop (z + 40) (List.length (chunks (env w2))) w2)
    with (cleanupChunks z w2) in *.
  generalize dependent (cleanupChunks z w2). intros w3 Z3 S3 E3 Q3 C3 P3.
  unfold within, halted. repeat apply conj.
  - congruence.
  - rewrite S3, E3, S2, E2, S1, E1. exact H.
  - congruence.
  - rewrite C3. apply incl_filter_l. rewrite C2, C1. exact C.
  - rewrite P3. apply incl_filter_l. rewrite P2, P1. exact P.
Qed.

Lemma within_animate w0 f w : within w0 w -> within w0 (animate f w).
Proof.
  revert f w. apply animate_invariant.
  - intros w H. unfold enterCorridor. destruct H as (Z & H). rewrite Z.
    split; assumption.
  - intros t d w H.
    destruct (systemUpdate_built t d w) as (C & Z & P & _).
    pose proof (systemUpdate_halted t d w (proj1 (proj2 H))) as S.
    pose proof (systemUpdate_zone t d w) as Zn.
    generalize dependent (FacilitySystem.update t d w). intros w1 C1 Z1 P1 S1 Zn.
    destruct H as (A & B & D & E & F). unfold within.
    rewrite Zn, C1, Z1, P1. auto.
  - intros d w. apply within_same; reflexivity.
  - intros z d w. apply within_generatorUpdate.
  - intros w. unfold triggerJumpscare.
    destruct (jumpscareActive w); [auto|]. apply within_same; reflexivity.
  - intros p w. apply within_same; reflexivity.
  - intros d w.
    destruct (sameSite_updateLights d w) as (Z0 & S0 & E0 & _).
    destruct (updateLights_frame d w) as (C0 & _ & P0 & _).
    destruct (quiet_updateLights d w) as (_ & _ & _ & Q0 & _).
    apply within_same; try assumption. unfold halted. rewrite S0, E0. reflexivity.
Qed.

(** X25.  Halted generation is final.  In the corridor, once
    [stopGeneration] or [isEndgame] is set, as the endgame trigger does, no
    sequence of frames builds anything: the flag stays, the frontier stays
    where it is, and the chunks and the pillar positions of every later
    state are among those of the state in which generation halted. *)
Theorem halted_generation_is_final (w : World) (fs : list Frame) :
  currentZone w = CORRIDOR ->
  stopGeneration (env w) || isEndgame (env w) = true ->
  let w' := run fs w in
  stopGeneration (env w') || isEndgame (env w') = true /\
  zOffset (env w') = zOffset (env w) /\
  incl (chunks (env w')) (chunks (env w)) /\
  incl (pillarPositions (env w')) (pillarPositions (env w)).
Proof.
  intros Z H. cbv zeta.
  assert (W : within w (run fs w)).
  { apply run_invariant; [apply within_animate|].
    split; [exact Z|]. split; [exact H|]. split; [reflexivity|].
    split; apply incl_refl. }
  destruct W as (_ & A & B & C & D). auto.
Qed.

Lemma halted_generation_is_final_witness :
  currentZone latchedWorld = CORRIDOR /\
  stopGeneration (env latchedWorld) || isEndgame (env latchedWorld) = true /\
  zOffset (env (run [idleFrame; idleFrame] latchedWorld)) =
    zOffset (env latchedWorld).
Proof.
  assert (Z : currentZone latchedWorld = CORRIDOR) by (vm_compute; reflexivity).
  assert (H : stopGeneration (env latchedWorld) || isEndgame (env latchedWorld) = true)
    by (vm_compute; reflexivity).
  split; [exact Z|]. split; [exact H|].
  destruct (halted_generation_is_final latchedWorld [idleFrame; idleFrame] Z H)
    as (_ & E & _).
  exact E.
Defined.

(** ** The mirage *)

(** X26.  The mirage of a blackout.  [showMirage] puts it between 30 and 50
    units ahead of the player, within 2 units of the centre line, visible
    but fully transparent.  Each glitch step of a visible mirage then gives
    it an opacity below 0.25, moves it sideways by at most 0.1 and keeps its
    width between 2.5 and 3.5; a hidden mirage is not touched and no random
    number is drawn for it. *)
Theorem mirage_is_faint_and_ahead (playerZ : Q) (w : World) :
  (let m := mirageMesh (env (showMirage playerZ w)) in
   mirVisible m = true /\
   mirOpacity m == 0 /\
   playerZ - 50 < mirZ m <= playerZ - 30 /\
   -2 <= mirX m < 2) /\
  (let m := mirageMesh (env w) in
   let m' := mirageMesh (env (updateMirageEffect w)) in
   if mirVisible m then
     mirVisible m' = true /\
     0 <= mirOpacity m' < 0.25 /\
     -0.1 <= mirX m' - mirX m < 0.1 /\
     2.5 <= mirScaleX m' < 3.5 /\
     mirZ m' = mirZ m
   else updateMirageEffect w = w).
Proof.
  split; cbv zeta.
  - unfold showMirage, Math_random. cbn.
    pose proof (frac_range (rnd w (rndPos w))) as R1.
    pose proof (frac_range (rnd w (S (rndPos w)))) as R2.
    repeat apply conj; try reflexivity; lra.
  - unfold updateMirageEffect.
    destruct (mirVisible (mirageMesh (env w))) eqn:V; [|reflexivity].
    cbn [negb]. unfold Math_random. cbv beta iota zeta.
    cbn [rnd rndPos set_rndPos].
    pose proof (frac_range (rnd w (S (rndPos w)))) as R2.
    pose proof (frac_range (rnd w (S (S (rndPos w))))) as R3.
    pose proof (frac_range (rnd w (S (S (S (rndPos w)))))) as R4.
    destruct (frac (rnd w (rndPos w)) <? 0.7); cbn;
      repeat apply conj; try assumption; try reflexivity; lra.
Qed.

(** ** Context-aware messages *)

Lemma andRandomLt_hit c p w : fst (andRandomLt c p w) = true -> c = true.
Proof. unfold andRandomLt. destruct c; [reflexivity|]. simpl. discriminate. Qed.

Lemma triggerMessage_entry time pool f w :
  exists e,
    overlay (triggerMessage time pool f w) = e :: overlay w /\
    (In (entryText e) (messagePools pool) \/
     In (entryText e) (messagePools contradiction)) /\
    entryBold e = (f >? Fin 0.5)%js /\
    entryRed e = (f >? Fin 0.8)%js.
Proof.
  unfold triggerMessage, Math_random. cbv beta iota zeta.
  match goal with |- context [pickMessage ?n ?p ?m ?w0] =>
    pose proof (pickMessage_in n p m w0) as HI;
    pose proof (pickMessage_quiet n p m w0) as HQ;
    destruct (pickMessage n p m w0) as [msg w1]
  end.
  cbn [fst snd] in *.
  destruct HQ as (_ & _ & _ & _ & _ & Ov).
  assert (O1 : overlay w1 = overlay w) by (rewrite Ov; reflexivity).
  assert (T : In msg (messagePools pool) \/ In msg (messagePools contradiction)).
  { match type of HI with _ -> _ -> In _ (messagePools (if ?b then _ else _)) =>
      destruct b end;
      [right | left]; (apply HI; [|left; discriminate]);
      try discriminate. destruct pool; discriminate. }
  clear HI Ov.
  unfold logMessage.
  match goal with |- context [if ?b then _ else _] => destruct b end;
    simpl; rewrite O1; eexists; (split; [reflexivity|]); simpl; auto.
Qed.

Ltac step_hit :=
  match goal with
  | |- context [andRandomLt ?c ?p ?w] =>
      let HH := fresh "HH" in
      let HQ := fresh "HQ" in
      pose proof (andRandomLt_hit c p w) as HH;
      pose proof (andRandomLt_quiet c p w) as HQ;
      destruct (andRandomLt c p w) as [[|] ?]; cbn [fst snd] in HH, HQ;
      [specialize (HH eq_refl) | clear HH];
      cbv beta iota zeta
  end.

Ltac overlay_chain :=
  repeat match goal with
  | HQ : quiet _ _ |- _ =>
      let O := fresh "O" in
      destruct HQ as (_ & _ & _ & _ & _ & O); try rewrite O
  end.

(** X27.  The messages follow the player's behaviour.  When
    [checkMessaging] shows a message, the latch is open, the cooldown has
    elapsed, and the pool it selected fits the state: the high-paranoia pool
    needs a factor above 0.7, the re-entry pool a zone seen before in a
    history of more than 15 samples, the look-back pool a player looking
    back, the stationary pool more than 5 s of standing, the flow pool more
    than 15 s of forward running.  The text is taken from that pool or from
    the contradiction pool, and is bold above a factor of 0.5 and red above
    0.8.  Otherwise the overlay is unchanged. *)
Theorem checkMessaging_in_context (time : Q) (f : num) (w : World) :
  let w' := checkMessaging time f w in
  overlay w' = overlay w \/
  exists pool e,
    poolFits pool f (metrics (player w)) = true /\
    endgameTriggered (sys w) = false /\
    (Fin (time - lastMessageTime (sys w)) <? currentCooldown f)%js = false /\
    overlay w' = e :: overlay w /\
    (In (entryText e) (messagePools pool) \/
     In (entryText e) (messagePools contradiction)) /\
    entryBold e = (f >? Fin 0.5)%js /\
    entryRed e = (f >? Fin 0.8)%js.
Proof.
  cbv zeta. unfold checkMessaging.
  destruct (endgameTriggered (sys w)) eqn:E1; [left; reflexivity|].
  destruct (Fin (time - lastMessageTime (sys w)) <? currentCooldown f)%js eqn:E2;
    [left; reflexivity|].
  assert (K : forall pool w1,
            poolFits pool f (metrics (player w)) = true ->
            overlay w1 = overlay w ->
            overlay (triggerMessage time pool f w1) = overlay w \/
            exists pool0 e,
              poolFits pool0 f (metrics (player w)) = true /\
              false = false /\ false = false /\
              overlay (triggerMessage time pool f w1) = e :: overlay w /\
              (In (entryText e) (messagePools pool0) \/
               In (entryText e) (messagePools contradiction)) /\
              entryBold e = (f >? Fin 0.5)%js /\
              entryRed e = (f >? Fin 0.8)%js).
  { intros pool w1 F O. right. exists pool.
    destruct (triggerMessage_entry time pool f w1) as (e & A & B & C & D).
    exists e. rewrite A, O. auto 10. }
  step_hit.
  - apply K; [exact HH | overlay_chain; reflexivity].
  - destruct (Nat.ltb 15 (List.length (zoneHistory (metrics (player w))))) eqn:L;
      repeat step_hit; try discriminate;
      first
        [ apply K;
          [ unfold poolFits; rewrite ?L; cbn [andb] in *;
            repeat match goal with
            | H : _ && _ = true |- _ => apply andb_true_iff in H; destruct H
            end;
            repeat (apply andb_true_iff; split); assumption
          | overlay_chain; reflexivity ]
        | left; overlay_chain; reflexivity ].
Qed.

(** ** Events below the threshold *)

(** X28.  At a factor of 0.95 or less the event state is frozen.  Outside a
    blackout, [handleRandomEvents] then leaves the whole system state as it
    is: no blackout starts, no camera twist starts, and a twist that is
    active neither advances nor ends.  The forced blackout and the mirage
    are not touched either; the only thing that can happen is a flicker of
    the lights. *)
Theorem events_frozen_below_threshold (time : Q) (delta : value) (f : Q) (w : World) :
  f <= 0.95 ->
  boActive (blackout (sys w)) = false ->
  let w' := handleRandomEvents time delta (Fin f) w in
  sys w' = sys w /\
  forceBlackout (env w') = forceBlackout (env w) /\
  mirageMesh (env w') = mirageMesh (env w) /\
  overlay w' = overlay w /\
  (w' = w \/ w' = snd (Math_random w) \/ w' = flickerLights (snd (Math_random w))).
Proof.
  intros F B. cbv zeta. unfold handleRandomEvents.
  destruct (endgameTriggered (sys w)); [repeat apply conj; auto|].
  destruct (Fin f <? Fin 0.1)%js; [repeat apply conj; auto|].
  rewrite B.
  assert (G : (Fin f >? Fin 0.95)%js = false).
  { simpl. unfold Qltb. apply negb_false_iff. apply Qle_bool_iff. exact F. }
  rewrite G. cbv beta iota zeta.
  destruct (Math_random w) as [r w1] eqn:R.
  assert (W1 : w1 = set_rndPos (S (rndPos w)) w)
    by (unfold Math_random in R; injection R as _ <-; reflexivity).
  cbn [snd].
  match goal with |- context [if ?c then _ else _] => destruct c end.
  - pose proof (quiet_flickerLights w1) as (S & _ & _ & _ & _ & O).
    pose proof (flickerLights_forced w1) as FB.
    assert (M : mirageMesh (env (flickerLights w1)) = mirageMesh (env w1)).
    { unfold flickerLights. destruct (forceBlackout (env w1)); [reflexivity|].
      destruct (flickerEach_flickered (lights (env w1)) w1) as (_ & n & E).
      destruct (flickerEach (lights (env w1)) w1) as [ls w2].
      cbn [fst snd] in *. subst w2. reflexivity. }
    rewrite S, O, FB, M, W1. repeat apply conj; auto.
  - rewrite W1. repeat apply conj; auto.
Qed.

Lemma events_frozen_below_threshold_witness :
  0.5 <= 0.95 /\
  boActive (blackout (sys lookingBackWorld)) = false /\
  sys (handleRandomEvents 30 (Number (Fin 1)) (Fin 0.5) lookingBackWorld) =
    sys lookingBackWorld.
Proof.
  assert (F : 0.5 <= 0.95) by (unfold Qle; simpl; lia).
  assert (B : boActive (blackout (sys lookingBackWorld)) = false) by reflexivity.
  split; [exact F|]. split; [exact B|].
  destruct (events_frozen_below_threshold 30 (Number (Fin 1)) 0.5
              lookingBackWorld F B) as (E & _).
  exact E.
Defined.

(** ** The survival clock *)

Lemma monitorParanoia_clock delta w :
  survivalTime (sys (monitorParanoia delta w)) = survivalTime (sys w).
Proof.
  unfold monitorParanoia.
  transitivity (survivalTime (sys (reportStatus (clampLevel (accrue delta w))))).
  - generalize (reportStatus (clampLevel (accrue delta w))). intros w1.
    hold_cases w1 delta; reflexivity.
  - unfold reportStatus, clampLevel, accrue, updateStatus. break_tests; reflexivity.
Qed.

Lemma triggerMessage_clock time pool f w :
  survivalTime (sys (triggerMessage time pool f w)) = survivalTime (sys w).
Proof.
  unfold triggerMessage, Math_random. cbv beta iota zeta.
  match goal with |- context [pickMessage ?n ?p ?m ?w0] =>
    pose proof (pickMessage_quiet n p m w0) as (S & _);
    destruct (pickMessage n p m w0) as [msg w1]
  end.
  cbn [snd] in S. unfold logMessage.
  match goal with |- context [if ?b then _ else _] => destruct b end;
    simpl; rewrite S; reflexivity.
Qed.

Lemma checkMessaging_clock time f w :
  survivalTime (sys (checkMessaging time f w)) = survivalTime (sys w).
Proof.
  destruct (checkMessaging_cases time f w)
    as [[-> _] | (_ & _ & w1 & (S & _) & [-> | [pool ->]])].
  - reflexivity.
  - rewrite S. reflexivity.
  - rewrite triggerMessage_clock, S. reflexivity.
Qed.

Lemma handleRandomEvents_clock time delta f w :
  survivalTime (sys (handleRandomEvents time delta f w)) = survivalTime (sys w).
Proof.
  unfold handleRandomEvents.
  destruct (endgameTriggered (sys w)); [reflexivity|].
  destruct (f <? Fin 0.1)%js; [reflexivity|].
  destruct (boActive (blackout (sys w))).
  - unfold showMirage, hideMirage, updateMirageEffect, Math_random.
    break_tests; reflexivity.
  - unfold Math_random. cbv beta iota zeta.
    match goal with
    | |- context [if ?c then flickerLights ?W else _] =>
        assert (HW : survivalTime (sys W) = survivalTime (sys w));
        [ break_tests; reflexivity
        | destruct c;
          [ pose proof (quiet_flickerLights W) as (HF & _);
            generalize dependent (flickerLights W); intros W' HF
          | ] ]
    end.
    + rewrite <- HW, <- HF. break_tests; reflexivity.
    + rewrite <- HW. break_tests; reflexivity.
Qed.

Lemma systemUpdate_clock time delta w :
  survivalTime (sys (FacilitySystem.update time delta w)) = survivalTime (sys w).
Proof.
  rewrite systemUpdate_unfold.
  rewrite handleRandomEvents_clock, checkMessaging_clock.
  unfold setDriftIntensity. cbn [sys upd_env set_env].
  apply monitorParanoia_clock.
Qed.

Lemma frameTail_clock f w :
  survivalTime (sys (frameTail f w)) =
  (survivalTime (sys w) + ToNumber (frDelta f))%js.
Proof.
  unfold frameTail. cbv zeta.
  match goal with |- context [updateLights ?d ?x] =>
    destruct (quiet_updateLights d x) as (S1 & _); rewrite S1
  end.
  match goal with |- context [FacilityGenerator.update ?z ?d ?x] =>
    destruct (generatorUpdate_drift z d x) as ((S2 & _) & _); rewrite S2
  end.
  reflexivity.
Qed.

Lemma sys_upd_env g w : sys (upd_env g w) = sys w.
Proof. reflexivity. Qed.

Lemma clock_upd_sys_paranoia v w :
  survivalTime (sys (upd_sys (set_paranoia v) w)) = survivalTime (sys w).
Proof. reflexivity. Qed.

Lemma sys_generate zStart w : sys (generateCorridorChunk zStart w) = sys w.
Proof. apply (generateCorridorChunk_drift zStart w). Qed.

Lemma enterCorridor_clock w :
  survivalTime (sys (enterCorridor w)) = survivalTime (sys w).
Proof.
  destruct (currentZone w) eqn:Z; [|unfold enterCorridor; rewrite Z; reflexivity].
  rewrite (enterCorridor_unfold w Z), clock_upd_sys_paranoia.
  unfold advance. rewrite sys_upd_env, sys_generate, sys_upd_env, sys_generate.
  match goal with |- context [destroyIntroRoom ?x] =>
    destruct (quiet_destroyIntroRoom x) as (S3 & _); rewrite S3
  end.
  reflexivity.
Qed.

(** X29.  The survival clock runs at double speed in the corridor:
    [animate] calls [updateClock] once in the corridor branch of the zone
    logic and once more in the part common to both zones, so a corridor
    frame adds the frame time twice, and an intro frame once. *)
Theorem clock_runs_double_in_corridor (f : Frame) (w : World) :
  let d := ToNumber (frDelta f) in
  survivalTime (sys (animate f w)) =
    match currentZone w with
    | INTRO => (survivalTime (sys w) + d)%js
    | CORRIDOR => (survivalTime (sys w) + d + d)%js
    end.
Proof.
  cbv zeta. unfold animate. rewrite frameTail_clock.
  unfold zoneLogic. cbv zeta. destruct (currentZone w).
  - destruct (posZ (player w) <? 1.0); [rewrite enterCorridor_clock|]; reflexivity.
  - match goal with |- context [FacilityGenerator.update ?z ?d ?x] =>
      destruct (generatorUpdate_drift z d x) as ((S2 & _) & _);
      assert (E : survivalTime (sys (FacilityGenerator.update z d x)) =
                  (survivalTime (sys w) + ToNumber (frDelta f))%js)
        by (rewrite S2; cbn [updateClock upd_sys sys set_sys set_survivalTime survivalTime];
            rewrite systemUpdate_clock; reflexivity);
      generalize dependent (FacilityGenerator.update z d x)
    end.
    intros w2 _ E. unfold triggerJumpscare.
    destruct (25.0 <? posZ (player w2)); [|rewrite E; reflexivity].
    destruct (jumpscareActive w2); rewrite <- E; reflexivity.
Qed.

(** X30.  The clock display shows the elapsed whole seconds and saturates
    at 99:59:59.  For a survival time [t >= 0] the three fields are in
    range, hours up to 99, minutes and seconds below 60, and they add up to
    the whole seconds of [t], capped at 359999. *)
Theorem clock_shows_elapsed_seconds (t : Q) :
  0 <= t ->
  exists hrs mins secs,
    clockFields (Fin t) = Some (hrs, mins, secs) /\
    (0 <= hrs <= 99 /\ 0 <= mins < 60 /\ 0 <= secs < 60 /\
     hrs * 3600 + mins * 60 + secs = Z.min (Qfloor t) 359999)%Z.
Proof.
  intros T. unfold clockFields. cbn [floor].
  assert (F : (0 <= Qfloor t)%Z).
  { change 0%Z with (Qfloor 0). apply Qfloor_resp_le, T. }
  set (s := Z.min (Qfloor t) 359999).
  assert (S0 : (0 <= s <= 359999)%Z) by (unfold s; lia).
  clearbody s. do 3 eexists. split; [reflexivity|].
  rewrite !Z.rem_mod_nonneg by lia.
  pose proof (Z.div_mod s 3600 ltac:(lia)) as D1.
  pose proof (Z.mod_pos_bound s 3600 ltac:(lia)) as B1.
  pose proof (Z.div_mod (s mod 3600) 60 ltac:(lia)) as D2.
  pose proof (Z.mod_pos_bound (s mod 3600) 60 ltac:(lia)) as B2.
  pose proof (Z.mod_pos_bound s 60 ltac:(lia)) as B3.
  assert (M : ((s mod 3600) mod 60 = s mod 60)%Z).
  { apply Z.mod_mod_divide. exists 60%Z. reflexivity. }
  assert (H0 : (0 <= s / 3600)%Z) by (apply Z.div_pos; lia).
  assert (H1 : (s / 3600 < 100)%Z) by (apply Z.div_lt_upper_bound; lia).
  assert (M0 : (0 <= s mod 3600 / 60)%Z) by (apply Z.div_pos; lia).
  assert (M1 : (s mod 3600 / 60 < 60)%Z) by (apply Z.div_lt_upper_bound; lia).
  repeat apply conj; try lia.
Qed.

Lemma clock_shows_elapsed_seconds_witness :
  0 <= 3725.5 /\
  exists hrs mins secs,
    clockFields (Fin 3725.5) = Some (hrs, mins, secs) /\
    (0 <= hrs <= 99 /\ 0 <= mins < 60 /\ 0 <= secs < 60 /\
     hrs * 3600 + mins * 60 + secs = Z.min (Qfloor 3725.5) 359999)%Z.
Proof.
  assert (T : 0 <= 3725.5) by (unfold Qle; simpl; lia).
  split; [exact T | apply (clock_shows_elapsed_seconds 3725.5 T)].
Defined.
